(** * regrtest in multiprocess mode

    A shallow embedding of [Lib/test/libregrtest/runtest.py] and
    [Lib/test/libregrtest/runtest_mp.py]: the result constants and the
    single-test runner, the child entry point [run_tests_slave], the
    lock-guarded iterator [MultiprocessIterator], the worker thread
    [MultiprocessThread] and the draining loop of
    [run_tests_multiprocess]; then the discovery of the tests
    ([findtests]), the removal of what a test leaves behind
    ([cleanup_test_droppings]) and, of [Lib/importlib/__init__.py], the
    functions [find_spec], [find_loader], [import_module] and [reload].

    Python objects are modelled by the values they hold: [str] by
    [string] (code points below 256), [int] by [Z], [float] by the
    kernel's binary64 floats, tuples and lists by [list].  Threads are
    modelled by an interleaving transition system whose atomic steps are
    the operations on the shared objects: the steps of [__next__] under
    the iterator's lock, the write of the iterator's flag, which takes
    no lock, and the operations of the output queue. *)

From Stdlib Require Import ZArith Ascii String DecimalString PrimFloat Uint63.
From stdpp Require Import base option list strings sorting gmap.

Open Scope Z_scope.
Set Warnings "-inexact-float".

(** ** Python built-ins used by the two modules *)

Module Py.

(** [str.isspace] on one character, for code points below 256. *)
Definition isspace (c : ascii) : bool :=
  let n := nat_of_ascii c in
  ((9 <=? n)%nat && (n <=? 13)%nat) || ((28 <=? n)%nat && (n <=? 32)%nat)
  || (n =? 133)%nat || (n =? 160)%nat.

(** [s.lstrip()] *)
Fixpoint lstrip (s : string) : string :=
  match s with
  | EmptyString => EmptyString
  | String c r => if isspace c then lstrip r else s
  end.

(** [s.rstrip()] *)
Fixpoint rstrip (s : string) : string :=
  match s with
  | EmptyString => EmptyString
  | String c r =>
      match rstrip r with
      | EmptyString => if isspace c then EmptyString else String c EmptyString
      | r' => String c r'
      end
  end.

(** [s.strip()] *)
Definition strip (s : string) : string := rstrip (lstrip s).

Definition newline : ascii := "010"%char.
Definition nl : string := String newline EmptyString.

(** The split of [s] at the last newline, when there is one. *)
Fixpoint rsplit_nl (s : string) : option (string * string) :=
  match s with
  | EmptyString => None
  | String c r =>
      match rsplit_nl r with
      | Some (h, t) => Some (String c h, t)
      | None => if Ascii.eqb c newline then Some (EmptyString, r) else None
      end
  end.

(** [s.rpartition("\n")]: head, separator, tail.  Without a newline the
    head and the separator are empty and the tail is [s]. *)
Definition rpartition (s : string) : string * string * string :=
  match rsplit_nl s with
  | Some (h, t) => (h, nl, t)
  | None => (EmptyString, EmptyString, s)
  end.

(** [str(n)] for an [int]. *)
Definition str_int (n : Z) : string := NilZero.string_of_int (Z.to_int n).

(** [sep.join(l)] *)
Definition join (sep : string) (l : list string) : string := String.concat sep l.

(** Truth value of a [str]. *)
Definition truthy (s : string) : bool := negb (String.eqb s EmptyString).

(** Python values that travel between the child and the parent: what
    [json.loads] can return, and tuples. *)
#[warnings="-register-all"]
Inductive pyval :=
| PyNone
| PyBool (b : bool)
| PyInt (z : Z)
| PyFloat (f : float)
| PyStr (s : string)
| PyList (l : list pyval)
| PyTuple (l : list pyval)
| PyDict (d : list (string * pyval)).

(** [float(z)], exact for the small integers it is used on. *)
Definition float_of_Z (z : Z) : float :=
  if z <? 0 then PrimFloat.opp (PrimFloat.of_uint63 (Uint63.of_Z (- z)))
  else PrimFloat.of_uint63 (Uint63.of_Z z).

(** [v == k] for an [int] constant [k]. *)
Definition eq_int (v : pyval) (k : Z) : bool :=
  match v with
  | PyInt z => z =? k
  | PyBool b => (if b then 1 else 0) =? k
  | PyFloat f => PrimFloat.eqb f (float_of_Z k)
  | _ => false
  end.

(** [type(v).__name__] *)
Definition type_name (v : pyval) : string :=
  match v with
  | PyNone => "NoneType"
  | PyBool _ => "bool"
  | PyInt _ => "int"
  | PyFloat _ => "float"
  | PyStr _ => "str"
  | PyList _ => "list"
  | PyTuple _ => "tuple"
  | PyDict _ => "dict"
  end.

(** [v >= x] for a [float] [x] and the integer [xz] it equals; [None]
    stands for the [TypeError] of an unorderable operand. *)
Definition ge_float (v : pyval) (x : float) (xz : Z) : option bool :=
  match v with
  | PyFloat f => Some (PrimFloat.leb x f)
  | PyInt z => Some (xz <=? z)
  | PyBool b => Some (xz <=? (if b then 1 else 0))
  | _ => None
  end.

Definition chars (s : string) : list pyval :=
  (fun c => PyStr (String c EmptyString)) <$> list_ascii_of_string s.

(** The items a value yields when iterated, [None] when it is not
    iterable. *)
Definition items (v : pyval) : option (list pyval) :=
  match v with
  | PyList l | PyTuple l => Some l
  | PyStr s => Some (chars s)
  | PyDict d => Some ((fun kv => PyStr kv.1) <$> d)
  | _ => None
  end.

(** [float(z)] raises [OverflowError] for an [int] that rounds to a
    magnitude beyond the largest binary64, [2^1024 - 2^971]. *)
Definition float_overflows (z : Z) : bool := 2 ^ 1024 - 2 ^ 970 <=? Z.abs z.

(** [v[i]] for a small index; [None] stands for the exception raised
    (a dict decoded from JSON has string keys only). *)
Definition getitem (v : pyval) (i : nat) : option pyval :=
  match v with
  | PyList l | PyTuple l => l !! i
  | PyStr s => chars s !! i
  | _ => None
  end.

(** The exceptions the two modules raise, catch or let through.
    [Other cls msg] is an exception of any other class; [msg] is what
    [str(e)] returns. *)
Inductive exn :=
| KeyboardInterrupt
| SystemExit (code : Z)
| StopIteration (msg : string)
| ResourceDenied (msg : string)
| SkipTest (msg : string)
| TestFailed (msg : string)
| Exception (msg : string)
| Other (cls msg : string).

(** [str(e)] *)
Definition exn_str (e : exn) : string :=
  match e with
  | KeyboardInterrupt => EmptyString
  | SystemExit code => str_int code
  | StopIteration msg | ResourceDenied msg | SkipTest msg | TestFailed msg
  | Exception msg | Other _ msg => msg
  end.

(** Code that reads and updates a state [S] and returns or raises. *)
Definition SE (S A : Type) : Type := S -> (exn + A) * S.

#[global] Instance SE_ret {S} : MRet (SE S) := fun A a s => (inr a, s).
#[global] Instance SE_bind {S} : MBind (SE S) := fun A B k m s =>
  match m s with
  | (inl e, s') => (inl e, s')
  | (inr a, s') => k a s'
  end.

Definition ret {S A} (a : A) : SE S A := mret a.
Definition raise {S A} (e : exn) : SE S A := fun s => (inl e, s).
Definition modify {S} (f : S -> S) : SE S unit := fun s => (inr tt, f s).
Definition when {S} (b : bool) (m : SE S unit) : SE S unit :=
  if b then m else ret tt.
(** A partial operation: [None] raises [e]. *)
Definition or_raise {S A} (o : option A) (e : exn) : SE S A :=
  match o with
  | Some a => ret a
  | None => raise e
  end.

(** A computed result or exception, returned or raised. *)
Definition or_fail {S A} (r : exn + A) : SE S A :=
  match r with
  | inl e => raise e
  | inr a => ret a
  end.

(** [a, b = v]: [TypeError] when [v] is not iterable, [ValueError] when
    it does not yield exactly two items. *)
Definition unpack2 (v : pyval) : exn + (pyval * pyval) :=
  match items v with
  | Some [a; b] => inr (a, b)
  | Some l =>
      inl (Other "ValueError"
             (if (length l <? 2)%nat
              then "not enough values to unpack (expected 2, got "
                   ++ str_int (Z.of_nat (length l)) ++ ")"
              else "too many values to unpack (expected 2)"))
  | None =>
      inl (Other "TypeError" ("'" ++ type_name v ++ "' object is not iterable"))
  end.

(** [try: body finally: final] *)
Definition try_finally {S A} (body : SE S A) (final : SE S unit) : SE S A :=
  fun s => match body s with
           | (r, s') => match final s' with
                        | (inl e, s'') => (inl e, s'')
                        | (inr _, s'') => (r, s'')
                        end
           end.

(** [try: body except BaseException as e: handler e] *)
Definition try_except {S A} (body : SE S A) (handler : exn -> SE S A) : SE S A :=
  fun s => match body s with
           | (inl e, s') => handler e s'
           | (inr a, s') => (inr a, s')
           end.

(** The library functions the modules call and this development leaves
    abstract: the JSON codec, the digits [%.0f] writes for a number that
    converts to a [float], and [repr]. *)
Class Builtins := {
  json_loads : string -> option pyval;  (* [None]: raises ValueError *)
  json_dumps : pyval -> string;
  format_0f : pyval -> string;
  repr : pyval -> string
}.

(** ['%.0f' % v]: the value is converted to a [float] first, which
    raises for an [int] out of range and for a value that is no number. *)
Definition percent_0f `{Builtins} (v : pyval) : exn + string :=
  match v with
  | PyInt z =>
      if float_overflows z
      then inl (Other "OverflowError" "int too large to convert to float")
      else inr (format_0f v)
  | PyFloat _ | PyBool _ => inr (format_0f v)
  | _ => inl (Other "TypeError" "a float is required")
  end.

(** [str(v)], as ['{}'.format(v)] renders it. *)
Definition str `{Builtins} (v : pyval) : string :=
  match v with
  | PyStr s => s
  | PyInt z => str_int z
  | PyNone => "None"
  | PyBool b => if b then "True" else "False"
  | _ => repr v
  end.

(** *** More built-ins, for [runtest.py] and [importlib] *)

(** [s.startswith(prefix)] *)
Fixpoint startswith (s prefix : string) {struct prefix} : bool :=
  match prefix, s with
  | EmptyString, _ => true
  | String a prefix, String b s => Ascii.eqb a b && startswith s prefix
  | String _ _, EmptyString => false
  end.

(** [s[n:]] for [n >= 0] *)
Fixpoint slice_from (n : nat) (s : string) : string :=
  match n, s with
  | O, _ => s
  | S n, String _ r => slice_from n r
  | S _, EmptyString => EmptyString
  end.

(** [s[:n]] for [n >= 0] *)
Fixpoint slice_to (n : nat) (s : string) : string :=
  match n, s with
  | S n, String c r => String c (slice_to n r)
  | _, _ => EmptyString
  end.

(** The split of [s] at the last occurrence of [sep], when there is
    one. *)
Fixpoint rsplit_at (sep : ascii) (s : string) : option (string * string) :=
  match s with
  | EmptyString => None
  | String c r =>
      match rsplit_at sep r with
      | Some (h, t) => Some (String c h, t)
      | None => if Ascii.eqb c sep then Some (EmptyString, r) else None
      end
  end.

(** [s.rpartition(sep)[0]] for a separator of one character: the part
    before its last occurrence, empty when there is none. *)
Definition rpartition_head (sep : ascii) (s : string) : string :=
  match rsplit_at sep s with
  | Some (h, _) => h
  | None => EmptyString
  end.

(** [a <= b] on [str]: by code points, a proper prefix first. *)
Definition str_le (a b : string) : Prop := String.leb a b = true.

#[global] Instance str_le_dec : RelDecision str_le :=
  fun a b => decide (String.leb a b = true).

(** [sorted(l)] for a list of [str]. *)
Definition sorted (l : list string) : list string := merge_sort str_le l.

(** Truth value of a value that is [None] or a [str]. *)
Definition truthy_opt (a : option string) : bool :=
  match a with
  | Some s => truthy s
  | None => false
  end.

(** [a or b] for [a] that is [None] or a [str]. *)
Definition str_or (a : option string) (b : string) : string :=
  if truthy_opt a then default b a else b.

(** The state, read. *)
Definition get {S} : SE S S := fun s => (inr s, s).

(** [for x in l: body(x)] *)
Fixpoint for_each {S A} (l : list A) (body : A -> SE S unit) : SE S unit :=
  match l with
  | [] => ret tt
  | x :: l => body x;; for_each l body
  end.

End Py.

(** ** runtest.py: the result constants and the single-test runner *)

Module runtest.
Import Py.

(** Test result constants. *)
Definition PASSED : Z := 1.
Definition FAILED : Z := 0.
Definition ENV_CHANGED : Z := -1.
Definition SKIPPED : Z := -2.
Definition RESOURCE_DENIED : Z := -3.
Definition INTERRUPTED : Z := -4.
Definition CHILD_ERROR : Z := -5.

(** The options of [ns] the modelled code reads. *)
Record Namespace := {
  verbose : bool;
  quiet : bool;
  huntrleaks : bool;
  verbose3 : bool;
  pgo : bool;
  use_mp : Z
}.

Inductive stream := Stdout | Stderr.

(** What a process has written, in order. *)
Definition writes := list (stream * string).

Definition text_of (st : stream) (w : writes) : string :=
  String.concat EmptyString
    (w ≫= fun e => match st, e.1 with
                   | Stdout, Stdout | Stderr, Stderr => [e.2]
                   | _, _ => []
                   end).

Definition all_text (w : writes) : string :=
  String.concat EmptyString (snd <$> w).

(** What the child process meets outside the two modules: the imported
    test module and the helpers of other modules ([setup_tests],
    [saved_test_environment], [dash_R], [cleanup_test_droppings],
    [traceback]). *)
Record child_env := {
  setup_raises : option exn;      (* [setup_tests(ns)] *)
  unit_writes : writes;           (* output of the test while it runs *)
  unit_raises : option exn;       (* exception raised in the [with] block *)
  unit_time : float;              (* [time.time() - start_time] *)
  unit_refleak : bool;            (* [dash_R(...)] *)
  unit_env_changed : bool;        (* [environment.changed] *)
  cleanup_writes : writes;        (* [cleanup_test_droppings] *)
  cleanup_raises : option exn;
  traceback : exn -> string       (* [traceback.format_exc()] *)
}.

(** Code of the child: it writes, and returns or raises. *)
Definition M : Type -> Type := SE writes.

Definition write (st : stream) (s : string) : M unit :=
  modify (fun w => w ++ [(st, s)]).
Definition emit (ws : writes) : M unit := modify (fun w => w ++ ws).
(** [print(s, file=st)] *)
Definition print (st : stream) (s : string) : M unit := write st (s ++ nl).

(** [sys.stdout] and [sys.stderr] replaced by one [StringIO] while [body]
    runs; its value is returned with the result.  When [body] raises, the
    streams are restored and the captured text is dropped. *)
Definition capture {A} (body : M A) : M (A * string) :=
  fun w => match body [] with
           | (inl e, _) => (inl e, w)
           | (inr a, captured) => (inr (a, all_text captured), w)
           end.

(** [result[0] == k] *)
Definition kind_is (result : pyval) (k : Z) : M bool :=
  match getitem result 0 with
  | Some v => ret (eq_int v k)
  | None => raise (Other "TypeError" "result is not subscriptable")
  end.

Section child.
Context (env : child_env).

Definition runtest_inner (test : string)
  (verbose quiet huntrleaks display_failure pgo : bool) : M pyval :=
  let test_time := 0.0%float in
  emit (unit_writes env);;
  match unit_raises env with
  | Some (ResourceDenied msg) =>
      when (negb quiet && negb pgo)
        (print Stdout (test ++ " skipped -- " ++ msg ));;
      ret (PyTuple [PyInt RESOURCE_DENIED; PyFloat test_time])
  | Some (SkipTest msg) =>
      when (negb quiet && negb pgo)
        (print Stdout (test ++ " skipped -- " ++ msg ));;
      ret (PyTuple [PyInt SKIPPED; PyFloat test_time])
  | Some KeyboardInterrupt => raise KeyboardInterrupt
  | Some (TestFailed msg) =>
      when (negb pgo)
        (if display_failure
         then print Stderr ("test " ++ test ++ " failed -- " ++ msg)
         else print Stderr ("test " ++ test ++ " failed" ));;
      ret (PyTuple [PyInt FAILED; PyFloat test_time])
  | Some e =>
      let msg := traceback env e in
      when (negb pgo)
        (print Stderr ("test " ++ test ++ " crashed -- " ++ msg ));;
      ret (PyTuple [PyInt FAILED; PyFloat test_time])
  | None =>
      let refleak := huntrleaks && unit_refleak env in
      let test_time := unit_time env in
      if refleak then ret (PyTuple [PyInt FAILED; PyFloat test_time])
      else if unit_env_changed env
           then ret (PyTuple [PyInt ENV_CHANGED; PyFloat test_time])
           else ret (PyTuple [PyInt PASSED; PyFloat test_time])
  end.

Definition cleanup_test_droppings : M unit :=
  emit (cleanup_writes env);;
  match cleanup_raises env with
  | Some e => raise e
  | None => ret tt
  end.

(** [runtest(ns, test)].  The [faulthandler] watchdog, which ends the
    process from outside this code, is not modelled. *)
Definition runtest (ns : Namespace) (test : string) : M pyval :=
  let output_on_failure := verbose3 ns in
  try_finally
    (if output_on_failure then
       ro ← capture (runtest_inner test (verbose ns) (quiet ns)
                       (huntrleaks ns) false (pgo ns));
       failed ← kind_is ro.1 FAILED;
       when failed (write Stderr ro.2);;
       ret ro.1
     else
       runtest_inner test (verbose ns) (quiet ns) (huntrleaks ns)
         (negb (verbose ns)) (pgo ns))
    cleanup_test_droppings.

End child.

(** *** Finding the tests *)

(** small set of tests to determine if we have a basically functioning
    interpreter *)
Definition STDTESTS : list string :=
  ["test_grammar"; "test_opcodes"; "test_dict"; "test_builtin";
   "test_exceptions"; "test_types"; "test_unittest"; "test_doctest";
   "test_doctest2"; "test_support"].

(** set of tests that we don't want to be executed when using regrtest *)
Definition NOTTESTS : gset string := ∅.

Section directory.
(** [os.listdir], which returns the names in any order or raises,
    [os.path.splitext], and [here], the value of
    [os.path.dirname(os.path.dirname(__file__))]. *)
Context (listdir : string -> exn + list string).
Context (splitext : string -> string * string).
Context (here : string).

Definition findtestdir (path : option string) : string :=
  str_or (Some (str_or path here)) ".".

(** Return a list of all applicable test modules. *)
Definition findtests (testdir : option string) (stdtests : list string)
  (nottests : gset string) : exn + list string :=
  let testdir := findtestdir testdir in
  match listdir testdir with
  | inl e => inl e
  | inr names =>
      let others : gset string := list_to_set stdtests ∪ nottests in
      let tests :=
        names ≫= fun name =>
          let '(modname, ext) := splitext name in
          if String.eqb (slice_to 5 modname) "test_"
             && (String.eqb ext ".py" || String.eqb ext "")
             && negb (bool_decide (modname ∈ others))
          then [modname] else [] in
      inr (stdtests ++ sorted tests)
  end.

End directory.

(** The name under which [runtest_inner] imports [test]: always from the
    [test] package. *)
Definition abstest (test : string) : string :=
  if startswith test "test." then test else "test." ++ test.

End runtest.

(** ** runtest.py: what a test leaves behind

    [cleanup_test_droppings] in full, on the names of the working
    directory.  In the child, [runtest.cleanup_test_droppings] stands for
    it by what it writes and raises. *)

Module droppings.
Import Py runtest.

(** What [os.path] says of a name that exists. *)
Inductive kind := Directory | File | Neither.

(** The names that exist in the working directory, and what the process
    has written. *)
Definition disk : Type := gmap string kind * writes.

Section removal.
Context `{Builtins}.
(** [TESTFN] is [support.TESTFN].  [nuke name k] stands for [os.chmod]
    followed by [shutil.rmtree] (a directory) or [os.unlink] (a file) on
    [name]: [None] when they succeed, which removes the name, or the
    text of the [Exception] raised, which leaves it. *)
Context (TESTFN : string) (nuke : string -> kind -> option string).

Definition say (st : stream) (s : string) : SE disk unit :=
  modify (fun d => (d.1, d.2 ++ [(st, (s ++ nl)%string)])).

Definition remove (name : string) : SE disk unit :=
  modify (fun d => (delete name d.1, d.2)).

(** The body of the loop of [cleanup_test_droppings]. *)
Definition cleanup_name (testname : string) (verbose : bool) (name : string)
  : SE disk unit :=
  d ← get;
  match d.1 !! name with
  | None => ret tt   (* [continue] *)
  | Some k =>
      kind_nuker ←
        match k with
        | Directory => ret "directory"
        | File => ret "file"
        | Neither =>
            raise (Other "SystemError"
                     ("os.path says " ++ repr (PyStr name)
                      ++ " exists but is neither directory nor file"))
        end;
      when verbose
        (say Stdout (repr (PyStr testname) ++ " left behind " ++ kind_nuker
                     ++ " " ++ repr (PyStr name)));;
      match nuke name k with
      | None => remove name
      | Some msg =>
          say Stderr (repr (PyStr testname) ++ " left behind " ++ kind_nuker
                      ++ " " ++ repr (PyStr name)
                      ++ " and it couldn't be removed: " ++ msg)
      end
  end.

(** [cleanup_test_droppings(testname, verbose)], after [gc.collect()]. *)
Definition cleanup_test_droppings (testname : string) (verbose : bool)
  : SE disk unit :=
  for_each [TESTFN; "db_home"] (cleanup_name testname verbose).

End removal.
End droppings.

(** ** importlib/__init__.py *)

Module importlib.
Import Py.

(** Objects are known by their identity. *)
Definition ref : Type := nat.

#[global] Instance ref_eq_dec : EqDecision ref.
Proof. unfold ref. apply _. Defined.

(** An attribute of an object: not set (reading it raises
    [AttributeError]), [None], or a value. *)
Inductive attribute (A : Type) :=
| Unset
| IsNone
| Is (a : A).
Arguments Unset {A}.
Arguments IsNone {A}.
Arguments Is {A} a.

(** A module spec, as far as the functions read it: [loader] and
    [submodule_search_locations] are [None] or a value. *)
Record ModuleSpec := {
  name : string;
  loader : option ref;
  submodule_search_locations : option (list string)
}.

(** An object that may be passed for a module, as far as the functions
    look at it. *)
Record module := {
  is_module : bool;                (* [isinstance(module, types.ModuleType)] *)
  truth : bool;                    (* [bool(module)] *)
  __name__ : option string;        (* [None]: the attribute is not set *)
  __spec__ : attribute ModuleSpec;
  __loader__ : attribute ref
}.

(** The state of the interpreter the functions read and update: the
    objects, [sys.modules] (a name is bound to [None] or to an object)
    and the module's own [_RELOADING]. *)
Record interpreter := {
  heap : ref -> module;
  sys_modules : gmap string (option ref);
  _RELOADING : gmap string ref
}.

Definition V : Type -> Type := SE interpreter.

Definition ValueError (msg : string) : exn := Other "ValueError" msg.
Definition ImportError (msg : string) : exn := Other "ImportError" msg.
Definition TypeError (msg : string) : exn := Other "TypeError" msg.
Definition AttributeError (msg : string) : exn := Other "AttributeError" msg.
Definition KeyError (msg : string) : exn := Other "KeyError" msg.

Section bootstrap.
Context `{Builtins}.
(** What [importlib._bootstrap] provides: [_find_spec(name, path,
    target)], [_SpecMethods(spec).exec(module)] and
    [_gcd_import(name, package, level)].  They read and update the
    interpreter, and return or raise. *)
Context (_find_spec : string -> option (list string) -> option ref ->
                      V (option ModuleSpec)).
Context (exec : option ModuleSpec -> ref -> V unit).
Context (_gcd_import : string -> option string -> nat -> V (option ref)).

Definition find_spec (name : string) (path : option (list string))
  : V (option ModuleSpec) :=
  fun st =>
    match sys_modules st !! name with
    | None => _find_spec name path None st
    | Some None => ret None st
    | Some (Some module) =>
        match __spec__ (heap st module) with
        | Unset => raise (ValueError (name ++ ".__spec__ is not set")) st
        | IsNone => raise (ValueError (name ++ ".__spec__ is None")) st
        | Is spec => ret (Some spec) st
        end
    end.

Definition find_loader (name : string) (path : option (list string))
  : V (option ref) :=
  fun st =>
    match sys_modules st !! name with
    | Some (Some module) =>
        match __loader__ (heap st module) with
        | Is loader => ret (Some loader) st
        | IsNone => raise (ValueError (name ++ ".__loader__ is None")) st
        | Unset => raise (ValueError (name ++ ".__loader__ is not set")) st
        end
    | Some None =>
        (* [None] has no attribute [__loader__] *)
        raise (ValueError (name ++ ".__loader__ is not set")) st
    | None =>
        (spec ← _find_spec name path None;
         (* We won't worry about malformed specs (missing attributes). *)
         match spec with
         | None => ret None
         | Some spec =>
             match loader spec with
             | None =>
                 if submodule_search_locations spec is None
                 then raise (ImportError ("spec for " ++ name
                                          ++ " missing loader"))
                 else raise (ImportError
                               "namespace packages do not have loaders")
             | Some loader => ret (Some loader)
             end
         end) st
    end.

(** The number of leading dots of [name]: the [for] loop of
    [import_module]. *)
Fixpoint leading_dots (name : string) : nat :=
  match name with
  | String "." rest => S (leading_dots rest)
  | _ => O
  end.

(** The arguments [import_module] passes to [_gcd_import], or the
    exception it raises before the call. *)
Definition import_module_call (name : string) (package : option string)
  : exn + (string * option string * nat) :=
  let level :=
    if startswith name "." then
      if negb (truthy_opt package) then
        inl (TypeError ("the 'package' argument is required to perform a "
                        ++ "relative import for " ++ repr (PyStr name)))
      else inr (leading_dots name)
    else inr O in
  match level with
  | inl e => inl e
  | inr level => inr (slice_from level name, package, level)
  end.

Definition import_module (name : string) (package : option string)
  : V (option ref) :=
  call ← or_fail (import_module_call name package);
  _gcd_import call.1.1 call.1.2 call.2.

(** [module.__spec__.name], or [module.__name__] when that raises
    [AttributeError].  Of the [AttributeError] of a missing [__name__]
    the name of the attribute is kept, its text depends on the type of
    the object. *)
Definition module_name (m : module) : exn + string :=
  match __spec__ m with
  | Is spec => inr (name spec)
  | _ =>
      match __name__ m with
      | Some name => inr name
      | None => inl (AttributeError "__name__")
      end
  end.

(** [module.__spec__ = spec] *)
Definition set_spec (module : ref) (spec : option ModuleSpec) : V unit :=
  modify (fun st =>
    {| heap := fun object =>
                 let m := heap st object in
                 if decide (object = module) then
                   {| is_module := is_module m; truth := truth m;
                      __name__ := __name__ m;
                      __spec__ := match spec with
                                  | Some spec => Is spec
                                  | None => IsNone
                                  end;
                      __loader__ := __loader__ m |}
                 else m;
       sys_modules := sys_modules st;
       _RELOADING := _RELOADING st |}).

(** [_RELOADING[name] = module] *)
Definition mark (name : string) (module : ref) : V unit :=
  modify (fun st =>
    {| heap := heap st; sys_modules := sys_modules st;
       _RELOADING := <[name := module]> (_RELOADING st) |}).

(** [del _RELOADING[name]], a missing key ignored *)
Definition unmark (name : string) : V unit :=
  modify (fun st =>
    {| heap := heap st; sys_modules := sys_modules st;
       _RELOADING := delete name (_RELOADING st) |}).

(** [reload(module)]: the argument is [None] or an object; the value is
    what [sys.modules] holds for the name, [None] or an object. *)
Definition reload (module : option ref) : V (option ref) :=
  match module with
  | None => raise (TypeError "reload() argument must be module")
  | Some module =>
      st ← get;
      let m := heap st module in
      if negb (truth m) || negb (is_module m) then
        raise (TypeError "reload() argument must be module")
      else
        name ← or_fail (module_name m);
        if negb (bool_decide (sys_modules st !! name = Some (Some module)))
        then raise (ImportError ("module " ++ name ++ " not in sys.modules"))
        else
          match _RELOADING st !! name with
          | Some reloading => ret (Some reloading)
          | None =>
              mark name module;;
              try_finally
                (let parent_name := rpartition_head "." name in
                 st ← get;
                 if truthy parent_name
                    && negb (bool_decide (is_Some (sys_modules st
                                                   !! parent_name)))
                 then raise (ImportError ("parent "
                                          ++ repr (PyStr parent_name)
                                          ++ " not in sys.modules"))
                 else
                   spec ← _find_spec name None (Some module);
                   set_spec module spec;;
                   exec spec module;;
                   (* The module may have replaced itself in
                      sys.modules! *)
                   st ← get;
                   match sys_modules st !! name with
                   | Some value => ret value
                   | None => raise (KeyError (repr (PyStr name)))
                   end)
                (unmark name)
          end
  end.

End bootstrap.
End importlib.

(** ** runtest_mp.py: the child entry point, the workers and the
    draining loop *)

Module runtest_mp.
Import Py runtest.

(** Minimum duration of a test to display its duration or to mention that
    the test is running in background; its value as an [int] for the
    comparison with an [int]. *)
Definition PROGRESS_MIN_TIME : float := 30.0%float.
Definition PROGRESS_MIN_TIME_Z : Z := 30.

(** Display the running tests if nothing happened last N seconds. *)
Definition PROGRESS_UPDATE : float := 30.0%float.

(** *** The child *)

Section slave.
Context `{Builtins} (env : child_env).

(** [setup_tests(ns)], of [test.libregrtest.setup]: it returns or
    raises. *)
Definition setup_tests : M unit :=
  match setup_raises env with
  | Some e => raise e
  | None => ret tt
  end.

(** The [try] statement of [run_tests_slave]: the result the child
    reports. *)
Definition slave_result (ns : Namespace) (testname : string) : M pyval :=
  try_except (runtest env ns testname)
    (fun e => match e with
              | KeyboardInterrupt => ret (PyTuple [PyInt INTERRUPTED; PyStr ""])
              | _ =>
                  write Stderr (traceback env e);;
                  ret (PyTuple [PyInt CHILD_ERROR; PyStr (exn_str e)])
              end).

(** [run_tests_slave(slaveargs)], from the decoded [slaveargs] on. *)
Definition run_tests_slave (ns : Namespace) (testname : string) : M unit :=
  setup_tests;;
  result ← slave_result ns testname;
  print Stdout "";;   (* Force a newline (just in case) *)
  print Stdout (json_dumps result);;
  raise (SystemExit 0).

(** The exit status of a process whose main code ended with [r], as
    [Popen.wait] reports it on a POSIX system: the interpreter converts
    the code of [SystemExit] to a C [long], -1 standing for a code out of
    its range, and the process reports the low eight bits. *)
Definition exit_status (r : exn + unit) : Z :=
  match r with
  | inr _ => 0
  | inl (SystemExit code) =>
      (if (- 2 ^ 63 <=? code) && (code <? 2 ^ 63) then code else -1) mod 256
  | inl _ => 1
  end.

(** The child as [Popen.communicate] and [Popen.wait] report it:
    [(retcode, stdout, stderr)].  An exception that ends the process is
    reported on its standard error. *)
Definition child_process (ns : Namespace) (testname : string)
  : Z * string * string :=
  let '(r, w) := run_tests_slave ns testname [] in
  let w := match r with
           | inr _ | inl (SystemExit _) => w
           | inl e => w ++ [(Stderr, traceback env e)]
           end in
  (exit_status r, text_of Stdout w, text_of Stderr w).

End slave.

(** *** The work queue *)

(** [MultiprocessIterator]: [tests] is what the iterator [self.tests] has
    yet to yield.  [self.lock] is no field here: it is held by the thread
    that stands inside [__next__] (see the threads below). *)
Record MultiprocessIterator := {
  interrupted : bool;
  tests : list string
}.

Definition __init__ (tests : list string) : MultiprocessIterator :=
  {| interrupted := false; tests := tests |}.

(** [next(self.tests)] *)
Definition next_tests (self : MultiprocessIterator)
  : (exn + string) * MultiprocessIterator :=
  match tests self with
  | [] => (inl (StopIteration ""), self)
  | test :: rest =>
      (inr test, {| interrupted := interrupted self; tests := rest |})
  end.

(** One call of [__next__] that no write of another thread comes
    between: the test of [self.interrupted], then [next(self.tests)]. *)
Definition __next__ (self : MultiprocessIterator)
  : (exn + string) * MultiprocessIterator :=
  if interrupted self then (inl (StopIteration "tests interrupted"), self)
  else next_tests self.

(** [pending.interrupted = True], written by the main thread without
    [self.lock]. *)
Definition mark_interrupted (self : MultiprocessIterator)
  : MultiprocessIterator :=
  {| interrupted := true; tests := tests self |}.

(** *** The workers *)

(** What a worker puts on the output queue: [(None, None, None, None)] or
    [(test, stdout, stderr, result)]. *)
Inductive item :=
| NoResult
| Result (test stdout stderr : string) (result : pyval).

(** What [run_test_in_subprocess] gives back: it raises, or returns
    [(retcode, stdout, stderr)]. *)
Definition subprocess_result : Type := exn + (Z * string * string).

(** The attributes of a [MultiprocessThread] that other threads read. *)
Record MultiprocessThread := {
  current_test : option string;
  start_time : option float
}.

(** The objects the workers share. *)
Record shared := {
  pending : MultiprocessIterator;
  output : list item
}.

(** [self.output.put(it)] *)
Definition put (it : item) (sh : shared) : shared :=
  {| pending := pending sh; output := output sh ++ [it] |}.

Section worker.
Context `{Builtins}.

(** [_runtest] from the return of [run_test_in_subprocess] on (after the
    [finally]): the item to put and the value to return, or the exception
    raised. *)
Definition handle_exit (test : string) (retcode : Z) (stdout stderr : string)
  : exn + (item * bool) :=
  let '(stdout, _, result) := rpartition (strip stdout) in
  if negb (retcode =? 0) then
    let result := PyTuple [PyInt CHILD_ERROR;
                           PyStr ("Exit code " ++ str_int retcode)] in
    inr (Result test (rstrip stdout) (rstrip stderr) result, true)
  else if negb (truthy result) then
    inr (NoResult, true)
  else
    match json_loads result with
    | None => inl (Other "ValueError" result)
    | Some result =>
        inr (Result test (rstrip stdout) (rstrip stderr) result, false)
    end.

(** [MultiprocessThread._runtest], run without interference: [child]
    stands for [run_test_in_subprocess] and [now] for [time.monotonic()]. *)
Definition _runtest (child : string -> subprocess_result) (now : float)
  (self : MultiprocessThread) (sh : shared)
  : (exn + bool) * MultiprocessThread * shared :=
  match __next__ (pending sh) with
  | (inl (StopIteration _), p) =>
      (inr true, self, put NoResult {| pending := p; output := output sh |})
  | (inl e, p) => (inl e, self, {| pending := p; output := output sh |})
  | (inr test, p) =>
      let sh := {| pending := p; output := output sh |} in
      let done := {| current_test := None; start_time := Some now |} in
      match child test with
      | inl e => (inl e, done, sh)
      | inr (retcode, stdout, stderr) =>
          match handle_exit test retcode stdout stderr with
          | inl e => (inl e, done, sh)
          | inr (it, stop) => (inr stop, done, put it sh)
          end
      end
  end.

(** [MultiprocessThread.run], run without interference.  [None] when
    [fuel] iterations were not enough. *)
Fixpoint run (fuel : nat) (child : string -> subprocess_result) (now : float)
  (self : MultiprocessThread) (sh : shared)
  : option ((exn + unit) * MultiprocessThread * shared) :=
  match fuel with
  | O => None
  | S fuel =>
      match _runtest child now self sh with
      | (inr true, self, sh) => Some (inr tt, self, sh)
      | (inr false, self, sh) => run fuel child now self sh
      | (inl e, self, sh) => Some (inl e, self, put NoResult sh)
      end
  end.

End worker.

(** *** The orchestrator *)

(** The [Regrtest] object, as far as [run_tests_multiprocess] uses it.

    Modelled from the spec: [accumulate_result] and [display_progress]
    are methods of [Regrtest] in [main.py], which is not among the source
    files.  The Run Accumulator is append-only: [accumulated] lists the
    [(test, result)] pairs recorded, in order (its grouping by the first
    component of [result] is the spec's mapping from Outcome kind to
    Units); [displayed] lists the progress lines. *)
Record Regrtest := {
  ns : Namespace;
  accumulated : list (string * pyval);
  displayed : list (Z * string);
  regrtest_interrupted : bool
}.

(** The local variables of [run_tests_multiprocess] and what it has
    printed. *)
Record main_state := {
  regrtest : Regrtest;
  finished : Z;
  test_index : Z;
  console : writes
}.

Definition accumulate_result (test : string) (result : pyval)
  : SE main_state unit :=
  modify (fun m =>
    {| regrtest := {| ns := ns (regrtest m);
                      accumulated := accumulated (regrtest m) ++ [(test, result)];
                      displayed := displayed (regrtest m);
                      regrtest_interrupted := regrtest_interrupted (regrtest m) |};
       finished := finished m;
       test_index := test_index m;
       console := console m |}).

Definition display_progress (index : Z) (text : string)
  : SE main_state unit :=
  modify (fun m =>
    {| regrtest := {| ns := ns (regrtest m);
                      accumulated := accumulated (regrtest m);
                      displayed := displayed (regrtest m) ++ [(index, text)];
                      regrtest_interrupted := regrtest_interrupted (regrtest m) |};
       finished := finished m;
       test_index := test_index m;
       console := console m |}).

(** [regrtest.interrupted = True] *)
Definition set_interrupted : SE main_state unit :=
  modify (fun m =>
    {| regrtest := {| ns := ns (regrtest m);
                      accumulated := accumulated (regrtest m);
                      displayed := displayed (regrtest m);
                      regrtest_interrupted := true |};
       finished := finished m;
       test_index := test_index m;
       console := console m |}).

(** [print(s, file=st, flush=True)] in the main thread *)
Definition console_print (st : stream) (s : string) : SE main_state unit :=
  modify (fun m =>
    {| regrtest := regrtest m;
       finished := finished m;
       test_index := test_index m;
       console := console m ++ [(st, (s ++ nl)%string)] |}).

(** [finished += 1] *)
Definition incr_finished : SE main_state unit :=
  modify (fun m =>
    {| regrtest := regrtest m;
       finished := finished m + 1;
       test_index := test_index m;
       console := console m |}).

(** [test_index += 1] *)
Definition incr_test_index : SE main_state unit :=
  modify (fun m =>
    {| regrtest := regrtest m;
       finished := finished m;
       test_index := test_index m + 1;
       console := console m |}).

Definition nonempty {A} (l : list A) : bool :=
  match l with
  | [] => false
  | _ => true
  end.

Section orchestrator.
Context `{Builtins}.

(** [get_running(workers)] at time [now].  A worker stores [start_time]
    before [current_test], so a worker with a current test has a start
    time. *)
Definition get_running (now : float) (workers : list MultiprocessThread)
  : list string :=
  workers ≫= fun worker =>
    match current_test worker, start_time worker with
    | Some current_test, Some start_time =>
        if negb (truthy current_test) then []
        else
          let dt := PrimFloat.sub now start_time in
          if PrimFloat.leb PROGRESS_MIN_TIME dt
          then [(current_test ++ " (" ++ format_0f (PyFloat dt) ++ " sec)")%string]
          else []
    | _, _ => []
    end.

(** The body of the draining loop when [output.get] raised
    [queue.Empty]. *)
Definition on_empty (now : float) (workers : list MultiprocessThread)
  : SE main_state unit :=
  fun m =>
    let running := get_running now workers in
    when (nonempty running && negb (pgo (ns (regrtest m))))
      (console_print Stdout ("running: " ++ join ", " running)) m.

(** The body of the draining loop when [output.get] returned [it]. *)
Definition on_item (now : float) (workers : list MultiprocessThread)
  (it : item) : SE main_state unit :=
  match it with
  | NoResult => incr_finished
  | Result test stdout stderr result =>
      fun m =>
      let pgo := pgo (ns (regrtest m)) in
      let index := test_index m in
      (accumulate_result test result;;
       (* Display progress *)
       p ← or_fail (unpack2 result);
       let ok := p.1 in
       let test_time := p.2 in
       slow ← (if negb (eq_int ok CHILD_ERROR || eq_int ok INTERRUPTED)
               then or_raise
                      (ge_float test_time PROGRESS_MIN_TIME PROGRESS_MIN_TIME_Z)
                      (Other "TypeError"
                         ("'>=' not supported between instances of '"
                          ++ type_name test_time ++ "' and 'float'"))
               else ret false);
       text ← (if slow && negb pgo
               then seconds ← or_fail (percent_0f test_time);
                    ret (test ++ " (" ++ seconds ++ " sec)")%string
               else ret test);
       let running := get_running now workers in
       let text :=
         if nonempty running && negb pgo
         then (text ++ " -- running: " ++ join ", " running)%string
         else text in
       display_progress index text;;
       (* Copy stdout and stderr from the child process *)
       when (truthy stdout) (console_print Stdout stdout);;
       when (truthy stderr && negb pgo) (console_print Stderr stderr);;
       r0 ← or_raise (getitem result 0) (Other "KeyError" "0");
       if eq_int r0 INTERRUPTED then raise KeyboardInterrupt
       else if eq_int r0 CHILD_ERROR then
         r1 ← or_raise (getitem result 1) (Other "KeyError" "1");
         raise (Exception ("Child error on " ++ test ++ ": " ++ str r1))
       else incr_test_index) m
  end.

(** The handler of [KeyboardInterrupt] around the loop, on the main
    thread's own state; between the two it marks the iterator. *)
Definition on_interrupt : SE main_state unit :=
  set_interrupted;;
  modify (fun m =>
    {| regrtest := regrtest m;
       finished := finished m;
       test_index := test_index m;
       console := console m ++ [(Stdout, nl)] |}).

(** Past the loop: the tests still running are listed. *)
Definition on_leave (workers : list MultiprocessThread)
  : SE main_state unit :=
  let running :=
    workers ≫= fun worker =>
      match current_test worker with
      | Some t => if truthy t then [t] else []
      | None => []
      end in
  when (nonempty running)
    (console_print Stdout ("Waiting for " ++ join ", " running)).

End orchestrator.

(** *** The threads together

    The workers and the main thread interleave.  An atomic step is one
    operation on a shared object.  A call of [__next__] is two of them:
    the test of [self.interrupted] once [self.lock] is acquired, and
    [next(self.tests)] with the release of the lock.  The lock is held by
    the worker that stands between the two, and a worker enters only when
    no worker stands there.  The main thread writes
    [pending.interrupted] in its handler of [KeyboardInterrupt] without
    the lock: that write is a step of its own, which may fall between
    the two steps of a call.  The other steps are the return of a child
    process, a [put] on the output queue, a [get] from it (or its
    timeout) with the loop body that follows, and the main thread's moves
    past its loop.  A worker stores [start_time] and [current_test] in
    the step of its claim and clears [current_test] in the step in which
    its child ends; one reading of the clock stands for the readings of
    one call of [get_running].  Signals are not modelled: an interrupt
    reaches the main thread as a result of kind [INTERRUPTED]. *)

(** Where a worker stands in [run]. *)
Inductive position :=
| Idle                               (* before [next(self.pending)] *)
| Locked                             (* in [__next__] under the lock, past the test of [interrupted] *)
| Awaiting (test : string)           (* in [run_test_in_subprocess] *)
| Putting (it : item) (stop : bool)  (* before [put]; [_runtest] then returns [stop] *)
| Raising (e : exn)                  (* in the handler of [run] *)
| Finished                           (* [run] has returned *)
| Crashed (e : exn).                 (* [run] has raised *)

(** Where the main thread stands in [run_tests_multiprocess]. *)
Inductive phase :=
| Draining           (* in the [while] loop *)
| Handling           (* [KeyboardInterrupt] caught, before the handler's writes *)
| Leaving            (* past the loop, before "Waiting for" *)
| Joining            (* in the [join] loop *)
| Returned           (* the function has returned *)
| Raised (e : exn).  (* the function has raised [e] *)

Record system := {
  objects : shared;
  workers : list (MultiprocessThread * position);
  main : main_state;
  at_phase : phase
}.

Inductive label :=
| Enter (i : nat)
| Claim (i : nat) (test : string)
| Exhausted (i : nat)
| ChildExit (i : nat) (test : string) (r : subprocess_result)
| Put (i : nat) (it : item)
| Crash (i : nat) (e : exn)
| Recv (it : item)
| Timeout
| Mark
| LoopExit
| Waiting
| Join.

Definition terminated (p : position) : bool :=
  match p with
  | Finished | Crashed _ => true
  | _ => false
  end.

(** The worker holds [pending.lock]. *)
Definition holds_lock (p : position) : bool :=
  match p with
  | Locked => true
  | _ => false
  end.

(** No worker holds [pending.lock]. *)
Definition lock_free (ws : list (MultiprocessThread * position)) : bool :=
  forallb (fun w => negb (holds_lock w.2)) ws.

Section threads.
Context `{Builtins}.
(** [spawn test r]: a child process started for [test] may end with
    [r]. *)
Context (spawn : string -> subprocess_result -> Prop).

(** [run_tests_multiprocess] up to the start of the workers. *)
Definition init (regrtest : Regrtest) (tests : list string) : system :=
  {| objects := {| pending := __init__ tests; output := [] |};
     workers := replicate (Z.to_nat (use_mp (ns regrtest)))
                  ({| current_test := None; start_time := None |}, Idle);
     main := {| regrtest := regrtest; finished := 0; test_index := 1;
                console := [] |};
     at_phase := Draining |}.

(** Where a worker stands once its child has ended with [r]. *)
Definition after_child (test : string) (r : subprocess_result) : position :=
  match r with
  | inl e => Raising e
  | inr (retcode, stdout, stderr) =>
      match handle_exit test retcode stdout stderr with
      | inl e => Raising e
      | inr (it, stop) => Putting it stop
      end
  end.

(** The system once the loop body has ended with [r] on an item:
    [KeyboardInterrupt] is caught by the handler around the loop, any
    other exception leaves the function. *)
Definition after_item (r : exn + unit) (m : main_state) (sh : shared)
  (ws : list (MultiprocessThread * position)) : system :=
  {| objects := sh; workers := ws; main := m;
     at_phase := match r with
                 | inr _ => Draining
                 | inl KeyboardInterrupt => Handling
                 | inl e => Raised e
                 end |}.

Definition looping (s : system) : Prop :=
  at_phase s = Draining /\
  finished (main s) < use_mp (ns (regrtest (main s))).

Inductive step : system -> label -> system -> Prop :=
| step_enter s i th :
    workers s !! i = Some (th, Idle) ->
    lock_free (workers s) = true ->
    interrupted (pending (objects s)) = false ->
    step s (Enter i)
      {| objects := objects s;
         workers := <[i := (th, Locked)]> (workers s);
         main := main s;
         at_phase := at_phase s |}
| step_refused s i th :
    workers s !! i = Some (th, Idle) ->
    lock_free (workers s) = true ->
    interrupted (pending (objects s)) = true ->
    step s (Exhausted i)
      {| objects := objects s;
         workers := <[i := (th, Putting NoResult true)]> (workers s);
         main := main s;
         at_phase := at_phase s |}
| step_claim s i th now test p :
    workers s !! i = Some (th, Locked) ->
    next_tests (pending (objects s)) = (inr test, p) ->
    step s (Claim i test)
      {| objects := {| pending := p; output := output (objects s) |};
         workers := <[i := ({| current_test := Some test;
                               start_time := Some now |}, Awaiting test)]>
                      (workers s);
         main := main s;
         at_phase := at_phase s |}
| step_exhausted s i th msg p :
    workers s !! i = Some (th, Locked) ->
    next_tests (pending (objects s)) = (inl (StopIteration msg), p) ->
    step s (Exhausted i)
      {| objects := {| pending := p; output := output (objects s) |};
         workers := <[i := (th, Putting NoResult true)]> (workers s);
         main := main s;
         at_phase := at_phase s |}
| step_child s i th test r :
    workers s !! i = Some (th, Awaiting test) ->
    spawn test r ->
    step s (ChildExit i test r)
      {| objects := objects s;
         workers := <[i := ({| current_test := None;
                               start_time := start_time th |},
                            after_child test r)]> (workers s);
         main := main s;
         at_phase := at_phase s |}
| step_put s i th it stop :
    workers s !! i = Some (th, Putting it stop) ->
    step s (Put i it)
      {| objects := put it (objects s);
         workers := <[i := (th, if stop then Finished else Idle)]> (workers s);
         main := main s;
         at_phase := at_phase s |}
| step_crash s i th e :
    workers s !! i = Some (th, Raising e) ->
    step s (Crash i e)
      {| objects := put NoResult (objects s);
         workers := <[i := (th, Crashed e)]> (workers s);
         main := main s;
         at_phase := at_phase s |}
| step_recv s now it rest r m :
    looping s ->
    output (objects s) = it :: rest ->
    on_item now (fst <$> workers s) it (main s) = (r, m) ->
    step s (Recv it)
      (after_item r m {| pending := pending (objects s); output := rest |}
         (workers s))
| step_timeout s now r m :
    looping s ->
    output (objects s) = [] ->
    on_empty now (fst <$> workers s) (main s) = (r, m) ->
    step s Timeout
      {| objects := objects s; workers := workers s; main := m;
         at_phase := Draining |}
| step_mark s r m :
    at_phase s = Handling ->
    on_interrupt (main s) = (r, m) ->
    step s Mark
      {| objects := {| pending := mark_interrupted (pending (objects s));
                       output := output (objects s) |};
         workers := workers s; main := m; at_phase := Leaving |}
| step_loop_exit s :
    at_phase s = Draining ->
    ~ finished (main s) < use_mp (ns (regrtest (main s))) ->
    step s LoopExit
      {| objects := objects s; workers := workers s; main := main s;
         at_phase := Leaving |}
| step_waiting s r m :
    at_phase s = Leaving ->
    on_leave (fst <$> workers s) (main s) = (r, m) ->
    step s Waiting
      {| objects := objects s; workers := workers s; main := m;
         at_phase := Joining |}
| step_join s :
    at_phase s = Joining ->
    Forall (fun w => terminated w.2 = true) (workers s) ->
    step s Join
      {| objects := objects s; workers := workers s; main := main s;
         at_phase := Returned |}.

(** [exec s tr s']: the steps labelled [tr] lead from [s] to [s']. *)
Inductive exec : system -> list label -> system -> Prop :=
| exec_nil s : exec s [] s
| exec_snoc s tr s' l s'' :
    exec s tr s' -> step s' l s'' -> exec s (tr ++ [l]) s''.

(** The same steps as functions: what a thread does next when it is
    scheduled.  [Work now i r] schedules worker [i] (a child awaited ends
    with [r], a time read is [now]), [Main now] the main thread.  A
    worker that waits for the lock is not enabled. *)
Inductive action :=
| Work (now : float) (i : nat) (r : subprocess_result)
| Main (now : float).

Definition work (now : float) (i : nat) (r : subprocess_result) (s : system)
  : option (label * system) :=
  let update w sh :=
    {| objects := sh; workers := <[i := w]> (workers s); main := main s;
       at_phase := at_phase s |} in
  match workers s !! i with
  | Some (th, Idle) =>
      if lock_free (workers s) then
        if interrupted (pending (objects s))
        then Some (Exhausted i, update (th, Putting NoResult true) (objects s))
        else Some (Enter i, update (th, Locked) (objects s))
      else None
  | Some (th, Locked) =>
      match next_tests (pending (objects s)) with
      | (inr test, p) =>
          Some (Claim i test,
                update ({| current_test := Some test; start_time := Some now |},
                        Awaiting test)
                  {| pending := p; output := output (objects s) |})
      | (inl (StopIteration _), p) =>
          Some (Exhausted i,
                update (th, Putting NoResult true)
                  {| pending := p; output := output (objects s) |})
      | (inl _, _) => None
      end
  | Some (th, Awaiting test) =>
      Some (ChildExit i test r,
            update ({| current_test := None; start_time := start_time th |},
                    after_child test r) (objects s))
  | Some (th, Putting it stop) =>
      Some (Put i it,
            update (th, if stop then Finished else Idle) (put it (objects s)))
  | Some (th, Raising e) =>
      Some (Crash i e, update (th, Crashed e) (put NoResult (objects s)))
  | _ => None
  end.

Definition main_move (now : float) (s : system) : option (label * system) :=
  match at_phase s with
  | Draining =>
      if finished (main s) <? use_mp (ns (regrtest (main s))) then
        match output (objects s) with
        | it :: rest =>
            let '(r, m) := on_item now (fst <$> workers s) it (main s) in
            Some (Recv it,
                  after_item r m
                    {| pending := pending (objects s); output := rest |}
                    (workers s))
        | [] =>
            let '(r, m) := on_empty now (fst <$> workers s) (main s) in
            Some (Timeout,
                  {| objects := objects s; workers := workers s; main := m;
                     at_phase := Draining |})
        end
      else
        Some (LoopExit,
              {| objects := objects s; workers := workers s; main := main s;
                 at_phase := Leaving |})
  | Handling =>
      let '(r, m) := on_interrupt (main s) in
      Some (Mark,
            {| objects := {| pending := mark_interrupted (pending (objects s));
                             output := output (objects s) |};
               workers := workers s; main := m; at_phase := Leaving |})
  | Leaving =>
      let '(r, m) := on_leave (fst <$> workers s) (main s) in
      Some (Waiting,
            {| objects := objects s; workers := workers s; main := m;
               at_phase := Joining |})
  | Joining =>
      if forallb (fun w => terminated w.2) (workers s) then
        Some (Join,
              {| objects := objects s; workers := workers s; main := main s;
                 at_phase := Returned |})
      else None
  | _ => None
  end.

Definition act (a : action) (s : system) : option (label * system) :=
  match a with
  | Work now i r => work now i r s
  | Main now => main_move now s
  end.

(** A child may end as the action says. *)
Definition allowed (a : action) (s : system) : Prop :=
  match a with
  | Work _ i r =>
      forall th test, workers s !! i = Some (th, Awaiting test) -> spawn test r
  | Main _ => True
  end.

(** A schedule, run from [s]: the labels of its steps and the system it
    leads to; [None] when an action is not enabled. *)
Fixpoint acts (schedule : list action) (s : system)
  : option (list label * system) :=
  match schedule with
  | [] => Some ([], s)
  | a :: schedule =>
      match act a s with
      | Some (l, s') =>
          match acts schedule s' with
          | Some (tr, s'') => Some (l :: tr, s'')
          | None => None
          end
      | None => None
      end
  end.

(** The children of a schedule end as [spawn] allows. *)
Fixpoint all_allowed (schedule : list action) (s : system) : Prop :=
  match schedule with
  | [] => True
  | a :: schedule =>
      allowed a s /\
      match act a s with
      | Some (_, s') => all_allowed schedule s'
      | None => True
      end
  end.

End threads.

End runtest_mp.

(** * Properties *)

Import Py runtest runtest_mp.

(** ** The vocabulary of the statements *)

Section vocabulary.
Context `{Builtins}.

(** Every character of [s] is white space. *)
Definition blank (s : string) : bool := forallb isspace (list_ascii_of_string s).

(** No character of [s] is a newline. *)
Definition one_line (s : string) : bool :=
  forallb (fun c => negb (Ascii.eqb c newline)) (list_ascii_of_string s).

(** The last character of [s], when it has one, is not white space. *)
Fixpoint ends_solid (s : string) : bool :=
  match s with
  | "" => false
  | String c "" => negb (isspace c)
  | String _ r => ends_solid r
  end.

(** The first character of [s], when it has one, is not white space. *)
Definition starts_solid (s : string) : bool :=
  match s with
  | "" => false
  | String c _ => negb (isspace c)
  end.

(** The system with worker [i] and the shared objects replaced. *)
Definition worker_at (s : system) (i : nat)
  (w : MultiprocessThread * position) (sh : shared) : system :=
  {| objects := sh; workers := <[i := w]> (workers s); main := main s;
     at_phase := at_phase s |}.

(** What [get_running] lists: the workers that have a current test whose
    child has been running for [PROGRESS_MIN_TIME] or longer. *)
Definition slow_entry (now : float) (worker : MultiprocessThread)
  (entry : string) : Prop :=
  exists test start,
    current_test worker = Some test /\ start_time worker = Some start /\
    PrimFloat.leb PROGRESS_MIN_TIME (PrimFloat.sub now start) = true /\
    entry = test +:+ " (" +:+ format_0f (PyFloat (PrimFloat.sub now start))
            +:+ " sec)".

(** The line a liveness probe prints, if any. *)
Definition probe_lines (now : float) (ws : list MultiprocessThread)
  (pgo : bool) : writes :=
  let running := get_running now ws in
  if nonempty running && negb pgo
  then [(Stdout, ("running: " +:+ join ", " running) +:+ nl)]
  else [].

(** A result whose kind is the [int] [k], as a tuple (built by the
    worker) or a list (decoded from the child's last line). *)
Definition record (k : Z) (second : pyval) (result : pyval) : Prop :=
  result = PyTuple [PyInt k; second] \/ result = PyList [PyInt k; second].

(** The text of a progress line for a result whose duration is not
    displayed. *)
Definition progress_text (now : float) (ws : list MultiprocessThread)
  (pgo : bool) (test : string) : string :=
  let running := get_running now ws in
  if nonempty running && negb pgo
  then (test +:+ " -- running: " +:+ join ", " running)
  else test.

(** The state of the main thread once it has recorded and displayed a
    result. *)
Definition displayed_state (m : main_state) (test stdout stderr : string)
  (result : pyval) (text : string) : main_state :=
  let pgo := pgo (ns (regrtest m)) in
  {| regrtest := {| ns := ns (regrtest m);
                    accumulated := accumulated (regrtest m) ++ [(test, result)];
                    displayed := displayed (regrtest m) ++ [(test_index m, text)];
                    regrtest_interrupted := regrtest_interrupted (regrtest m) |};
     finished := finished m;
     test_index := test_index m;
     console := (console m
                 ++ (if truthy stdout then [(Stdout, stdout +:+ nl)] else []))
                ++ (if truthy stderr && negb pgo
                    then [(Stderr, stderr +:+ nl)] else []) |}.

(** The labels of the main thread's steps. *)
Definition main_label (l : label) : bool :=
  match l with
  | Recv _ | Timeout | Mark | LoopExit | Waiting | Join => true
  | _ => false
  end.

Definition is_claim (l : label) : bool :=
  match l with
  | Claim _ _ => true
  | _ => false
  end.

(** A call of [__next__] has passed the test of [interrupted]. *)
Definition is_enter (l : label) : bool :=
  match l with
  | Enter _ => true
  | _ => false
  end.

(** The workers inside [__next__], past the test of [interrupted]. *)
Definition holders (ws : list (MultiprocessThread * position)) : nat :=
  sum_list_with (fun w => if holds_lock w.2 then 1 else 0)%nat ws.

(** The kinds [runtest] returns. *)
Definition executor_kinds : list Z :=
  [PASSED; FAILED; ENV_CHANGED; SKIPPED; RESOURCE_DENIED].

(** The shape of a result record: one of the five kinds of [runtest] with
    a [float], [INTERRUPTED] with the empty string, or [CHILD_ERROR] with
    a string. *)
Definition outcome_shape (result : pyval) : bool :=
  match result with
  | PyTuple [PyInt k; PyFloat _] => bool_decide (k ∈ executor_kinds)
  | PyTuple [PyInt k; PyStr s] =>
      ((k =? INTERRUPTED) && String.eqb s "") || (k =? CHILD_ERROR)
  | _ => false
  end.

(** The second component of a record is a number. *)
Definition numeric_second (result : pyval) : bool :=
  match result with
  | PyTuple [_; PyFloat _] | PyTuple [_; PyInt _]
  | PyList [_; PyFloat _] | PyList [_; PyInt _] => true
  | _ => false
  end.

(** What [runtest_inner] returns or raises, by what the test did. *)
Definition inner_outcome (env : child_env) (huntrleaks : bool) : exn + pyval :=
  match unit_raises env with
  | Some KeyboardInterrupt => inl KeyboardInterrupt
  | Some (ResourceDenied _) =>
      inr (PyTuple [PyInt RESOURCE_DENIED; PyFloat 0%float])
  | Some (SkipTest _) => inr (PyTuple [PyInt SKIPPED; PyFloat 0%float])
  | Some _ => inr (PyTuple [PyInt FAILED; PyFloat 0%float])
  | None =>
      inr (PyTuple [PyInt (if huntrleaks && unit_refleak env then FAILED
                           else if unit_env_changed env then ENV_CHANGED
                           else PASSED);
                    PyFloat (unit_time env)])
  end.

(** What [runtest] returns or raises. *)
Definition runtest_outcome (env : child_env) (ns : Namespace) : exn + pyval :=
  match cleanup_raises env with
  | Some e => inl e
  | None => inner_outcome env (huntrleaks ns)
  end.

(** The record the child reports for an outcome of [runtest]. *)
Definition reported (o : exn + pyval) : pyval :=
  match o with
  | inr result => result
  | inl KeyboardInterrupt => PyTuple [PyInt INTERRUPTED; PyStr ""]
  | inl e => PyTuple [PyInt CHILD_ERROR; PyStr (exn_str e)]
  end.

(** The tests handed out along a trace, with the worker that got each. *)
Definition claims (tr : list label) : list (nat * string) :=
  tr ≫= fun l => match l with
                 | Claim i test => [(i, test)]
                 | _ => []
                 end.

(** The steps of a trace other than timeouts. *)
Definition moves (tr : list label) : nat :=
  sum_list_with (fun l => match l with Timeout => 0 | _ => 1 end)%nat tr.

(** How many steps a worker at this position has left, at most, each put
    counted twice (once for the main thread's get). *)
Definition position_weight (w : MultiprocessThread * position) : nat :=
  match w.2 with
  | Idle => 4
  | Locked => 3
  | Awaiting _ => 7
  | Putting _ false => 6
  | Putting _ true => 2
  | Raising _ => 2
  | Finished | Crashed _ => 0
  end.

Definition phase_weight (p : phase) : nat :=
  match p with
  | Draining | Handling => 3
  | Leaving => 2
  | Joining => 1
  | Returned | Raised _ => 0
  end.

(** A bound on the steps, other than timeouts, that the system has
    left. *)
Definition weight (s : system) : nat :=
  (5 * length (tests (pending (objects s)))
   + sum_list_with position_weight (workers s)
   + length (output (objects s))
   + phase_weight (at_phase s))%nat.

(** A result of one of the kinds [runtest] returns, with its duration,
    built as a tuple or decoded as a list. *)
Definition plain_result (v : pyval) : bool :=
  match v with
  | PyList [PyInt k; PyFloat _] | PyTuple [PyInt k; PyFloat _] =>
      bool_decide (k ∈ executor_kinds)
  | _ => false
  end.

(** A child that is not interrupted and does not fail as a process: it
    exits with code 0 and the last line of its output decodes to a plain
    result. *)
Definition benign (test : string) (r : subprocess_result) : Prop :=
  exists stdout stderr v,
    r = inr (0, stdout, stderr) /\ blank stdout = false
    /\ json_loads (rpartition (strip stdout)).2 = Some v
    /\ plain_result v = true.

Definition item_tests (it : item) : list string :=
  match it with
  | Result test _ _ _ => [test]
  | NoResult => []
  end.

(** The test a worker holds: claimed, and not yet on the output queue. *)
Definition in_flight (w : MultiprocessThread * position) : list string :=
  match w.2 with
  | Awaiting test => [test]
  | Putting it _ => item_tests it
  | _ => []
  end.

Definition signal (it : item) : nat :=
  match it with
  | NoResult => 1
  | Result _ _ _ _ => 0
  end.

Definition unfinished (w : MultiprocessThread * position) : nat :=
  match w.2 with
  | Finished => 0
  | _ => 1
  end.

(** The worker has found the queue exhausted. *)
Definition stopping (w : MultiprocessThread * position) : bool :=
  match w.2 with
  | Putting NoResult _ | Finished => true
  | _ => false
  end.

Definition good_item (it : item) : bool :=
  match it with
  | NoResult => true
  | Result _ _ _ v => plain_result v
  end.

Definition good_position (w : MultiprocessThread * position) : bool :=
  match w.2 with
  | Idle | Locked | Awaiting _ | Finished => true
  | Putting NoResult stop => stop
  | Putting (Result _ _ _ v) stop => negb stop && plain_result v
  | Raising _ | Crashed _ => false
  end.

(** What holds of every system reached from the start when all children
    are benign: [n] is the pool size, [acc0] what was accumulated before
    the run and [tests0] the tests of the run. *)
Record inv (n : Z) (acc0 : list (string * pyval)) (tests0 : list string)
  (s : system) : Prop := {
  inv_pool : 1 <= n /\ use_mp (ns (regrtest (main s))) = n
             /\ length (workers s) = Z.to_nat n;
  inv_clear : interrupted (pending (objects s)) = false;
  inv_workers : Forall (fun w => good_position w = true) (workers s);
  inv_items : Forall (fun it => good_item it = true) (output (objects s));
  inv_tests :
    exists new,
      accumulated (regrtest (main s)) = acc0 ++ new
      /\ tests0 ≡ₚ new.*1 ++ (output (objects s) ≫= item_tests)
                  ++ (workers s ≫= in_flight)
                  ++ tests (pending (objects s));
  inv_slots :
    0 <= finished (main s)
    /\ (Z.to_nat (finished (main s))
        + sum_list_with signal (output (objects s))
        + sum_list_with unfinished (workers s) = Z.to_nat n)%nat;
  inv_queue :
    tests (pending (objects s)) <> [] ->
    Forall (fun w => stopping w = false) (workers s);
  inv_last :
    sum_list_with unfinished (workers s) = 0%nat ->
    output (objects s) = [] \/ exists l, output (objects s) = l ++ [NoResult];
  inv_phase :
    match at_phase s with
    | Draining => True
    | Leaving | Joining | Returned => finished (main s) = n
    | Handling | Raised _ => False
    end
}.

End vocabulary.

(** ** More vocabulary: runs with any children, progress lines, names *)

(** The test whose child a worker at this position waits for. *)
Definition awaited (p : position) : option string :=
  match p with
  | Awaiting test => Some test
  | _ => None
  end.

(** A worker's [current_test] is set exactly while its child runs, and a
    worker with a current test has a start time. *)
Definition tracks (w : MultiprocessThread * position) : Prop :=
  current_test w.1 = awaited w.2
  /\ (is_Some (current_test w.1) -> is_Some (start_time w.1)).

(** The record [_runtest] builds for a child that exited with a code
    other than zero. *)
Definition fatal (it : item) : bool :=
  match it with
  | Result _ _ _ (PyTuple [PyInt k; PyStr _]) => k =? CHILD_ERROR
  | _ => false
  end.

(** The positions [_runtest] can be in before a put: the no-result signal
    ends the loop, and so does the record of a failed child, and only
    it. *)
Definition settled (p : position) : bool :=
  match p with
  | Putting NoResult stop => stop
  | Putting it true => fatal it
  | _ => true
  end.

(** The worker has yet to put its last item. *)
Definition owing (w : MultiprocessThread * position) : nat :=
  if terminated w.2 then 0 else 1.

(** [run_tests_multiprocess] has returned or raised. *)
Definition ended (p : phase) : bool :=
  match p with
  | Returned | Raised _ => true
  | _ => false
  end.

(** What holds of every system reached from the start, whatever the
    children do: [n] is the pool size. *)
Record sound (n : Z) (s : system) : Prop := {
  sound_pool : use_mp (ns (regrtest (main s))) = n
               /\ length (workers s) = Z.to_nat n;
  sound_tracks : Forall tracks (workers s);
  sound_settled : Forall (fun w => settled w.2 = true) (workers s);
  sound_slots :
    0 <= finished (main s)
    /\ (at_phase s = Draining ->
        Exists (fun it => fatal it = true) (output (objects s))
        \/ (Z.to_nat (finished (main s))
            + sum_list_with signal (output (objects s))
            + sum_list_with owing (workers s) = Z.to_nat n)%nat);
  sound_marked :
    interrupted (pending (objects s)) = true ->
    regrtest_interrupted (regrtest (main s)) = true
    /\ match at_phase s with
       | Leaving | Joining | Returned => True
       | Draining | Handling | Raised _ => False
       end;
  sound_joined :
    at_phase s = Returned ->
    Forall (fun w => terminated w.2 = true) (workers s);
  sound_lock : (holders (workers s) <= 1)%nat
}.

(** Progress line [i] of a run carries the index [i + 1] and starts with
    the test of result [i]; under [pgo] it is that test's name. *)
Definition numbered (pgo : bool) (acc : list (string * pyval))
  (disp : list (Z * string)) : Prop :=
  forall (i : nat) index text,
    disp !! i = Some (index, text) ->
    index = Z.of_nat i + 1
    /\ exists test result suffix,
         acc !! i = Some (test, result) /\ text = test +:+ suffix
         /\ (pgo = true -> suffix = "").

(** The exceptions the loop body raises on a result before it displays
    its line: [TypeError] and [ValueError] from the unpacking of the
    result, [TypeError] from the comparison of its duration with
    [PROGRESS_MIN_TIME], [OverflowError] from the formatting of its
    duration. *)
Definition display_error (e : exn) : bool :=
  match e with
  | Other cls _ =>
      String.eqb cls "TypeError" || String.eqb cls "ValueError"
      || String.eqb cls "OverflowError"
  | _ => false
  end.

(** What a run has recorded and displayed since it started with the
    options [ns0], the results [acc0] and the progress lines [disp0]. *)
Record logged (ns0 : Namespace) (acc0 : list (string * pyval))
  (disp0 : list (Z * string)) (s : system) : Prop := {
  logged_ns : ns (regrtest (main s)) = ns0;
  logged_lines :
    exists acc disp,
      accumulated (regrtest (main s)) = acc0 ++ acc
      /\ displayed (regrtest (main s)) = disp0 ++ disp
      /\ numbered (pgo ns0) acc disp
      /\ (length disp <= length acc <= S (length disp))%nat
      /\ (length acc = length disp
          \/ exists e, at_phase s = Raised e /\ display_error e = true)
      /\ (at_phase s = Draining ->
          test_index (main s) = Z.of_nat (length disp) + 1);
  logged_console :
    pgo ns0 = true -> Forall (fun e => e.1 = Stdout) (console (main s))
}.

(** The item is what [_runtest] made of the exit of a child started for
    its test. *)
Definition made_by `{Builtins} (spawn : string -> subprocess_result -> Prop)
  (it : item) : Prop :=
  match it with
  | NoResult => True
  | Result test _ _ _ =>
      exists retcode stdout stderr stop,
        spawn test (inr (retcode, stdout, stderr))
        /\ handle_exit test retcode stdout stderr = inr (it, stop)
  end.

(** Every result of the run, recorded, queued or about to be put, comes
    from a child started for its test. *)
Record sourced `{Builtins} (spawn : string -> subprocess_result -> Prop)
  (acc0 : list (string * pyval)) (s : system) : Prop := {
  sourced_recorded :
    exists new,
      accumulated (regrtest (main s)) = acc0 ++ new
      /\ Forall (fun tv => exists so se, made_by spawn (Result tv.1 so se tv.2))
           new;
  sourced_queued : Forall (made_by spawn) (output (objects s));
  sourced_held :
    Forall (fun w => if w.2 is Putting it _ then made_by spawn it else True)
      (workers s)
}.

(** The record [v] is the last line, decoded, of the output of a child
    started for [test] that exited with code 0. *)
Definition reported_by `{Builtins}
  (spawn : string -> subprocess_result -> Prop) (test : string) (v : pyval)
  : Prop :=
  exists stdout stderr,
    spawn test (inr (0, stdout, stderr))
    /\ json_loads (rpartition (strip stdout)).2 = Some v.

(** The test was skipped: it raised [SkipTest] or [ResourceDenied]. *)
Definition skipped (env : child_env) : bool :=
  match unit_raises env with
  | Some (SkipTest _) | Some (ResourceDenied _) => true
  | _ => false
  end.

(** An outcome of kind [FAILED]. *)
Definition failed (o : exn + pyval) : bool :=
  match o with
  | inr (PyTuple [PyInt k; _]) => k =? FAILED
  | _ => false
  end.

(** What [runtest_inner] itself writes about a failed test when
    [display_failure] is off: one line for a test that raised, none
    under [pgo], none for a test that only leaked references. *)
Definition failure_line (env : child_env) (test : string) (pgo : bool)
  : string :=
  if pgo then ""
  else match unit_raises env with
       | Some (TestFailed _) => "test " +:+ test +:+ " failed" +:+ nl
       | Some (ResourceDenied _) | Some (SkipTest _)
       | Some KeyboardInterrupt | None => ""
       | Some e =>
           "test " +:+ test +:+ " crashed -- " +:+ traceback env e +:+ nl
       end.

(** The tests whose children run, in the order of the workers. *)
Definition held (ws : list (MultiprocessThread * position)) : list string :=
  ws ≫= fun w => match awaited w.2 with
                 | Some test => if truthy test then [test] else []
                 | None => []
                 end.

(** A string of [n] dots. *)
Fixpoint dots (n : nat) : string :=
  match n with
  | O => ""
  | S n => String "." (dots n)
  end.

(** No character of [s] is [sep]. *)
Definition free_of (sep : ascii) (s : string) : bool :=
  forallb (fun c => negb (Ascii.eqb c sep)) (list_ascii_of_string s).

(** ** Examples *)

(** An instance for the examples: a codec that knows the records the
    examples use. *)
Definition dquote : string := String "034"%char "".

Definition interrupted_line : string := "[-4, " +:+ dquote +:+ dquote +:+ "]".

Definition boom_line : string := "[-5, " +:+ dquote +:+ "boom" +:+ dquote +:+ "]".

Definition example_loads (s : string) : option pyval :=
  if String.eqb s "[0, 1.23]" then Some (PyList [PyInt 0; PyFloat 1.23%float])
  else if String.eqb s "[1, 0.5]" then Some (PyList [PyInt 1; PyFloat 0.5%float])
  else if String.eqb s interrupted_line then Some (PyList [PyInt (-4); PyStr ""])
  else if String.eqb s boom_line then Some (PyList [PyInt (-5); PyStr "boom"])
  else None.

Definition example_dumps (v : pyval) : string :=
  match v with
  | PyTuple [PyInt k; PyStr s] | PyList [PyInt k; PyStr s] =>
      "[" +:+ str_int k +:+ ", " +:+ dquote +:+ s +:+ dquote +:+ "]"
  | PyTuple [PyInt k; PyFloat f] | PyList [PyInt k; PyFloat f] =>
      "[" +:+ str_int k +:+ ", "
      +:+ (if PrimFloat.eqb f 0.5%float then "0.5" else "0.0") +:+ "]"
  | _ => "null"
  end.

Definition example_builtins : Builtins :=
  {| json_loads := example_loads;
     json_dumps := example_dumps;
     format_0f := fun _ => "31";
     repr := fun _ => "?" |}.

(** Children for the examples: [test_a] exits with code 0 and no output,
    [test_crash] with code 1 after writing "boom", [test_int] reports an
    interrupt, any other test passes in half a second. *)
Definition example_child (test : string) : subprocess_result :=
  if String.eqb test "test_a" then inr (0, "", "")
  else if String.eqb test "test_crash" then inr (1, "boom", "")
  else if String.eqb test "test_int" then inr (0, interrupted_line, "")
  else inr (0, "[1, 0.5]", "").

(** Systems for the examples: [n] workers, no option set. *)
Definition example_regrtest (n : Z) : Regrtest :=
  {| ns := {| verbose := false; quiet := false; huntrleaks := false;
              verbose3 := false; pgo := false; use_mp := n |};
     accumulated := []; displayed := []; regrtest_interrupted := false |}.

Definition example_spawn (test : string) (r : subprocess_result) : Prop :=
  r = example_child test.

(** One worker, whose test started at time 0 and is still running. *)
Definition probing : system :=
  {| objects := {| pending := __init__ []; output := [] |};
     workers := [({| current_test := Some "test_slow";
                     start_time := Some 0%float |}, Awaiting "test_slow")];
     main := {| regrtest := example_regrtest 1; finished := 0;
                test_index := 1; console := [] |};
     at_phase := Draining |}.

Definition probed : system :=
  {| objects := objects probing;
     workers := workers probing;
     main := {| regrtest := example_regrtest 1; finished := 0;
                test_index := 1;
                console := [(Stdout, "running: test_slow (31 sec)" +:+ nl)] |};
     at_phase := Draining |}.

(** Two workers; the child of the first test exits with code 1 while the
    second test is still running. *)
Definition crash_schedule : list action :=
  [Work 0%float 0 (inl KeyboardInterrupt);
   Work 0%float 0 (inl KeyboardInterrupt);
   Work 0%float 1 (inl KeyboardInterrupt);
   Work 0%float 1 (inl KeyboardInterrupt);
   Work 0%float 0 (example_child "test_crash");
   Work 0%float 0 (inl KeyboardInterrupt)].

Definition crash_tests : list string := ["test_crash"; "test_b"].

Definition crash_record : pyval := PyTuple [PyInt CHILD_ERROR; PyStr "Exit code 1"].

Definition crash_ready : system :=
  {| objects := {| pending := {| interrupted := false; tests := [] |};
                   output := [Result "test_crash" "" "" crash_record] |};
     workers := [({| current_test := None; start_time := Some 0%float |}, Finished);
                 ({| current_test := Some "test_b"; start_time := Some 0%float |},
                  Awaiting "test_b")];
     main := {| regrtest := example_regrtest 2; finished := 0;
                test_index := 1; console := [] |};
     at_phase := Draining |}.

(** What the threads do once the queue is marked in front of one idle
    worker: the worker is refused and signals that, the main thread goes
    on to the joins. *)
Definition marked_schedule : list action :=
  [Work 0%float 0 (inl KeyboardInterrupt);
   Work 0%float 0 (inl KeyboardInterrupt);
   Main 0%float; Main 0%float].

Definition marked_trace : list label :=
  [Exhausted 0; Put 0 NoResult; Waiting; Join].

Definition interrupted_record : pyval := PyList [PyInt INTERRUPTED; PyStr ""].

Definition interrupt_tests : list string := ["test_int"; "test_b"].

(** One worker has published the interrupted result and is back at the
    top of its loop; the main thread has not read the result yet. *)
Definition interrupt_published : system :=
  {| objects := {| pending := {| interrupted := false; tests := ["test_b"] |};
                   output := [Result "test_int" "" "" interrupted_record] |};
     workers := [({| current_test := None; start_time := Some 0%float |}, Idle)];
     main := {| regrtest := example_regrtest 1; finished := 0;
                test_index := 1; console := [] |};
     at_phase := Draining |}.

Definition publish_schedule : list action :=
  [Work 0%float 0 (inl KeyboardInterrupt);
   Work 0%float 0 (inl KeyboardInterrupt);
   Work 0%float 0 (example_child "test_int");
   Work 0%float 0 (inl KeyboardInterrupt)].

Definition publish_trace : list label :=
  [Enter 0; Claim 0 "test_int";
   ChildExit 0 "test_int" (example_child "test_int");
   Put 0 (Result "test_int" "" "" interrupted_record)].

(** The main thread has read the interrupted result and caught the
    [KeyboardInterrupt] it raised on it. *)
Definition interrupt_caught : system :=
  {| objects := {| pending := {| interrupted := false; tests := ["test_b"] |};
                   output := [] |};
     workers := [({| current_test := None; start_time := Some 0%float |}, Idle)];
     main := {| regrtest :=
                  {| ns := ns (example_regrtest 1);
                     accumulated := [("test_int", interrupted_record)];
                     displayed := [(1, "test_int")];
                     regrtest_interrupted := false |};
                finished := 0; test_index := 1; console := [] |};
     at_phase := Handling |}.

(** Its handler has set both flags. *)
Definition interrupt_received : system :=
  {| objects := {| pending := {| interrupted := true; tests := ["test_b"] |};
                   output := [] |};
     workers := [({| current_test := None; start_time := Some 0%float |}, Idle)];
     main := {| regrtest :=
                  {| ns := ns (example_regrtest 1);
                     accumulated := [("test_int", interrupted_record)];
                     displayed := [(1, "test_int")];
                     regrtest_interrupted := true |};
                finished := 0; test_index := 1;
                console := [(Stdout, nl)] |};
     at_phase := Leaving |}.

(** A child whose test passes and whose clean-up raises. *)
Definition example_env (test_raises cleanup : option exn) : child_env :=
  {| setup_raises := None;
     unit_writes := [(Stdout, "ok" +:+ nl)];
     unit_raises := test_raises;
     unit_time := 0.5%float;
     unit_refleak := false;
     unit_env_changed := false;
     cleanup_writes := [];
     cleanup_raises := cleanup;
     traceback := fun _ => "Traceback" +:+ nl |}.

(** Children that all pass in half a second. *)
Definition passed : subprocess_result := inr (0, "[1, 0.5]", "").

Definition passing_spawn (test : string) (r : subprocess_result) : Prop :=
  r = passed.

(** Two workers and two tests; the second test is done first. *)
Definition two_tests : list string := ["test_a"; "test_b"].

Definition full_schedule : list action :=
  [Work 0%float 0 passed; Work 0%float 0 passed;
   Work 0%float 1 passed; Work 0%float 1 passed;
   Work 0%float 1 passed; Work 0%float 1 passed; Main 1%float;
   Work 0%float 0 passed; Work 0%float 0 passed; Main 1%float;
   Work 0%float 0 passed; Work 0%float 0 passed; Work 0%float 0 passed;
   Work 0%float 1 passed; Work 0%float 1 passed; Work 0%float 1 passed;
   Main 1%float; Main 1%float; Main 1%float; Main 1%float; Main 1%float].

Definition pass_record : pyval := PyList [PyInt PASSED; PyFloat 0.5%float].

Definition full_trace : list label :=
  [Enter 0; Claim 0 "test_a"; Enter 1; Claim 1 "test_b";
   ChildExit 1 "test_b" passed; Put 1 (Result "test_b" "" "" pass_record);
   Recv (Result "test_b" "" "" pass_record);
   ChildExit 0 "test_a" passed; Put 0 (Result "test_a" "" "" pass_record);
   Recv (Result "test_a" "" "" pass_record);
   Enter 0; Exhausted 0; Put 0 NoResult; Enter 1; Exhausted 1; Put 1 NoResult;
   Recv NoResult; Recv NoResult; LoopExit; Waiting; Join].

Definition returned : system :=
  {| objects := {| pending := {| interrupted := false; tests := [] |};
                   output := [] |};
     workers :=
       [({| current_test := None; start_time := Some 0%float |}, Finished);
        ({| current_test := None; start_time := Some 0%float |}, Finished)];
     main := {| regrtest :=
                  {| ns := ns (example_regrtest 2);
                     accumulated := [("test_b", pass_record);
                                     ("test_a", pass_record)];
                     displayed := [(1, "test_b"); (2, "test_a")];
                     regrtest_interrupted := false |};
                finished := 2; test_index := 3; console := [] |};
     at_phase := Returned |}.

(** The options of the examples with [pgo] set. *)
Definition pgo_regrtest : Regrtest :=
  {| ns := {| verbose := false; quiet := false; huntrleaks := false;
              verbose3 := false; pgo := true; use_mp := 1 |};
     accumulated := []; displayed := []; regrtest_interrupted := false |}.

(** One worker runs a test that writes to both streams; the main thread
    reads its result. *)
Definition noisy : subprocess_result :=
  inr (0, "out" +:+ nl +:+ "[1, 0.5]", "err").

Definition noisy_spawn (test : string) (r : subprocess_result) : Prop :=
  r = noisy.

Definition noisy_schedule : list action :=
  [Work 0%float 0 noisy; Work 0%float 0 noisy; Work 0%float 0 noisy;
   Work 0%float 0 noisy; Main 1%float].

Definition noisy_trace : list label :=
  [Enter 0; Claim 0 "test_a"; ChildExit 0 "test_a" noisy;
   Put 0 (Result "test_a" "out" "err" pass_record);
   Recv (Result "test_a" "out" "err" pass_record)].

Definition noisy_read : system :=
  {| objects := {| pending := {| interrupted := false; tests := [] |};
                   output := [] |};
     workers := [({| current_test := None; start_time := Some 0%float |}, Idle)];
     main := {| regrtest :=
                  {| ns := ns pgo_regrtest;
                     accumulated := [("test_a", pass_record)];
                     displayed := [(1, "test_a")];
                     regrtest_interrupted := false |};
                finished := 0; test_index := 2;
                console := [(Stdout, "out" +:+ nl)] |};
     at_phase := Draining |}.

(** Two workers; the first publishes an interrupted result while the
    child of the second runs, and the main thread reads it and marks the
    queue. *)
Definition leaving_schedule : list action :=
  [Work 0%float 0 (inl KeyboardInterrupt);
   Work 0%float 0 (inl KeyboardInterrupt);
   Work 0%float 1 (inl KeyboardInterrupt);
   Work 0%float 1 (inl KeyboardInterrupt);
   Work 0%float 0 (example_child "test_int");
   Work 0%float 0 (inl KeyboardInterrupt);
   Main 0%float; Main 0%float].

Definition leaving_trace : list label :=
  [Enter 0; Claim 0 "test_int"; Enter 1; Claim 1 "test_b";
   ChildExit 0 "test_int" (example_child "test_int");
   Put 0 (Result "test_int" "" "" interrupted_record);
   Recv (Result "test_int" "" "" interrupted_record); Mark].

Definition leaving : system :=
  {| objects := {| pending := {| interrupted := true; tests := [] |};
                   output := [] |};
     workers := [({| current_test := None; start_time := Some 0%float |}, Idle);
                 ({| current_test := Some "test_b"; start_time := Some 0%float |},
                  Awaiting "test_b")];
     main := {| regrtest :=
                  {| ns := ns (example_regrtest 2);
                     accumulated := [("test_int", interrupted_record)];
                     displayed := [(1, "test_int")];
                     regrtest_interrupted := true |};
                finished := 0; test_index := 1;
                console := [(Stdout, nl)] |};
     at_phase := Leaving |}.

Definition joining : system :=
  {| objects := objects leaving;
     workers := workers leaving;
     main := {| regrtest := regrtest (main leaving);
                finished := 0; test_index := 1;
                console := [(Stdout, nl);
                            (Stdout, "Waiting for test_b" +:+ nl)] |};
     at_phase := Joining |}.

(** Two workers and three tests; the second worker is inside [__next__],
    past the test of the flag, when the main thread reads the interrupted
    result of the first and marks the queue. *)
Definition three_tests : list string := ["test_int"; "test_b"; "test_c"].

Definition overtaken_schedule : list action :=
  [Work 0%float 0 (inl KeyboardInterrupt);
   Work 0%float 0 (inl KeyboardInterrupt);
   Work 0%float 0 (example_child "test_int");
   Work 0%float 0 (inl KeyboardInterrupt);
   Work 0%float 1 (inl KeyboardInterrupt);
   Main 0%float; Main 0%float].

Definition overtaken_trace : list label :=
  [Enter 0; Claim 0 "test_int";
   ChildExit 0 "test_int" (example_child "test_int");
   Put 0 (Result "test_int" "" "" interrupted_record);
   Enter 1;
   Recv (Result "test_int" "" "" interrupted_record); Mark].

Definition overtaken : system :=
  {| objects := {| pending := {| interrupted := true;
                                 tests := ["test_b"; "test_c"] |};
                   output := [] |};
     workers := [({| current_test := None; start_time := Some 0%float |}, Idle);
                 ({| current_test := None; start_time := None |}, Locked)];
     main := {| regrtest :=
                  {| ns := ns (example_regrtest 2);
                     accumulated := [("test_int", interrupted_record)];
                     displayed := [(1, "test_int")];
                     regrtest_interrupted := true |};
                finished := 0; test_index := 1;
                console := [(Stdout, nl)] |};
     at_phase := Leaving |}.

(** One worker and two tests; the child of the first exits with code 0
    and no output. *)
Definition silent_schedule : list action :=
  [Work 0%float 0 (inl KeyboardInterrupt);
   Work 0%float 0 (inl KeyboardInterrupt);
   Work 0%float 0 (example_child "test_a");
   Work 0%float 0 (inl KeyboardInterrupt);
   Main 0%float; Main 0%float; Main 0%float; Main 0%float].

Definition silent_trace : list label :=
  [Enter 0; Claim 0 "test_a";
   ChildExit 0 "test_a" (example_child "test_a"); Put 0 NoResult;
   Recv NoResult; LoopExit; Waiting; Join].

Definition silent_returned : system :=
  {| objects := {| pending := {| interrupted := false; tests := ["test_b"] |};
                   output := [] |};
     workers := [({| current_test := None; start_time := Some 0%float |},
                  Finished)];
     main := {| regrtest := example_regrtest 1; finished := 1;
                test_index := 1; console := [] |};
     at_phase := Returned |}.

(** A child whose [setup_tests] calls [sys.exit(256)]. *)
Definition exiting_setup : child_env :=
  {| setup_raises := Some (SystemExit 256);
     unit_writes := []; unit_raises := None; unit_time := 0%float;
     unit_refleak := false; unit_env_changed := false;
     cleanup_writes := []; cleanup_raises := None;
     traceback := fun _ => "Traceback" +:+ nl |}.

(** The options of the examples with [verbose3], and with [quiet]. *)
Definition capturing : Namespace :=
  {| verbose := false; quiet := false; huntrleaks := false;
     verbose3 := true; pgo := false; use_mp := 1 |}.

Definition quietly : Namespace :=
  {| verbose := false; quiet := true; huntrleaks := false;
     verbose3 := false; pgo := false; use_mp := 1 |}.

(** A directory for the examples, listed in two orders, and a split of a
    name at its last dot. *)
Definition example_splitext (name : string) : string * string :=
  match rsplit_at "." name with
  | Some (String c h, t) => (String c h, "." +:+ t)
  | _ => (name, "")
  end.

Definition example_listdir (dir : string) : exn + list string :=
  inr ["test_zip.py"; "README"; "test_os.py"; "test_grammar.py"; "test_email"].

Definition shuffled_listdir (dir : string) : exn + list string :=
  inr ["README"; "test_zip.py"; "test_os.py"; "test_grammar.py"; "test_email"].

Section importlib_examples.
Import importlib.

(** An interpreter for the examples: [os] is imported, with a spec and a
    loader; [email.mime] is imported without its parent; the name
    [blocked] is bound to [None]; any other object is a string. *)
Definition os_spec : ModuleSpec :=
  {| name := "os"; loader := Some 7%nat; submodule_search_locations := None |}.

Definition json_spec : ModuleSpec :=
  {| name := "json"; loader := Some 8%nat;
     submodule_search_locations := Some ["/lib/json"] |}.

Definition example_heap (l : ref) : module :=
  match l with
  | O => {| is_module := true; truth := true; __name__ := Some "os";
            __spec__ := Is os_spec; __loader__ := Is 7%nat |}
  | 1%nat => {| is_module := true; truth := true;
                __name__ := Some "email.mime";
                __spec__ := Unset; __loader__ := Unset |}
  | _ => {| is_module := false; truth := true; __name__ := None;
            __spec__ := Unset; __loader__ := Unset |}
  end.

Definition example_interpreter : interpreter :=
  {| heap := example_heap;
     sys_modules := <["os" := Some 0%nat]>
                      (<["email.mime" := Some 1%nat]>
                         (<["blocked" := None]> ∅));
     _RELOADING := ∅ |}.

(** A search that finds [json] and nothing else, and an execution that
    does nothing. *)
Definition example_find_spec (name : string) (path : option (list string))
  (target : option ref) : V (option ModuleSpec) :=
  ret (if String.eqb name "json" then Some json_spec else None).

Definition example_exec (spec : option ModuleSpec) (module : ref) : V unit :=
  ret tt.

End importlib_examples.

Section droppings_examples.
Import droppings.

(** A working directory for the examples: the temporary file of a test,
    a [db_home] that cannot be removed, and a file of the project. *)
Definition example_disk : gmap string kind :=
  <["@test_1_tmp" := File]>
    (<["db_home" := Directory]> (<["Makefile" := File]> ∅)).

Definition example_nuke (name : string) (k : kind) : option string :=
  if String.eqb name "db_home" then Some "Permission denied" else None.

Definition cleaned_disk : gmap string kind :=
  <["db_home" := Directory]> (<["Makefile" := File]> ∅).

End droppings_examples.

(** ** Strings *)

Section strings.
Local Open Scope string_scope.
#[local] Arguments String.append !_ _ / : simpl nomatch.

Lemma append_nil_r (s : string) : s ++ "" = s.
Proof. induction s as [|c s IH]; simpl; [done | by rewrite IH]. Qed.

Lemma append_assoc (a b c : string) : (a ++ b) ++ c = a ++ b ++ c.
Proof. induction a as [|x a IH]; simpl; [done | by rewrite IH]. Qed.

Lemma append_eq_nil (a b : string) : a ++ b = "" -> a = "" /\ b = "".
Proof. destruct a; simpl; [done | discriminate]. Qed.

Lemma rstrip_blank (s : string) : blank s = true -> rstrip s = "".
Proof.
  unfold blank. induction s as [|c s IH]; simpl; [done |].
  intros [Hc Hs]%andb_prop. by rewrite (IH Hs), Hc.
Qed.

Lemma rstrip_nil_blank (s : string) : rstrip s = "" -> blank s = true.
Proof.
  unfold blank. induction s as [|c s IH]; simpl; [done |].
  destruct (rstrip s) eqn:Hr; [| discriminate].
  destruct (isspace c); [| discriminate]. intros _. by rewrite IH.
Qed.

Lemma lstrip_blank (s : string) : blank s = true -> lstrip s = "".
Proof.
  unfold blank. induction s as [|c s IH]; simpl; [done |].
  intros [Hc Hs]%andb_prop. rewrite Hc. by apply IH.
Qed.

Lemma blank_append (a b : string) : blank (a ++ b) = blank a && blank b.
Proof.
  unfold blank. induction a as [|c a IH]; simpl; [done |].
  by rewrite IH, andb_assoc.
Qed.

Lemma blank_lstrip (s : string) : blank s = true -> blank (lstrip s) = true.
Proof. intros Hs. by rewrite (lstrip_blank s Hs). Qed.

(** A string that is all white space strips to nothing, and conversely. *)
Lemma strip_nil_iff (s : string) : strip s = "" <-> blank s = true.
Proof.
  unfold strip. split.
  - intros Hs%rstrip_nil_blank. revert Hs. unfold blank.
    induction s as [|c s IH]; simpl; [done |].
    destruct (isspace c) eqn:Hc; simpl; [done |]. by rewrite Hc.
  - intros Hs. by rewrite (lstrip_blank s Hs).
Qed.

Lemma rstrip_append_solid (a b : string) :
  rstrip b <> "" -> rstrip (a ++ b) = a ++ rstrip b.
Proof.
  intros Hb. induction a as [|c a IH]; simpl; [done |].
  rewrite IH. destruct (a ++ rstrip b) eqn:E; [| done].
  by apply append_eq_nil in E as [_ ?].
Qed.

Lemma rstrip_append_blank (a b : string) :
  blank b = true -> rstrip (a ++ b) = rstrip a.
Proof.
  intros Hb. induction a as [|c a IH]; simpl; [by apply rstrip_blank |].
  by rewrite IH.
Qed.

Lemma rstrip_ends_solid (s : string) : ends_solid s = true -> rstrip s = s.
Proof.
  induction s as [|c s IH]; simpl; [done |].
  destruct s as [|d s].
  - simpl. by intros ->%negb_true_iff.
  - intros Hs. rewrite (IH Hs). done.
Qed.

Lemma ends_solid_rstrip (s : string) : rstrip s <> "" -> ends_solid (rstrip s) = true.
Proof.
  induction s as [|c s IH]; simpl; [done |].
  destruct (rstrip s) as [|d r] eqn:Hr.
  - destruct (isspace c) eqn:Hc; [done |]. simpl. by rewrite Hc.
  - intros _. simpl. simpl in IH. by apply IH.
Qed.

Lemma lstrip_append (a b : string) :
  lstrip (a ++ b) = if blank a then lstrip b else lstrip a ++ b.
Proof.
  unfold blank. induction a as [|c a IH]; simpl; [done |].
  destruct (isspace c); simpl; done.
Qed.

Lemma lstrip_starts_solid (s : string) : starts_solid s = true -> lstrip s = s.
Proof. destruct s as [|c s]; simpl; [done |]. by intros ->%negb_true_iff. Qed.

Lemma rsplit_nl_one_line (s : string) : one_line s = true -> rsplit_nl s = None.
Proof.
  unfold one_line. induction s as [|c s IH]; simpl; [done |].
  intros [Hc Hs]%andb_prop. rewrite (IH Hs).
  by apply negb_true_iff in Hc as ->.
Qed.

Lemma rsplit_nl_append (a h t b : string) :
  rsplit_nl b = Some (h, t) -> rsplit_nl (a ++ b) = Some (a ++ h, t).
Proof. intros Hb. induction a as [|c a IH]; simpl; [done | by rewrite IH]. Qed.

Lemma rsplit_nl_line (a line : string) :
  one_line line = true -> rsplit_nl (a ++ nl ++ line) = Some (a, line).
Proof.
  intros Hl. rewrite (rsplit_nl_append a "" line).
  - by rewrite append_nil_r.
  - simpl. by rewrite (rsplit_nl_one_line line Hl).
Qed.

(** The tail of a split at a newline is empty only when the string ends
    with that newline. *)
Lemma rsplit_nl_tail_nil (s h : string) :
  rsplit_nl s = Some (h, "") -> ends_solid s = false.
Proof.
  revert h. induction s as [|c s IH]; simpl; [done |]. intros h.
  destruct (rsplit_nl s) as [[h' t']|] eqn:Hs.
  - intros [= <- ->]. destruct s; [done |]. by eapply IH.
  - destruct (Ascii.eqb c newline) eqn:Hc; [| done].
    intros [= <- ->]. by apply Ascii.eqb_eq in Hc as ->.
Qed.

(** What [_runtest] takes for the result line is empty exactly when the
    child wrote nothing but white space. *)
Lemma result_line_nil_iff (stdout : string) :
  (rpartition (strip stdout)).2 = "" <-> blank stdout = true.
Proof.
  split.
  - intros Hr. apply strip_nil_iff. unfold rpartition in Hr.
    destruct (rsplit_nl (strip stdout)) as [[h t]|] eqn:Hs; simpl in Hr; [| done].
    subst t. apply rsplit_nl_tail_nil in Hs.
    destruct (strip stdout) eqn:E; [done |]. rewrite <- E in Hs.
    unfold strip in *. rewrite ends_solid_rstrip in Hs; [done | by rewrite E].
  - intros Hb%strip_nil_iff. by rewrite Hb.
Qed.

Lemma rstrip_nl_append (s : string) :
  rstrip s <> "" -> rstrip (nl ++ s) = nl ++ rstrip s.
Proof. intros Hs. by apply (rstrip_append_solid nl). Qed.

Lemma blank_starts_solid (s : string) : starts_solid s = true -> blank s = false.
Proof.
  destruct s as [|c s]; [done |]. unfold blank. simpl.
  by intros ->%negb_true_iff.
Qed.

(** The stripped output of a child that ends with a result line. *)
Lemma strip_record (head line trail : string) :
  starts_solid line = true -> ends_solid line = true -> blank trail = true ->
  strip (head ++ nl ++ line ++ trail) =
  if blank head then line else lstrip head ++ nl ++ line.
Proof.
  intros Hs He Ht.
  assert (Hline : rstrip (line ++ trail) = line).
  { by rewrite rstrip_append_blank, rstrip_ends_solid. }
  assert (Hne : line <> "") by (by destruct line).
  unfold strip. rewrite lstrip_append. destruct (blank head) eqn:Hh.
  - change (lstrip (nl ++ line ++ trail)) with (lstrip (line ++ trail)).
    rewrite lstrip_append, (blank_starts_solid line Hs).
    by rewrite (lstrip_starts_solid line Hs), Hline.
  - assert (Hnl : rstrip (nl ++ line ++ trail) = nl ++ line).
    { rewrite rstrip_nl_append; by rewrite Hline. }
    rewrite rstrip_append_solid; by rewrite Hnl.
Qed.

(** The lines before the result line come out stripped, the line itself
    untouched. *)
Lemma rpartition_strip_record (head line trail : string) :
  one_line line = true -> starts_solid line = true -> ends_solid line = true ->
  blank trail = true ->
  exists h sep,
    rpartition (strip (head ++ nl ++ line ++ trail)) = (h, sep, line) /\
    rstrip h = strip head.
Proof.
  intros H1 Hs He Ht. rewrite strip_record by done.
  unfold rpartition. destruct (blank head) eqn:Hh.
  - rewrite (rsplit_nl_one_line line H1). exists "", "". split; [done |].
    symmetry. by apply strip_nil_iff.
  - rewrite (rsplit_nl_line _ line H1). by exists (lstrip head), nl.
Qed.

End strings.

(** ** The worker and its child *)

Section worker_facts.
Context `{Builtins}.

Lemma handle_exit_nonzero (test : string) (retcode : Z) (stdout stderr : string) :
  retcode <> 0 ->
  handle_exit test retcode stdout stderr =
  inr (Result test (rstrip (rpartition (strip stdout)).1.1) (rstrip stderr)
         (PyTuple [PyInt CHILD_ERROR; PyStr ("Exit code " +:+ str_int retcode)]),
       true).
Proof.
  intros Hr. unfold handle_exit.
  destruct (rpartition (strip stdout)) as [[h sep] t]. simpl.
  by apply Z.eqb_neq in Hr as ->.
Qed.

Lemma handle_exit_blank (test : string) (stdout stderr : string) :
  blank stdout = true -> handle_exit test 0 stdout stderr = inr (NoResult, true).
Proof.
  intros Hb%result_line_nil_iff. unfold handle_exit.
  destruct (rpartition (strip stdout)) as [[h sep] t]. simpl in *. by subst t.
Qed.

Lemma truthy_solid (s : string) : starts_solid s = true -> truthy s = true.
Proof. by destruct s. Qed.

Lemma handle_exit_record (test head line trail stderr : string) (v : pyval) :
  one_line line = true -> starts_solid line = true -> ends_solid line = true ->
  blank trail = true ->
  json_loads line = Some v ->
  handle_exit test 0 (head +:+ nl +:+ line +:+ trail) stderr =
  inr (Result test (strip head) (rstrip stderr) v, false).
Proof.
  intros H1 Hs He Ht Hv. unfold handle_exit.
  destruct (rpartition_strip_record head line trail H1 Hs He Ht)
    as (h & sep & -> & Hh).
  simpl. by rewrite (truthy_solid line Hs), Hv, Hh.
Qed.

(** The same for an output that is the result line alone. *)
Lemma handle_exit_line (test line trail stderr : string) (v : pyval) :
  one_line line = true -> starts_solid line = true -> ends_solid line = true ->
  blank trail = true ->
  json_loads line = Some v ->
  handle_exit test 0 (line +:+ trail) stderr =
  inr (Result test "" (rstrip stderr) v, false).
Proof.
  intros H1 Hs He Ht Hv. unfold handle_exit, strip.
  rewrite lstrip_append, (blank_starts_solid line Hs).
  rewrite (lstrip_starts_solid line Hs), rstrip_append_blank by done.
  rewrite (rstrip_ends_solid line He). unfold rpartition.
  rewrite (rsplit_nl_one_line line H1). simpl.
  by rewrite (truthy_solid line Hs), Hv.
Qed.

Lemma strip_solid (s : string) :
  starts_solid s = true -> ends_solid s = true -> strip s = s.
Proof.
  intros Hs He. unfold strip.
  by rewrite (lstrip_starts_solid s Hs), (rstrip_ends_solid s He).
Qed.

End worker_facts.

(** C2, as amended.  A child that exits with a code [N] other than zero:
    the worker publishes the record [(CHILD_ERROR, "Exit code N")], whose
    kind is not [FAILED], and returns [True]; with it go the child's
    standard error without trailing white space and, of its standard
    output, the stripped text before its last newline, without trailing
    white space: for an output that ends with a line of its own, the
    lines before that line, stripped. *)
Theorem nonzero_exit_publishes_child_error `{Builtins}
  (test : string) (retcode : Z) (stdout stderr : string) :
  retcode <> 0 ->
  handle_exit test retcode stdout stderr =
    inr (Result test (rstrip (rpartition (strip stdout)).1.1) (rstrip stderr)
           (PyTuple [PyInt CHILD_ERROR;
                     PyStr ("Exit code " +:+ str_int retcode)]),
         true)
  /\ eq_int (PyInt CHILD_ERROR) FAILED = false
  /\ forall head line trail,
       stdout = head +:+ nl +:+ line +:+ trail ->
       one_line line = true -> starts_solid line = true ->
       ends_solid line = true -> blank trail = true ->
       rstrip (rpartition (strip stdout)).1.1 = strip head.
Proof.
  intros Hr. split; [by apply handle_exit_nonzero | split; [done |]].
  intros head line trail -> H1 Hs He Ht.
  by destruct (rpartition_strip_record head line trail H1 Hs He Ht)
    as (h & sep & -> & Hh).
Qed.

Lemma nonzero_exit_publishes_child_error_witness :
  (139 <> 0) /\
  handle_exit (H := example_builtins) "test_os" 139
    ("started" +:+ nl +:+ "Fatal Python error") "Segmentation fault" =
  inr (Result "test_os" "started" "Segmentation fault"
         (PyTuple [PyInt (-5); PyStr "Exit code 139"]), true).
Proof.
  split; [done |].
  by destruct (nonzero_exit_publishes_child_error (H := example_builtins)
                 "test_os" 139 ("started" +:+ nl +:+ "Fatal Python error")
                 "Segmentation fault" ltac:(done)) as [-> _].
Defined.

(** C2 as stated fails: a child that exits with code 1 after writing
    "boom" has none of its standard output published, and the diagnostic
    starts with a capital. *)
Lemma nonzero_exit_loses_last_line :
  exists published diagnostic,
    handle_exit (H := example_builtins) "test_os" 1 "boom" "" =
      inr (Result "test_os" published ""
             (PyTuple [PyInt CHILD_ERROR; PyStr diagnostic]), true)
    /\ published <> "boom" /\ diagnostic <> "exit code 1".
Proof. exists "", "Exit code 1". by split. Qed.

(** The loop body on the no-result signal: one more finished slot,
    nothing else. *)
Lemma on_item_no_result `{Builtins} (now : float)
  (ws : list MultiprocessThread) (m : main_state) :
  on_item now ws NoResult m =
  (inr tt, {| regrtest := regrtest m; finished := finished m + 1;
              test_index := test_index m; console := console m |}).
Proof. done. Qed.

(** C3, as amended.  A child that exits with code 0 and wrote nothing but
    white space: the worker puts the no-result signal and returns [True]
    (in the system, it stands before that put with [stop] set), so [run]
    returns without another call of [next] and the tests still queued
    stay there; on that signal the main thread adds one to [finished]
    and changes nothing else, the accumulated results included. *)
Theorem blank_output_ends_worker `{Builtins}
  (child : string -> subprocess_result) (now : float)
  (self : MultiprocessThread) (sh : shared)
  (test : string) (rest : list string) (stdout stderr : string) (fuel : nat) :
  blank stdout = true ->
  pending sh = {| interrupted := false; tests := test :: rest |} ->
  child test = inr (0, stdout, stderr) ->
  let idle := {| current_test := None; start_time := Some now |} in
  let sh' := {| pending := {| interrupted := false; tests := rest |};
                output := output sh ++ [NoResult] |} in
  handle_exit test 0 stdout stderr = inr (NoResult, true)
  /\ after_child test (inr (0, stdout, stderr)) = Putting NoResult true
  /\ _runtest child now self sh = (inr true, idle, sh')
  /\ run (S fuel) child now self sh = Some (inr tt, idle, sh')
  /\ forall now' ws m,
       on_item now' ws NoResult m =
       (inr tt, {| regrtest := regrtest m; finished := finished m + 1;
                   test_index := test_index m; console := console m |}).
Proof.
  intros Hb Hp Hc idle sh'.
  assert (He := handle_exit_blank test stdout stderr Hb).
  assert (Hr : _runtest child now self sh = (inr true, idle, sh')).
  { unfold _runtest, __next__. rewrite Hp. simpl. by rewrite Hc, He. }
  repeat split; try done.
  - unfold after_child. by rewrite He.
  - simpl. by rewrite Hr.
Qed.

Lemma blank_output_ends_worker_witness :
  blank "" = true /\
  run (H := example_builtins) 1 example_child 2.0%float
    {| current_test := None; start_time := None |}
    {| pending := __init__ ["test_a"; "test_b"]; output := [] |} =
  Some (inr tt, {| current_test := None; start_time := Some 2.0%float |},
        {| pending := {| interrupted := false; tests := ["test_b"] |};
           output := [NoResult] |}).
Proof.
  split; [done |].
  by destruct (blank_output_ends_worker (H := example_builtins) example_child
                 2.0%float {| current_test := None; start_time := None |}
                 {| pending := __init__ ["test_a"; "test_b"]; output := [] |}
                 "test_a" ["test_b"] "" "" 0 eq_refl eq_refl eq_refl)
    as (_ & _ & _ & -> & _).
Defined.

(** C3 as stated fails: the worker whose first child exits with code 0
    and no output never asks for the next test.  With fuel for any number
    of iterations, [run] returns after the first one, and the second test
    is still queued; in the system the worker ends in [Finished], from
    where it takes no step. *)
Lemma blank_output_worker_stops :
  run (H := example_builtins) 9 example_child 2.0%float
    {| current_test := None; start_time := None |}
    {| pending := __init__ ["test_a"; "test_b"]; output := [] |} =
  Some (inr tt, {| current_test := None; start_time := Some 2.0%float |},
        {| pending := {| interrupted := false; tests := ["test_b"] |};
           output := [NoResult] |})
  /\ acts (H := example_builtins)
       [Work 2.0%float 0 (inl KeyboardInterrupt);
        Work 2.0%float 0 (inl KeyboardInterrupt);
        Work 2.0%float 0 (example_child "test_a");
        Work 2.0%float 0 (inl KeyboardInterrupt)]
       (init (example_regrtest 1) ["test_a"; "test_b"]) =
     Some ([Enter 0; Claim 0 "test_a";
            ChildExit 0 "test_a" (example_child "test_a"); Put 0 NoResult],
           {| objects := {| pending := {| interrupted := false;
                                          tests := ["test_b"] |};
                            output := [NoResult] |};
              workers := [({| current_test := None;
                              start_time := Some 2.0%float |}, Finished)];
              main := {| regrtest := example_regrtest 1; finished := 0;
                         test_index := 1; console := [] |};
              at_phase := Draining |}).
Proof. split; reflexivity. Qed.

(** C6, as amended.  A child that exits with code 0 and whose last line
    (starting and ending with a character other than white space, as the
    text [json.dumps] writes does) decodes to the record [(FAILED, 1.23)]:
    the worker publishes that record and returns [False].  The standard
    output before the last line is published stripped of leading and
    trailing white space, and so unaltered when it has none; when the
    last line is all there is, the published output is empty. *)
Theorem failed_record_is_published `{Builtins}
  (test head line trail stderr : string) :
  one_line line = true -> starts_solid line = true -> ends_solid line = true ->
  blank trail = true ->
  json_loads line = Some (PyList [PyInt FAILED; PyFloat 1.23%float]) ->
  handle_exit test 0 (head +:+ nl +:+ line +:+ trail) stderr =
    inr (Result test (strip head) (rstrip stderr)
           (PyList [PyInt FAILED; PyFloat 1.23%float]), false)
  /\ (starts_solid head = true -> ends_solid head = true -> strip head = head)
  /\ handle_exit test 0 (line +:+ trail) stderr =
       inr (Result test "" (rstrip stderr)
              (PyList [PyInt FAILED; PyFloat 1.23%float]), false).
Proof.
  intros H1 Hs He Ht Hv. split; [| split].
  - by apply handle_exit_record.
  - apply strip_solid.
  - by apply handle_exit_line.
Qed.

Lemma failed_record_is_published_witness :
  json_loads (Builtins := example_builtins) "[0, 1.23]" =
    Some (PyList [PyInt FAILED; PyFloat 1.23%float]) /\
  handle_exit (H := example_builtins) "test_os" 0
    ("line 1" +:+ nl +:+ "line 2" +:+ nl +:+ nl +:+ "[0, 1.23]" +:+ nl) "" =
  inr (Result "test_os" ("line 1" +:+ nl +:+ "line 2") ""
         (PyList [PyInt FAILED; PyFloat 1.23%float]), false).
Proof.
  split; [done |].
  exact (proj1 (failed_record_is_published (H := example_builtins) "test_os"
                  ("line 1" +:+ nl +:+ "line 2" +:+ nl) "[0, 1.23]" nl ""
                  eq_refl eq_refl eq_refl eq_refl eq_refl)).
Defined.

(** C6 as stated fails: the line before the result line is indented, and
    is published without its indentation. *)
Lemma indented_output_is_altered :
  exists published,
    handle_exit (H := example_builtins) "test_os" 0
      ("  indented" +:+ nl +:+ "[0, 1.23]" +:+ nl) "" =
      inr (Result "test_os" published ""
             (PyList [PyInt FAILED; PyFloat 1.23%float]), false)
    /\ published <> "  indented".
Proof. exists "indented". by split. Qed.

(** ** The work queue *)

Lemma next_tests_claims (p : MultiprocessIterator) test p' :
  next_tests p = (inr test, p') ->
  tests p = test :: tests p' /\ interrupted p' = interrupted p.
Proof.
  unfold next_tests. destruct (tests p) as [|t rest]; [done |].
  by intros [= <- <-].
Qed.

Lemma next_tests_raises (p : MultiprocessIterator) e p' :
  next_tests p = (inl e, p') -> p' = p /\ tests p = [] /\ e = StopIteration "".
Proof.
  unfold next_tests. destruct (tests p) as [|t rest]; [| done].
  by intros [= <- <-].
Qed.

(** The lock is free when no worker holds it. *)
Lemma lock_free_holders (ws : list (MultiprocessThread * position)) :
  lock_free ws = true <-> holders ws = 0%nat.
Proof.
  unfold lock_free, holders. induction ws as [|[th p] ws IH]; [done |].
  simpl. rewrite andb_true_iff, IH. destruct (holds_lock p); simpl; [| tauto].
  split; [by intros [? _] | lia].
Qed.

Lemma lock_free_insert (ws : list (MultiprocessThread * position)) i w w' :
  ws !! i = Some w -> lock_free ws = true -> holds_lock w'.2 = false ->
  lock_free (<[i := w']> ws) = true.
Proof.
  unfold lock_free. rewrite !forallb_forall. intros Hw Hall Hw' x Hx.
  apply list_elem_of_In, list_elem_of_lookup in Hx as [j Hj].
  destruct (decide (i = j)) as [-> | Hne].
  - rewrite list_lookup_insert_eq in Hj by (by eapply lookup_lt_Some).
    injection Hj as <-. by rewrite Hw'.
  - rewrite list_lookup_insert_ne in Hj by done.
    apply Hall, list_elem_of_In. by eapply list_elem_of_lookup_2.
Qed.

(** When the lock is taken, some worker stands inside [__next__]. *)
Lemma lock_holder (ws : list (MultiprocessThread * position)) :
  lock_free ws = false -> exists i th, ws !! i = Some (th, Locked).
Proof.
  unfold lock_free. induction ws as [|[th p] ws IH]; [done |].
  simpl. destruct p; simpl; try (intros (i & th' & Hi)%IH; by exists (S i), th').
  intros _. by exists 0%nat, th.
Qed.

Lemma next_interrupted (p : MultiprocessIterator) :
  interrupted p = true ->
  __next__ p = (inl (StopIteration "tests interrupted"), p).
Proof. intros Hp. unfold __next__. by rewrite Hp. Qed.

(** ** The threads together *)

Section system_facts.
Context `{Builtins} (spawn : string -> subprocess_result -> Prop).

Lemma work_sound now i r s l s' :
  work now i r s = Some (l, s') ->
  (forall th test, workers s !! i = Some (th, Awaiting test) -> spawn test r) ->
  step spawn s l s'.
Proof.
  unfold work. intros Hw Hr.
  destruct (workers s !! i) as [[th [| | test | it stop | e | | e]]|] eqn:Hi;
    try discriminate.
  - destruct (lock_free (workers s)) eqn:Hl; [| discriminate].
    destruct (interrupted (pending (objects s))) eqn:Hf;
      injection Hw as <- <-.
    + by apply step_refused.
    + by apply step_enter.
  - destruct (next_tests (pending (objects s))) as [[e | test] p] eqn:Hn.
    + destruct e; try discriminate. injection Hw as <- <-.
      by eapply step_exhausted.
    + injection Hw as <- <-. by eapply step_claim.
  - injection Hw as <- <-. eapply step_child; eauto.
  - injection Hw as <- <-. by eapply step_put.
  - injection Hw as <- <-. by eapply step_crash.
Qed.

Lemma main_move_sound now s l s' :
  main_move now s = Some (l, s') -> step spawn s l s'.
Proof.
  unfold main_move. intros Hm.
  destruct (at_phase s) eqn:Hp; try discriminate.
  - destruct (finished (main s) <? use_mp (ns (regrtest (main s)))) eqn:Hf.
    + apply Z.ltb_lt in Hf.
      destruct (output (objects s)) as [|it rest] eqn:Ho.
      * destruct (on_empty now (fst <$> workers s) (main s)) as [r m] eqn:E.
        injection Hm as <- <-. by eapply step_timeout.
      * destruct (on_item now (fst <$> workers s) it (main s)) as [r m] eqn:E.
        injection Hm as <- <-. by eapply step_recv.
    + apply Z.ltb_ge in Hf. injection Hm as <- <-.
      apply step_loop_exit; [done | lia].
  - destruct (on_interrupt (main s)) as [r m] eqn:E.
    injection Hm as <- <-. by eapply step_mark.
  - destruct (on_leave (fst <$> workers s) (main s)) as [r m] eqn:E.
    injection Hm as <- <-. by eapply step_waiting.
  - destruct (forallb _ (workers s)) eqn:Hall; [| discriminate].
    injection Hm as <- <-. apply step_join; [done |].
    apply Forall_forall. intros w Hw. rewrite forallb_forall in Hall.
    apply Hall. by apply list_elem_of_In.
Qed.

Lemma act_sound a s l s' :
  act a s = Some (l, s') -> allowed spawn a s -> step spawn s l s'.
Proof.
  destruct a as [now i r | now]; simpl.
  - apply work_sound.
  - intros Hm _. by eapply main_move_sound.
Qed.

(** Every step is a scheduled action. *)
Lemma act_complete s l s' :
  step spawn s l s' -> exists a, allowed spawn a s /\ act a s = Some (l, s').
Proof.
  intros Hs.
  destruct Hs as [s i th Hw Hl Hf | s i th Hw Hl Hf
                 | s i th now test p Hw Hn | s i th msg p Hw Hn
                 | s i th test r Hw Hsp | s i th it stop Hw | s i th e Hw
                 | s now it rest r m [Hp Hf] Ho Hm | s now r m [Hp Hf] Ho Hm
                 | s r m Hp Hm | s Hp Hf | s r m Hp Hm | s Hp Hall].
  - exists (Work 0%float i (inl KeyboardInterrupt)). split.
    + intros th' test'. rewrite Hw. discriminate.
    + simpl. unfold work. by rewrite Hw, Hl, Hf.
  - exists (Work 0%float i (inl KeyboardInterrupt)). split.
    + intros th' test'. rewrite Hw. discriminate.
    + simpl. unfold work. by rewrite Hw, Hl, Hf.
  - exists (Work now i (inl KeyboardInterrupt)). split.
    + intros th' test'. rewrite Hw. discriminate.
    + simpl. unfold work. by rewrite Hw, Hn.
  - exists (Work 0%float i (inl KeyboardInterrupt)). split.
    + intros th' test'. rewrite Hw. discriminate.
    + simpl. unfold work. by rewrite Hw, Hn.
  - exists (Work 0%float i r). split.
    + intros th' test'. rewrite Hw. by intros [= <- <-].
    + simpl. unfold work. by rewrite Hw.
  - exists (Work 0%float i (inl KeyboardInterrupt)). split.
    + intros th' test'. rewrite Hw. discriminate.
    + simpl. unfold work. by rewrite Hw.
  - exists (Work 0%float i (inl KeyboardInterrupt)). split.
    + intros th' test'. rewrite Hw. discriminate.
    + simpl. unfold work. by rewrite Hw.
  - exists (Main now). split; [done |].
    simpl. unfold main_move. rewrite Hp, Ho, Hm.
    by apply Z.ltb_lt in Hf as ->.
  - exists (Main now). split; [done |].
    simpl. unfold main_move. rewrite Hp, Ho, Hm.
    by apply Z.ltb_lt in Hf as ->.
  - exists (Main 0%float). split; [done |].
    simpl. unfold main_move. by rewrite Hp, Hm.
  - exists (Main 0%float). split; [done |].
    simpl. unfold main_move. rewrite Hp.
    assert ((finished (main s) <? use_mp (ns (regrtest (main s)))) = false) as ->
      by (apply Z.ltb_ge; lia).
    done.
  - exists (Main 0%float). split; [done |].
    simpl. unfold main_move. by rewrite Hp, Hm.
  - exists (Main 0%float). split; [done |].
    simpl. unfold main_move. rewrite Hp.
    assert (forallb (fun w => terminated w.2) (workers s) = true) as ->; [| done].
    apply forallb_forall. intros w Hw%list_elem_of_In.
    rewrite Forall_forall in Hall. by apply Hall.
Qed.

Lemma exec_trans s tr s' tr' s'' :
  exec spawn s tr s' -> exec spawn s' tr' s'' -> exec spawn s (tr ++ tr') s''.
Proof.
  intros H1 H2. induction H2 as [|s' tr' t l t' _ IH Hs].
  - by rewrite app_nil_r.
  - rewrite app_assoc. eapply exec_snoc; [by apply IH | done].
Qed.

Lemma exec_cons s l s' tr s'' :
  step spawn s l s' -> exec spawn s' tr s'' -> exec spawn s (l :: tr) s''.
Proof.
  intros Hs He. change (l :: tr) with ([l] ++ tr).
  eapply exec_trans; [| done].
  change [l] with ([] ++ [l]). eapply exec_snoc; [apply exec_nil | done].
Qed.

Lemma acts_sound schedule s tr s' :
  acts schedule s = Some (tr, s') -> all_allowed spawn schedule s ->
  exec spawn s tr s'.
Proof.
  revert s tr. induction schedule as [|a schedule IH]; simpl; intros s tr.
  - intros [= <- <-] _. apply exec_nil.
  - destruct (act a s) as [[l t]|] eqn:Ha; [| discriminate].
    destruct (acts schedule t) as [[tr' t']|] eqn:Hs; [| discriminate].
    intros [= <- <-] [Hal Hall].
    eapply exec_cons; [by eapply act_sound | by apply IH].
Qed.

Lemma worker_at_twice s i w sh w' sh' :
  worker_at (worker_at s i w sh) i w' sh' = worker_at s i w' sh'.
Proof. unfold worker_at. simpl. by rewrite list_insert_insert_eq. Qed.

(** One call of [_runtest], started with the lock free, is a sequence of
    steps of the worker, with no step of another thread in between; it
    leaves the lock free. *)
Lemma _runtest_exec s i self child now r self' sh' :
  workers s !! i = Some (self, Idle) ->
  lock_free (workers s) = true ->
  (forall test, spawn test (child test)) ->
  _runtest child now self (objects s) = (r, self', sh') ->
  let p := match r with
           | inr true => Finished
           | inr false => Idle
           | inl e => Raising e
           end in
  lock_free (<[i := (self', p)]> (workers s)) = true
  /\ exists tr, exec spawn s tr (worker_at s i (self', p) sh').
Proof.
  intros Hw Hfree Hc Hr p. split.
  { apply (lock_free_insert _ _ _ _ Hw Hfree). subst p. simpl.
    by destruct r as [e | []]. }
  subst p. revert Hr. unfold _runtest, __next__.
  destruct s as [[pend out] ws m ph]. simpl in *.
  assert (Hlen : (i < length ws)%nat) by (by eapply lookup_lt_Some).
  destruct (interrupted pend) eqn:Hint.
  { intros [= <- <- <-]. eexists [_; _].
    eapply exec_cons; [by apply step_refused |].
    eapply exec_cons; [eapply step_put; simpl; apply list_lookup_insert_eq; by rewrite ?length_insert |].
    simpl. rewrite list_insert_insert_eq. apply exec_nil. }
  set (s0 := {| objects := {| pending := pend; output := out |};
                workers := <[i := (self, Locked)]> ws; main := m;
                at_phase := ph |}).
  assert (H0 : step spawn {| objects := {| pending := pend; output := out |};
                             workers := ws; main := m; at_phase := ph |}
                 (Enter i) s0) by (by apply step_enter).
  assert (Hw0 : workers s0 !! i = Some (self, Locked)).
  { simpl. by apply list_lookup_insert_eq. }
  destruct (next_tests pend) as [[e | test] q] eqn:Hn.
  - destruct (next_tests_raises _ _ _ Hn) as (-> & _ & ->).
    intros [= <- <- <-]. eexists [_; _; _].
    eapply exec_cons; [exact H0 |].
    eapply exec_cons; [by eapply (step_exhausted spawn s0) |].
    eapply exec_cons; [eapply step_put; simpl; apply list_lookup_insert_eq; by rewrite ?length_insert |].
    simpl. rewrite !list_insert_insert_eq. apply exec_nil.
  - set (running := {| current_test := Some test; start_time := Some now |}).
    set (s1 := worker_at s0 i (running, Awaiting test)
                 {| pending := q; output := out |}).
    assert (H1 : step spawn s0 (Claim i test) s1)
      by (by eapply (step_claim spawn s0)).
    assert (H2 : step spawn s1 (ChildExit i test (child test))
                   (worker_at s0 i
                      ({| current_test := None; start_time := Some now |},
                       after_child test (child test))
                      {| pending := q; output := out |})).
    { rewrite <- (worker_at_twice s0 i (running, Awaiting test)
                    {| pending := q; output := out |}).
      eapply (step_child spawn s1 i running); [| apply Hc].
      simpl. apply list_lookup_insert_eq. by rewrite length_insert. }
    unfold after_child in H2. unfold worker_at in H2. simpl in H2.
    rewrite list_insert_insert_eq in H2.
    destruct (child test) as [e | [[retcode stdout] stderr]].
    { intros [= <- <- <-]. eexists [_; _; _].
      eapply exec_cons; [exact H0 |]. eapply exec_cons; [exact H1 |].
      eapply exec_cons; [exact H2 |]. apply exec_nil. }
    destruct (handle_exit test retcode stdout stderr) as [e | [it stop]].
    { intros [= <- <- <-]. eexists [_; _; _].
      eapply exec_cons; [exact H0 |]. eapply exec_cons; [exact H1 |].
      eapply exec_cons; [exact H2 |]. apply exec_nil. }
    intros [= <- <- <-]. eexists [_; _; _; _].
    eapply exec_cons; [exact H0 |]. eapply exec_cons; [exact H1 |].
    eapply exec_cons; [exact H2 |].
    eapply exec_cons.
    { eapply step_put. simpl. apply list_lookup_insert_eq. by rewrite ?length_insert. }
    simpl. rewrite list_insert_insert_eq. unfold worker_at, put. simpl.
    destruct stop; apply exec_nil.
Qed.

(** A whole [run] is a sequence of steps of the worker. *)
Lemma run_exec fuel s i self child now r self' sh' :
  workers s !! i = Some (self, Idle) ->
  lock_free (workers s) = true ->
  (forall test, spawn test (child test)) ->
  run fuel child now self (objects s) = Some (r, self', sh') ->
  exists tr,
    exec spawn s tr
      (worker_at s i
         (self', match r with
                 | inr _ => Finished
                 | inl e => Crashed e
                 end) sh').
Proof.
  revert s self. induction fuel as [|fuel IH]; [done |].
  intros s self Hw Hfree Hc. simpl.
  assert (Hlen : (i < length (workers s))%nat) by (by eapply lookup_lt_Some).
  destruct (_runtest child now self (objects s)) as [[[e | stop] self1] sh1]
    eqn:Hr.
  - destruct (_runtest_exec _ _ _ _ _ _ _ _ Hw Hfree Hc Hr) as [_ [tr He]].
    intros [= <- <- <-]. eexists (tr ++ [_]).
    eapply exec_snoc; [exact He |].
    replace (worker_at s i (self1, Crashed e) (put NoResult sh1))
      with (worker_at (worker_at s i (self1, Raising e) sh1) i
              (self1, Crashed e) (put NoResult sh1))
      by apply worker_at_twice.
    eapply (step_crash spawn (worker_at s i (self1, Raising e) sh1) i self1 e).
    simpl. by apply list_lookup_insert_eq.
  - destruct (_runtest_exec _ _ _ _ _ _ _ _ Hw Hfree Hc Hr) as [Hfree' [tr He]].
    destruct stop.
    + intros [= <- <- <-]. by exists tr.
    + intros Hrun.
      destruct (IH (worker_at s i (self1, Idle) sh1) self1) as [tr' He'].
      * simpl. by apply list_lookup_insert_eq.
      * exact Hfree'.
      * done.
      * exact Hrun.
      * rewrite worker_at_twice in He'. exists (tr ++ tr').
        by eapply exec_trans.
Qed.

End system_facts.

(** ** The draining loop *)

Section loop_facts.
Context `{Builtins}.

Lemma get_running_slow now ws entry :
  entry ∈ get_running now ws -> exists worker, worker ∈ ws /\ slow_entry now worker entry.
Proof.
  unfold get_running. intros (worker & He & Hw)%list_elem_of_bind.
  exists worker. split; [done |].
  destruct (current_test worker) as [test|] eqn:Hc; [| by apply elem_of_nil in He].
  destruct (start_time worker) as [start|] eqn:Hst; [| by apply elem_of_nil in He].
  destruct (truthy test); simpl in He; [| by apply elem_of_nil in He].
  destruct (PrimFloat.leb _ _) eqn:Hle; [| by apply elem_of_nil in He].
  apply list_elem_of_singleton in He as ->. by exists test, start.
Qed.

Lemma on_empty_frame now ws m :
  on_empty now ws m =
  (inr tt, {| regrtest := regrtest m; finished := finished m;
              test_index := test_index m;
              console := console m ++ probe_lines now ws (pgo (ns (regrtest m))) |}).
Proof.
  unfold on_empty, probe_lines.
  destruct (nonempty _ && negb _); simpl; [done |].
  rewrite app_nil_r. by destruct m.
Qed.

Lemma on_item_child_error now ws m test stdout stderr diag result :
  record CHILD_ERROR diag result ->
  on_item now ws (Result test stdout stderr result) m =
  (inl (Exception ("Child error on " +:+ test +:+ ": " +:+ str diag)),
   displayed_state m test stdout stderr result
     (progress_text now ws (pgo (ns (regrtest m))) test)).
Proof.
  intros [-> | ->]; unfold on_item, displayed_state, progress_text; simpl;
    unfold mbind, SE_bind; simpl;
    destruct (nonempty _ && negb _); simpl;
    destruct (truthy stdout); simpl;
    destruct (truthy stderr && negb _); simpl;
    rewrite ?app_nil_r; done.
Qed.

Lemma on_item_interrupted now ws m test stdout stderr second result :
  record INTERRUPTED second result ->
  on_item now ws (Result test stdout stderr result) m =
  (inl KeyboardInterrupt,
   displayed_state m test stdout stderr result
     (progress_text now ws (pgo (ns (regrtest m))) test)).
Proof.
  intros [-> | ->]; unfold on_item, displayed_state, progress_text; simpl;
    unfold mbind, SE_bind; simpl;
    destruct (nonempty _ && negb _); simpl;
    destruct (truthy stdout); simpl;
    destruct (truthy stderr && negb _); simpl;
    rewrite ?app_nil_r; done.
Qed.

Lemma on_interrupt_frame m :
  on_interrupt m =
  (inr tt, {| regrtest := {| ns := ns (regrtest m);
                             accumulated := accumulated (regrtest m);
                             displayed := displayed (regrtest m);
                             regrtest_interrupted := true |};
              finished := finished m; test_index := test_index m;
              console := console m ++ [(Stdout, nl)] |}).
Proof. done. Qed.

(** The exceptions of the unpacking and of the formatting. *)
Lemma unpack2_raises v e : unpack2 v = inl e -> display_error e = true.
Proof.
  unfold unpack2. destruct (items v) as [[|a [|b [|c l]]]|]; by intros [= <-].
Qed.

Lemma percent_0f_raises v e : percent_0f v = inl e -> display_error e = true.
Proof.
  unfold percent_0f. destruct v; try (by intros [= <-]).
  destruct (float_overflows z); by intros [= <-].
Qed.

(** The loop body on a result, whatever its shape: the result is
    recorded first; unless the unpacking of the result, the comparison of
    its duration or the formatting of its duration raises,
    one progress line is displayed under the current index, the child's
    output is copied, and the index moves on when nothing is raised. *)
Lemma on_item_result now ws m test stdout stderr result r m' :
  on_item now ws (Result test stdout stderr result) m = (r, m') ->
  finished m' = finished m
  /\ ns (regrtest m') = ns (regrtest m)
  /\ regrtest_interrupted (regrtest m') = regrtest_interrupted (regrtest m)
  /\ accumulated (regrtest m') = accumulated (regrtest m) ++ [(test, result)]
  /\ ((displayed (regrtest m') = displayed (regrtest m)
       /\ console m' = console m /\ test_index m' = test_index m
       /\ exists e, r = inl e /\ display_error e = true)
      \/ exists suffix,
           displayed (regrtest m') =
             displayed (regrtest m) ++ [(test_index m, test +:+ suffix)]
           /\ (pgo (ns (regrtest m)) = true -> suffix = "")
           /\ console m' =
                (console m
                 ++ (if truthy stdout then [(Stdout, stdout +:+ nl)] else []))
                ++ (if truthy stderr && negb (pgo (ns (regrtest m)))
                    then [(Stderr, stderr +:+ nl)] else [])
           /\ test_index m' =
                (if r is inr _ then test_index m + 1 else test_index m)).
Proof.
  unfold on_item. unfold mbind, SE_bind. simpl.
  destruct (unpack2 result) as [e | [ok test_time]] eqn:Hu; simpl.
  { intros [= <- <-]. simpl. repeat split; try done. left.
    repeat split; try done. exists e. split; [done |].
    by eapply unpack2_raises. }
  destruct (eq_int ok CHILD_ERROR || eq_int ok INTERRUPTED); simpl;
    [| destruct (ge_float test_time PROGRESS_MIN_TIME PROGRESS_MIN_TIME_Z)
         as [slow|]; simpl;
       [destruct (slow && negb (pgo (ns (regrtest m)))) eqn:Hslow; simpl;
        [destruct (percent_0f test_time) as [e | seconds] eqn:Hf; simpl |] |]].
  2,5: intros [= <- <-]; simpl; repeat split; try done; left;
    repeat split; try done; eexists; (split; [done |]);
    first [by eapply percent_0f_raises | done].
  all: match goal with
       | |- context [displayed _ ++ [(_, ?t)]] => set (text := t)
       end;
    assert (exists suffix, text = test +:+ suffix
                           /\ (pgo (ns (regrtest m)) = true -> suffix = ""))
      as (suffix & Ht & Hp);
    [ subst text; destruct (pgo (ns (regrtest m))); rewrite ?andb_false_r in *;
      simpl; try done;
      repeat match goal with
             | |- context [if ?b then _ else _] => destruct b
             end;
      rewrite ?append_assoc;
      first [ by exists "" ; rewrite append_nil_r | by eexists ]
    | clearbody text; subst text ].
  all: destruct (truthy stdout); simpl;
    destruct (truthy stderr && negb (pgo (ns (regrtest m)))); simpl;
    (destruct (getitem result 0) as [r0|]; simpl;
     [destruct (eq_int r0 INTERRUPTED); simpl;
      [| destruct (eq_int r0 CHILD_ERROR); simpl;
         [destruct (getitem result 1); simpl |]] |]);
    intros [= <- <-]; simpl; rewrite ?app_nil_r;
    (repeat split; try done); right; exists suffix; done.
Qed.

End loop_facts.

(** Once the function has raised, only workers move. *)
Lemma raised_is_final `{Builtins} spawn s e l s' :
  at_phase s = Raised e -> step spawn s l s' ->
  main_label l = false /\ at_phase s' = Raised e.
Proof.
  intros Hp Hs. destruct Hs; simpl; try done;
    try (unfold looping in *; destruct_and?; congruence).
Qed.

(** C9.  When the wait on the output queue times out, the main thread
    stays in its loop with everything as it was, except that it may have
    printed one line: the workers whose test has been running for
    [PROGRESS_MIN_TIME] or longer, when there are any and [pgo] is off.
    The accumulated results, [finished] and [test_index] are unchanged. *)
Theorem timeout_is_a_probe `{Builtins} spawn s s' :
  step spawn s Timeout s' ->
  objects s' = objects s /\ workers s' = workers s /\ looping s'
  /\ regrtest (main s') = regrtest (main s)
  /\ finished (main s') = finished (main s)
  /\ test_index (main s') = test_index (main s)
  /\ exists now,
       console (main s') =
         console (main s)
         ++ probe_lines now (fst <$> workers s) (pgo (ns (regrtest (main s))))
       /\ forall entry, entry ∈ get_running now (fst <$> workers s) ->
            exists worker,
              worker ∈ (fst <$> workers s) /\ slow_entry now worker entry.
Proof.
  intros Hs. inversion Hs as [| | | | | | | | s0 now r m [Hp Hf] Ho Hm | | | |]; subst.
  rewrite on_empty_frame in Hm. injection Hm as <- <-. simpl.
  repeat split; try done.
  exists now. split; [done |]. apply get_running_slow.
Qed.

Lemma timeout_is_a_probe_witness :
  step (H := example_builtins) example_spawn probing Timeout probed
  /\ accumulated (regrtest (main probed)) = []
  /\ finished (main probed) = 0 /\ test_index (main probed) = 1.
Proof.
  assert (Hs : step (H := example_builtins) example_spawn probing Timeout probed).
  { by apply (main_move_sound (H := example_builtins) example_spawn 45%float). }
  split; [done |].
  destruct (timeout_is_a_probe (H := example_builtins) example_spawn
              probing probed Hs) as (_ & _ & _ & -> & -> & -> & _).
  done.
Defined.

(** C4, as amended.  When the main thread gets a result of kind
    [CHILD_ERROR], it first records it, then raises an [Exception] whose
    message names the test and the diagnostic.  Only [KeyboardInterrupt]
    is handled around the loop: the exception leaves the function in that
    very step, whatever the workers are doing, and the main thread takes
    no further step, so it neither waits for the workers nor joins
    them. *)
Theorem child_error_ends_the_run `{Builtins} spawn s s'
  (test stdout stderr : string) (diag result : pyval) :
  record CHILD_ERROR diag result ->
  step spawn s (Recv (Result test stdout stderr result)) s' ->
  accumulated (regrtest (main s')) =
    accumulated (regrtest (main s)) ++ [(test, result)]
  /\ at_phase s' =
       Raised (Exception ("Child error on " +:+ test +:+ ": " +:+ str diag))
  /\ workers s' = workers s
  /\ forall l s'', step spawn s' l s'' ->
       main_label l = false /\ at_phase s'' = at_phase s'.
Proof.
  intros Hr Hs.
  inversion Hs as [| | | | | | | s0 now it rest r m Hl Ho Hm | | | | |]; subst.
  rewrite (on_item_child_error _ _ _ _ _ _ diag) in Hm by done.
  injection Hm as <- <-. simpl.
  split; [done | split; [done | split; [done |]]].
  intros l s'' Hs'. eapply raised_is_final; [| exact Hs']. done.
Qed.

Lemma crash_ready_reached :
  exists tr,
    exec (H := example_builtins) example_spawn
      (init (example_regrtest 2) crash_tests) tr crash_ready.
Proof.
  eexists. apply (acts_sound _ crash_schedule); [reflexivity |].
  simpl. unfold example_spawn. repeat split; intros th test [=]; by subst.
Qed.

Lemma child_error_ends_the_run_witness :
  exists s',
    step (H := example_builtins) example_spawn crash_ready
      (Recv (Result "test_crash" "" "" crash_record)) s'
    /\ accumulated (regrtest (main s')) = [("test_crash", crash_record)]
    /\ at_phase s' =
         Raised (Exception "Child error on test_crash: Exit code 1").
Proof.
  pose proof (main_move_sound (H := example_builtins) example_spawn 1%float
                crash_ready _ _ eq_refl) as Hs.
  eexists. split; [exact Hs |].
  destruct (child_error_ends_the_run (H := example_builtins) example_spawn
              _ _ "test_crash" "" "" (PyStr "Exit code 1") crash_record
              (or_introl eq_refl) Hs) as (-> & -> & _).
  done.
Defined.

(** C4 as stated fails: from the start with two workers there is an
    execution after which the function has raised the child error while
    the second worker is still waiting for its child; no worker was
    joined. *)
Lemma child_error_is_raised_before_workers_stop :
  exists tr s,
    exec (H := example_builtins) example_spawn
      (init (example_regrtest 2) crash_tests) tr s
    /\ at_phase s = Raised (Exception "Child error on test_crash: Exit code 1")
    /\ workers s !! 1%nat =
         Some ({| current_test := Some "test_b"; start_time := Some 0%float |},
               Awaiting "test_b").
Proof.
  eexists _, _. split.
  - apply (acts_sound _ (crash_schedule ++ [Main 1%float])); [reflexivity |].
    simpl. unfold example_spawn. repeat split; intros th test [=]; by subst.
  - done.
Qed.

(** ** The child *)

Section child_facts.
Context `{Builtins} (env : child_env).

Lemma runtest_inner_outcome test verbose quiet huntrleaks display_failure pgo w :
  (runtest_inner env test verbose quiet huntrleaks display_failure pgo w).1 =
  inner_outcome env huntrleaks.
Proof.
  unfold runtest_inner, inner_outcome.
  unfold mbind, SE_bind, emit, modify, when, print, write, modify, ret, mret,
    SE_ret, raise.
  destruct (unit_raises env) as [[]|]; simpl; try done;
    repeat (match goal with
            | |- context [if ?b then _ else _] => destruct b
            end; simpl);
    done.
Qed.

Lemma inner_outcome_shape huntrleaks result :
  inner_outcome env huntrleaks = inr result ->
  exists k d, result = PyTuple [PyInt k; PyFloat d] /\ k ∈ executor_kinds.
Proof.
  unfold inner_outcome, executor_kinds.
  destruct (unit_raises env) as [[]|]; intros [= <-]; eexists _, _;
    (split; [done |]);
    try destruct (huntrleaks && unit_refleak env);
    try destruct (unit_env_changed env);
    repeat first [apply list_elem_of_here | apply list_elem_of_further].
Qed.

Lemma runtest_run ns test w :
  (runtest env ns test w).1 = runtest_outcome env ns.
Proof.
  unfold runtest, runtest_outcome, try_finally, cleanup_test_droppings.
  set (body := if verbose3 ns then _ else _).
  assert (Hb : (body w).1 = inner_outcome env (huntrleaks ns)).
  { subst body. destruct (verbose3 ns); [| apply runtest_inner_outcome].
    unfold mbind at 1, SE_bind at 1, capture.
    pose proof (runtest_inner_outcome test (verbose ns) (quiet ns)
                  (huntrleaks ns) false (pgo ns) []) as Hc.
    destruct (runtest_inner env test (verbose ns) (quiet ns) (huntrleaks ns)
                false (pgo ns) []) as [[e | r] captured]; simpl in Hc.
    - done.
    - symmetry in Hc. destruct (inner_outcome_shape _ _ Hc) as (k & d & -> & _).
      unfold kind_is. simpl. unfold mbind, SE_bind, when, ret, mret, SE_ret.
      simpl. rewrite Hc. by destruct (k =? FAILED). }
  destruct (body w) as [r w']. simpl in Hb. subst r.
  unfold mbind, SE_bind, emit, modify. simpl.
  by destruct (cleanup_raises env).
Qed.

Lemma slave_result_run ns testname w :
  (slave_result env ns testname w).1 = inr (reported (runtest_outcome env ns)).
Proof.
  unfold slave_result, try_except.
  pose proof (runtest_run ns testname w) as Hr.
  destruct (runtest env ns testname w) as [r w']. simpl in Hr. subst r.
  by destruct (runtest_outcome env ns) as [[]|].
Qed.

Lemma reported_shape ns : outcome_shape (reported (runtest_outcome env ns)) = true.
Proof.
  unfold runtest_outcome.
  destruct (cleanup_raises env) as [[]|]; simpl; try done.
  destruct (inner_outcome env (huntrleaks ns)) as [e | r] eqn:Hi.
  - by destruct e.
  - destruct (inner_outcome_shape _ _ Hi) as (k & d & -> & Hk). simpl.
    by apply bool_decide_eq_true.
Qed.

End child_facts.

Lemma concat_cons (x : string) (xs : list string) :
  String.concat "" (x :: xs) = x +:+ String.concat "" xs.
Proof. destruct xs; simpl; [by rewrite append_nil_r | done]. Qed.

Lemma concat_app (l1 l2 : list string) :
  String.concat "" (l1 ++ l2) = String.concat "" l1 +:+ String.concat "" l2.
Proof.
  induction l1 as [|x l1 IH]; [done |].
  change ((x :: l1) ++ l2) with (x :: (l1 ++ l2)).
  by rewrite !concat_cons, IH, append_assoc.
Qed.

Lemma text_of_app st (w1 w2 : writes) :
  text_of st (w1 ++ w2) = text_of st w1 +:+ text_of st w2.
Proof. unfold text_of. by rewrite bind_app, concat_app. Qed.

Section child_process_facts.
Context `{Builtins} (env : child_env).

Lemma run_tests_slave_run ns testname :
  setup_raises env = None ->
  run_tests_slave env ns testname [] =
  (inl (SystemExit 0),
   (slave_result env ns testname []).2
   ++ [(Stdout, nl);
       (Stdout, json_dumps (reported (runtest_outcome env ns)) +:+ nl)]).
Proof.
  intros Hs. unfold run_tests_slave, setup_tests. rewrite Hs.
  unfold mbind, SE_bind. simpl.
  pose proof (slave_result_run env ns testname []) as Hr.
  destruct (slave_result env ns testname []) as [r w]. simpl in Hr. subst r.
  simpl. by rewrite <- app_assoc.
Qed.

Lemma child_process_run ns testname :
  setup_raises env = None ->
  let w := (slave_result env ns testname []).2 in
  child_process env ns testname =
  (0,
   text_of Stdout w +:+ nl
   +:+ json_dumps (reported (runtest_outcome env ns)) +:+ nl,
   text_of Stderr w).
Proof.
  intros Hs w. unfold child_process. rewrite (run_tests_slave_run _ _ Hs).
  fold w. simpl. rewrite !text_of_app. unfold text_of at 2 4. simpl.
  by rewrite !append_nil_r.
Qed.

End child_process_facts.

(** C10.  Once [setup_tests] has returned, the child exits with status 0
    whatever [runtest] does, and the last line of its standard output is
    the JSON text of the record it reports: the value [runtest] returned,
    [(INTERRUPTED, '')] when it raised [KeyboardInterrupt], and
    [(CHILD_ERROR, str(e))] when it raised any other exception [e].  When
    that line decodes, the worker publishes the decoded record and
    returns [False]: a [CHILD_ERROR] record reaches the main thread on
    the path of a clean exit. *)
Theorem child_reports_on_exit_zero `{Builtins} env ns testname
  (test : string) (v : pyval) :
  setup_raises env = None ->
  let result := reported (runtest env ns testname []).1 in
  let line := json_dumps result in
  exists out err,
    child_process env ns testname = (0, out +:+ nl +:+ line +:+ nl, err)
    /\ (one_line line = true -> starts_solid line = true ->
        ends_solid line = true -> json_loads line = Some v ->
        handle_exit test 0 (out +:+ nl +:+ line +:+ nl) err =
          inr (Result test (strip out) (rstrip err) v, false)).
Proof.
  intros Hs result line. subst result line. rewrite runtest_run.
  eexists _, _. split; [by apply child_process_run |].
  intros H1 H2 H3 Hv. by apply handle_exit_record.
Qed.

Lemma child_reports_on_exit_zero_witness :
  setup_raises (example_env None (Some (Other "SystemError" "boom"))) = None
  /\ exists out err,
       child_process (H := example_builtins)
         (example_env None (Some (Other "SystemError" "boom")))
         (ns (example_regrtest 1)) "test_os" =
       (0, out +:+ nl +:+ boom_line +:+ nl, err)
       /\ handle_exit (H := example_builtins) "test_os" 0
            (out +:+ nl +:+ boom_line +:+ nl) err =
          inr (Result "test_os" (strip out) (rstrip err)
                 (PyList [PyInt CHILD_ERROR; PyStr "boom"]), false).
Proof.
  split; [done |].
  destruct (child_reports_on_exit_zero (H := example_builtins)
              (example_env None (Some (Other "SystemError" "boom")))
              (ns (example_regrtest 1)) "test_os" "test_os"
              (PyList [PyInt CHILD_ERROR; PyStr "boom"]) eq_refl)
    as (out & err & Hc & Hh).
  exists out, err. split; [exact Hc |]. by apply Hh.
Defined.

(** C8, as amended.  The child reports a record of one of three shapes:
    one of the five kinds [runtest] returns with a [float] duration,
    which is 0.0 when the test raised before it was measured;
    [INTERRUPTED] with the empty string; [CHILD_ERROR] with the text of
    the exception.  The record a worker builds for a child that exited
    with a code other than zero is [CHILD_ERROR] with a string.  The
    second component is a number exactly when [runtest] returned: the
    records of kind [INTERRUPTED] and [CHILD_ERROR] hold no duration. *)
Theorem result_record_shapes `{Builtins} env ns testname w (retcode : Z) :
  let o := (runtest env ns testname w).1 in
  (slave_result env ns testname w).1 = inr (reported o)
  /\ outcome_shape (reported o) = true
  /\ outcome_shape
       (PyTuple [PyInt CHILD_ERROR; PyStr ("Exit code " +:+ str_int retcode)])
     = true
  /\ numeric_second (reported o) = (if o is inr _ then true else false)
  /\ match o with
     | inr result =>
         exists k,
           result = PyTuple [PyInt k;
                             PyFloat (if unit_raises env is Some _
                                      then 0%float else unit_time env)]
           /\ k ∈ executor_kinds
     | inl _ => True
     end.
Proof.
  intros o. subst o. rewrite runtest_run.
  split; [apply slave_result_run |].
  split; [apply reported_shape |]. split; [done |].
  unfold runtest_outcome. destruct (cleanup_raises env) as [e|].
  { by destruct e. }
  destruct (inner_outcome env (huntrleaks ns)) as [e | r] eqn:Hi.
  { by destruct e. }
  destruct (inner_outcome_shape _ _ _ Hi) as (k & d & -> & Hk).
  split; [done |]. exists k. split; [| done].
  unfold inner_outcome in Hi.
  destruct (unit_raises env) as [[]|]; simpl in *; congruence.
Qed.

(** C8 as stated fails: for a test stopped by [KeyboardInterrupt] the
    child reports [INTERRUPTED] with the empty string where a duration
    would stand. *)
Lemma interrupted_record_has_no_duration :
  (slave_result (example_env (Some KeyboardInterrupt) None)
     (ns (example_regrtest 1)) "test_os" []).1 =
    inr (PyTuple [PyInt INTERRUPTED; PyStr ""])
  /\ numeric_second (PyTuple [PyInt INTERRUPTED; PyStr ""]) = false.
Proof. by split. Qed.

(** ** Every test is run once *)

Section accounting.
Context `{Builtins} (spawn : string -> subprocess_result -> Prop).

Lemma next_claims p test p' :
  __next__ p = (inr test, p') ->
  interrupted p = false /\ tests p = test :: tests p'
  /\ interrupted p' = false.
Proof.
  unfold __next__, next_tests. destruct (interrupted p) eqn:Hi; [done |].
  destruct (tests p) as [|t rest]; [done |]. by intros [= <- <-].
Qed.

Lemma next_raises p e p' :
  __next__ p = (inl e, p') ->
  p' = p /\ (interrupted p = true \/ tests p = []).
Proof.
  unfold __next__, next_tests. destruct (interrupted p) eqn:Hi.
  { intros [= _ <-]. by split; [| left]. }
  destruct (tests p) as [|t rest] eqn:Ht; [| done].
  intros [= _ <-]. by split; [| right].
Qed.

(** The list of workers around worker [i]. *)
Lemma split_workers {A} (ws : list A) (i : nat) (w : A) :
  ws !! i = Some w ->
  exists l1 l2, ws = l1 ++ w :: l2 /\ forall w', <[i := w']> ws = l1 ++ w' :: l2.
Proof.
  intros Hw. exists (take i ws), (drop (S i) ws). split.
  - by rewrite take_drop_middle.
  - intros w'. apply insert_take_drop. by eapply lookup_lt_Some.
Qed.


(** The tests handed out so far and the tests still queued make up the
    list the iterator started with, in its order. *)
Lemma claims_step s l s' :
  step spawn s l s' ->
  (claims [l]).*2 ++ tests (pending (objects s')) = tests (pending (objects s)).
Proof.
  intros Hs.
  destruct Hs as [s i th Hw Hfree Hflag | s i th Hw Hfree Hflag
                 | s i th now test p Hw Hn | s i th msg p Hw Hn
                 | s i th test r Hw Hsp | s i th it stop Hw | s i th e Hw
                 | s now it rest r m Hl Ho Hm | s now r m Hl Ho Hm
                 | s r m Hp Hm
                 | s Hp Hf | s r m Hp Hm | s Hp Hall]; simpl; try done.
  - by destruct (next_tests_claims _ _ _ Hn) as [-> _].
  - by destruct (next_tests_raises _ _ _ Hn) as (-> & _).
Qed.

Lemma claims_exec s tr s' :
  exec spawn s tr s' ->
  (claims tr).*2 ++ tests (pending (objects s')) = tests (pending (objects s)).
Proof.
  intros He. induction He as [|s tr t l t' _ IH Hs]; [done |].
  rewrite <- IH. unfold claims. rewrite bind_app, fmap_app, <- app_assoc.
  f_equal. by apply claims_step.
Qed.

Lemma moves_app tr tr' : moves (tr ++ tr') = (moves tr + moves tr')%nat.
Proof. apply sum_list_with_app. Qed.

(** Every step other than a timeout lowers the weight. *)
Lemma weight_step s l s' :
  step spawn s l s' -> (weight s' + moves [l] <= weight s)%nat.
Proof.
  intros Hs. unfold weight.
  destruct Hs as [s i th Hw Hfree Hflag | s i th Hw Hfree Hflag
                 | s i th now test p Hw Hn | s i th msg p Hw Hn
                 | s i th test r Hw Hsp | s i th it stop Hw | s i th e Hw
                 | s now it rest r m Hl Ho Hm | s now r m Hl Ho Hm
                 | s r m Hp Hm
                 | s Hp Hf | s r m Hp Hm | s Hp Hall]; simpl.
  - destruct (split_workers _ _ _ Hw) as (l1 & l2 & -> & ->).
    rewrite !sum_list_with_app. simpl.
    lia.
  - destruct (split_workers _ _ _ Hw) as (l1 & l2 & -> & ->).
    rewrite !sum_list_with_app. simpl.
    lia.
  - destruct (next_tests_claims _ _ _ Hn) as [-> _].
    destruct (split_workers _ _ _ Hw) as (l1 & l2 & -> & ->).
    rewrite !sum_list_with_app. simpl.
    lia.
  - destruct (next_tests_raises _ _ _ Hn) as (-> & _).
    destruct (split_workers _ _ _ Hw) as (l1 & l2 & -> & ->).
    rewrite !sum_list_with_app. simpl.
    lia.
  - destruct (split_workers _ _ _ Hw) as (l1 & l2 & -> & ->).
    rewrite !sum_list_with_app. simpl.
    unfold after_child.
    destruct r as [e | [[rc so] se]]; simpl; [lia |].
    destruct (handle_exit test rc so se) as [e | [it []]]; simpl; lia.
  - destruct (split_workers _ _ _ Hw) as (l1 & l2 & -> & ->).
    rewrite !sum_list_with_app, length_app. simpl.
    destruct stop; simpl; lia.
  - destruct (split_workers _ _ _ Hw) as (l1 & l2 & -> & ->).
    rewrite !sum_list_with_app, length_app. simpl.
    lia.
  - destruct Hl as [Hp _]. rewrite Hp, Ho.
    destruct r as [[]|]; simpl; lia.
  - destruct Hl as [Hp _]. rewrite Hp. simpl. lia.
  - rewrite Hp. simpl. lia.
  - rewrite Hp. simpl. lia.
  - rewrite Hp. simpl. lia.
  - rewrite Hp. simpl. lia.
Qed.

(** An execution makes no more steps, timeouts apart, than the weight it
    starts with. *)
Lemma weight_exec s tr s' :
  exec spawn s tr s' -> (weight s' + moves tr <= weight s)%nat.
Proof.
  intros He. induction He as [|s tr t l t' _ IH Hs]; [simpl; lia |].
  rewrite moves_app. pose proof (weight_step _ _ _ Hs). lia.
Qed.

End accounting.

Section worker_steps.
Context `{Builtins} (spawn : string -> subprocess_result -> Prop).
Hypothesis spawn_total : forall test, exists r, spawn test r.

(** The worker inside [__next__] can take its step. *)
Lemma holder_progress s i th :
  workers s !! i = Some (th, Locked) ->
  exists l s', step spawn s l s' /\ moves [l] = 1%nat.
Proof.
  intros Hw.
  destruct (next_tests (pending (objects s))) as [[e | test] p] eqn:Hn.
  - destruct (next_tests_raises _ _ _ Hn) as (_ & _ & ->).
    eexists _, _. split; [by eapply step_exhausted | done].
  - eexists _, _. split; [by eapply (step_claim _ _ _ _ 0%float) | done].
Qed.

(** While a worker has not terminated, some worker can take a step: the
    worker itself, or the one that holds the lock it waits for. *)
Lemma worker_progress s i th p :
  workers s !! i = Some (th, p) -> terminated p = false ->
  exists l s', step spawn s l s' /\ moves [l] = 1%nat.
Proof.
  intros Hw Hp. destruct p as [| |test|it stop|e| |e]; try done.
  - destruct (lock_free (workers s)) eqn:Hfree.
    + destruct (interrupted (pending (objects s))) eqn:Hflag.
      * eexists _, _. split; [by eapply step_refused | done].
      * eexists _, _. split; [by eapply step_enter | done].
    + destruct (lock_holder _ Hfree) as (j & th' & Hj).
      by eapply holder_progress.
  - by eapply holder_progress.
  - destruct (spawn_total test) as [r Hr].
    eexists _, _. split; [by eapply step_child | done].
  - eexists _, _. split; [by eapply step_put | done].
  - eexists _, _. split; [by eapply step_crash | done].
Qed.

End worker_steps.

Section benign_run.
Context `{Builtins} (spawn : string -> subprocess_result -> Prop).
Context (n : Z) (acc0 : list (string * pyval)) (tests0 : list string).

Lemma after_child_benign test r :
  benign test r ->
  exists so se v,
    after_child test r = Putting (Result test so se v) false
    /\ plain_result v = true.
Proof.
  intros (stdout & stderr & v & -> & Hb & Hv & Hp).
  unfold after_child, handle_exit.
  assert (Hl : (rpartition (strip stdout)).2 <> "").
  { intros Hl%result_line_nil_iff. congruence. }
  destruct (rpartition (strip stdout)) as [[h sep] t]. simpl in *.
  assert (truthy t = true) as -> by (by destruct t).
  rewrite Hv. simpl. by eexists _, _, _.
Qed.

Lemma elem_executor_kinds k :
  k ∈ executor_kinds ->
  eq_int (PyInt k) CHILD_ERROR = false /\ eq_int (PyInt k) INTERRUPTED = false.
Proof.
  unfold executor_kinds. rewrite !elem_of_cons, elem_of_nil.
  intros [-> | [-> | [-> | [-> | [-> | []]]]]]; done.
Qed.

(** The loop body on a plain result: it is recorded and displayed, and
    [test_index] moves on. *)
Lemma on_item_plain now ws m test stdout stderr v :
  plain_result v = true ->
  exists text,
    on_item now ws (Result test stdout stderr v) m =
    (inr tt,
     let m' := displayed_state m test stdout stderr v text in
     {| regrtest := regrtest m'; finished := finished m;
        test_index := test_index m + 1; console := console m' |}).
Proof.
  intros Hp.
  assert (exists k d, (v = PyList [PyInt k; PyFloat d]
                       \/ v = PyTuple [PyInt k; PyFloat d])
                      /\ k ∈ executor_kinds) as (k & d & Hv & Hk).
  { destruct v as [| | | | |l|l|]; try done;
      destruct l as [|[] [|[] []]]; try done;
      apply bool_decide_eq_true in Hp; eauto. }
  destruct (elem_executor_kinds k Hk) as [Hc Hi].
  exists (let text := if PrimFloat.leb PROGRESS_MIN_TIME d
                         && negb (pgo (ns (regrtest m)))
                      then (test +:+ " (" +:+ format_0f (PyFloat d) +:+ " sec)")
                      else test in
          if nonempty (get_running now ws) && negb (pgo (ns (regrtest m)))
          then (text +:+ " -- running: " +:+ join ", " (get_running now ws))
          else text).
  destruct Hv as [-> | ->]; unfold on_item, displayed_state; simpl;
    unfold mbind, SE_bind; simpl; simpl in Hc, Hi; rewrite Hc, Hi; simpl;
    destruct (PrimFloat.leb PROGRESS_MIN_TIME d && negb _); simpl;
    destruct (nonempty _ && negb _); simpl;
    destruct (truthy stdout); simpl;
    destruct (truthy stderr && negb _); simpl;
    rewrite ?app_nil_r; done.
Qed.

Lemma bind_replicate_nil {A B} (x : A) (f : A -> list B) k :
  f x = [] -> replicate k x ≫= f = [].
Proof.
  intros Hf. induction k as [|k IH]; [done |].
  change (replicate (S k) x) with (x :: replicate k x).
  by rewrite bind_cons, Hf, IH.
Qed.

Lemma sum_replicate {A} (x : A) (f : A -> nat) k :
  sum_list_with f (replicate k x) = (k * f x)%nat.
Proof. induction k as [|k IH]; [done |]. simpl. by rewrite IH. Qed.

(** The start of a run satisfies the invariant. *)
Lemma inv_init regrtest :
  1 <= n -> use_mp (ns regrtest) = n -> accumulated regrtest = acc0 ->
  inv n acc0 tests0 (init regrtest tests0).
Proof.
  intros Hn Hu Ha. unfold init. rewrite Hu. split; simpl.
  - by rewrite length_replicate.
  - done.
  - by apply Forall_replicate.
  - done.
  - exists []. rewrite app_nil_r. split; [done |].
    by rewrite bind_replicate_nil.
  - split; [done |]. rewrite sum_replicate. unfold unfinished. simpl. lia.
  - intros _. by apply Forall_replicate.
  - by left.
  - done.
Qed.

End benign_run.

Section benign_steps.
Context `{Builtins} (spawn : string -> subprocess_result -> Prop).
Context (n : Z) (acc0 : list (string * pyval)) (tests0 : list string).
Hypothesis spawn_benign : forall test r, spawn test r -> benign test r.

Lemma last_signal_tail (it : item) (rest : list item) :
  (it :: rest = [] \/ exists l, it :: rest = l ++ [NoResult]) ->
  rest = [] \/ exists l, rest = l ++ [NoResult].
Proof.
  intros [? | [l Hl]]; [done |]. destruct l as [|x l]; simpl in Hl.
  - injection Hl as _ ->. by left.
  - injection Hl as _ ->. right. by exists l.
Qed.

Lemma on_leave_frame ws m :
  exists lines,
    on_leave ws m =
    (inr tt, {| regrtest := regrtest m; finished := finished m;
                test_index := test_index m; console := console m ++ lines |}).
Proof.
  unfold on_leave. destruct (nonempty _).
  - by eexists [_].
  - exists []. rewrite app_nil_r. by destruct m.
Qed.

Lemma next_stops p e p' :
  __next__ p = (inl e, p') -> exists msg, e = StopIteration msg.
Proof.
  unfold __next__, next_tests.
  destruct (interrupted p); [intros [= <- _]; by eexists |].
  destruct (tests p); [intros [= <- _]; by eexists | done].
Qed.

(** Every step keeps the invariant. *)
Lemma inv_step s l s' :
  inv n acc0 tests0 s -> step spawn s l s' -> inv n acc0 tests0 s'.
Proof.
  intros [Hpool Hclear Hws Hits (new & Hacc & Hperm) [Hf0 Hslots] Hqueue Hlast
          Hphase] Hs.
  destruct Hs as [s i th Hw Hfree Hflag | s i th Hw Hfree Hflag
                 | s i th now test p Hw Hn | s i th msg p Hw Hn
                 | s i th test r Hw Hsp | s i th it stop Hw | s i th e Hw
                 | s now it rest r m Hl Ho Hm | s now r m Hl Ho Hm
                 | s r m Hp Hm
                 | s Hp Hf | s r m Hp Hm | s Hp Hall].
  - (* a worker enters [__next__] *)
    destruct (split_workers _ _ _ Hw) as (l1 & l2 & Hsplit & Hins).
    split; simpl; rewrite ?Hins.
    + by rewrite <- Hins, length_insert.
    + done.
    + rewrite Hsplit in Hws. decompose_Forall; done.
    + done.
    + exists new. split; [done |]. rewrite Hperm, Hsplit.
      by rewrite !bind_app, !bind_cons.
    + split; [done |]. rewrite <- Hslots, Hsplit.
      by rewrite !sum_list_with_app.
    + intros Ht. specialize (Hqueue Ht). rewrite Hsplit in Hqueue.
      decompose_Forall; done.
    + rewrite sum_list_with_app. simpl. unfold unfinished at 2. simpl. lia.
    + done.
  - (* the queue is not marked *)
    congruence.
  - (* a claim *)
    destruct (next_tests_claims _ _ _ Hn) as (Ht & Hc).
    rewrite Hclear in Hc.
    destruct (split_workers _ _ _ Hw) as (l1 & l2 & Hsplit & Hins).
    rewrite Ht in Hperm, Hqueue. specialize (Hqueue ltac:(done)).
    split; simpl; rewrite ?Hins.
    + by rewrite <- Hins, length_insert.
    + done.
    + rewrite Hsplit in Hws. decompose_Forall; done.
    + done.
    + exists new. split; [done |]. rewrite Hperm, Hsplit.
      rewrite !bind_app, !bind_cons. simpl. solve_Permutation.
    + split; [done |]. rewrite <- Hslots, Hsplit.
      rewrite !sum_list_with_app. simpl. done.
    + intros _. rewrite Hsplit in Hqueue. decompose_Forall; done.
    + rewrite sum_list_with_app. simpl. unfold unfinished at 2. simpl. lia.
    + done.
  - (* the queue is exhausted *)
    destruct (next_tests_raises _ _ _ Hn) as (-> & Ht & _).
    destruct (split_workers _ _ _ Hw) as (l1 & l2 & Hsplit & Hins).
    split; simpl; rewrite ?Hins.
    + by rewrite <- Hins, length_insert.
    + done.
    + rewrite Hsplit in Hws. decompose_Forall; done.
    + done.
    + exists new. split; [done |]. rewrite Hperm, Hsplit.
      by rewrite !bind_app, !bind_cons.
    + split; [done |]. rewrite <- Hslots, Hsplit.
      by rewrite !sum_list_with_app.
    + done.
    + rewrite sum_list_with_app. simpl. unfold unfinished at 2. simpl. lia.
    + done.
  - (* a child ends *)
    destruct (after_child_benign test r (spawn_benign _ _ Hsp))
      as (so & se & v & -> & Hv).
    destruct (split_workers _ _ _ Hw) as (l1 & l2 & Hsplit & Hins).
    split; simpl; rewrite ?Hins.
    + by rewrite <- Hins, length_insert.
    + done.
    + rewrite Hsplit in Hws. decompose_Forall; done.
    + done.
    + exists new. split; [done |]. rewrite Hperm, Hsplit.
      by rewrite !bind_app, !bind_cons.
    + split; [done |]. rewrite <- Hslots, Hsplit.
      by rewrite !sum_list_with_app.
    + intros Ht. specialize (Hqueue Ht). rewrite Hsplit in Hqueue.
      decompose_Forall; done.
    + rewrite sum_list_with_app. simpl. unfold unfinished at 2. simpl. lia.
    + done.
  - (* a put *)
    destruct (split_workers _ _ _ Hw) as (l1 & l2 & Hsplit & Hins).
    assert (Hg : good_position (th, Putting it stop) = true).
    { rewrite Hsplit in Hws. by decompose_Forall. }
    unfold good_position in Hg. simpl in Hg.
    destruct it as [|test so se v].
    + subst stop. split; simpl; rewrite ?Hins.
      * by rewrite <- Hins, length_insert.
      * done.
      * rewrite Hsplit in Hws. decompose_Forall; done.
      * decompose_Forall; done.
      * exists new. split; [done |]. rewrite Hperm, Hsplit.
        rewrite !bind_app, !bind_cons. simpl. by rewrite !app_nil_r.
      * split; [done |]. rewrite <- Hslots, Hsplit.
        rewrite !sum_list_with_app. simpl. unfold unfinished at 2 4. simpl. lia.
      * intros Ht. specialize (Hqueue Ht). rewrite Hsplit in Hqueue.
        decompose_Forall; done.
      * intros _. right. by eexists.
      * done.
    + apply andb_prop in Hg as [->%negb_true_iff Hv].
      split; simpl; rewrite ?Hins.
      * by rewrite <- Hins, length_insert.
      * done.
      * rewrite Hsplit in Hws. decompose_Forall; done.
      * decompose_Forall; done.
      * exists new. split; [done |]. rewrite Hperm, Hsplit.
        rewrite !bind_app, !bind_cons. simpl. solve_Permutation.
      * split; [done |]. rewrite <- Hslots, Hsplit.
        rewrite !sum_list_with_app. simpl. unfold unfinished at 2 4. simpl. lia.
      * intros Ht. specialize (Hqueue Ht). rewrite Hsplit in Hqueue.
        decompose_Forall; done.
      * rewrite sum_list_with_app. simpl. unfold unfinished at 2. simpl. lia.
      * done.
  - (* no worker raises *)
    destruct (split_workers _ _ _ Hw) as (l1 & l2 & Hsplit & Hins).
    rewrite Hsplit in Hws. by decompose_Forall.
  - (* a get *)
    destruct Hl as [Hp Hlt]. rewrite Ho in *.
    apply Forall_cons in Hits as [Hit Hits].
    destruct it as [|test so se v].
    + rewrite on_item_no_result in Hm. injection Hm as <- <-.
      split; simpl; try done.
      * by exists new.
      * split; [lia |]. simpl in Hslots. lia.
      * intros Hu. by apply (last_signal_tail NoResult), Hlast.
    + destruct (on_item_plain now (workers s).*1 (main s) test so se v Hit)
        as [text Hon].
      rewrite Hon in Hm. injection Hm as <- <-.
      split; simpl; try done.
      * exists (new ++ [(test, v)]). rewrite Hacc, <- app_assoc.
        split; [done |]. rewrite Hperm, fmap_app. simpl. solve_Permutation.
      * intros Hu. by eapply last_signal_tail, Hlast.
  - (* a timeout *)
    destruct Hl as [Hp Hlt]. rewrite on_empty_frame in Hm.
    injection Hm as <- <-. split; simpl; try done. by exists new.
  - (* no interrupt is caught *)
    by rewrite Hp in Hphase.
  - (* past the loop *)
    split; simpl; try done; [by exists new |].
    destruct Hpool as (Hn1 & Hu & _). rewrite Hu in Hf. lia.
  - (* the tests still running are listed *)
    destruct (on_leave_frame (workers s).*1 (main s)) as [lines Hon].
    rewrite Hon in Hm. injection Hm as <- <-. rewrite Hp in Hphase.
    split; simpl; try done. by exists new.
  - (* the joins *)
    rewrite Hp in Hphase. split; simpl; try done. by exists new.
Qed.

End benign_steps.

Section benign_end.
Context `{Builtins} (spawn : string -> subprocess_result -> Prop).
Context (n : Z) (acc0 : list (string * pyval)) (tests0 : list string).
Hypothesis spawn_benign : forall test r, spawn test r -> benign test r.
Hypothesis spawn_total : forall test, exists r, spawn test r.

Lemma inv_exec s tr s' :
  inv n acc0 tests0 s -> exec spawn s tr s' -> inv n acc0 tests0 s'.
Proof.
  intros Hi He. induction He as [|s tr t l t' _ IH Hs]; [done |].
  apply (inv_step spawn n acc0 tests0 spawn_benign t l t'); [by apply IH | done].
Qed.

Lemma sum_unfinished_zero ws :
  sum_list_with unfinished ws = 0%nat ->
  Forall (fun w : MultiprocessThread * position => w.2 = Finished) ws.
Proof.
  induction ws as [|[th p] ws IH]; simpl; [done |].
  unfold unfinished at 1. simpl. intros Hs. apply Forall_cons.
  destruct p; simpl in *; try lia. split; [done |]. apply IH. lia.
Qed.

Lemma sum_unfinished_pos ws :
  (0 < sum_list_with unfinished ws)%nat ->
  exists i th p, ws !! i = Some (th, p) /\ p <> Finished.
Proof.
  induction ws as [|[th p] ws IH]; simpl; [lia |].
  assert (p = Finished \/ p <> Finished) as [-> | Hp]
    by (destruct p; auto; by right).
  - unfold unfinished at 1. simpl. intros (i & th' & p' & Hi & Hp')%IH.
    by exists (S i), th', p'.
  - intros _. by exists 0%nat, th, p.
Qed.

Lemma in_flight_finished ws :
  Forall (fun w : MultiprocessThread * position => w.2 = Finished) ws ->
  ws ≫= in_flight = [].
Proof.
  induction 1 as [|[th p] ws Hp _ IH]; [done |].
  rewrite bind_cons, IH. simpl in Hp. by subst p.
Qed.

(** Past the loop everything is drained: the queue of tests and the
    output queue are empty, every worker has returned, and what was
    accumulated during the run is the list of tests, in some order. *)
Lemma inv_drained s :
  inv n acc0 tests0 s -> at_phase s <> Draining ->
  tests (pending (objects s)) = [] /\ output (objects s) = []
  /\ Forall (fun w => w.2 = Finished) (workers s)
  /\ exists new,
       accumulated (regrtest (main s)) = acc0 ++ new /\ new.*1 ≡ₚ tests0.
Proof.
  intros [(Hn & Hu & Hlen) Hclear Hws Hits (new & Hacc & Hperm) [Hf0 Hslots]
          Hqueue Hlast Hphase] Hp.
  assert (Hfin : finished (main s) = n) by (by destruct (at_phase s)).
  rewrite Hfin in Hslots.
  assert (Hz : sum_list_with unfinished (workers s) = 0%nat) by lia.
  assert (Hsig : sum_list_with signal (output (objects s)) = 0%nat) by lia.
  pose proof (sum_unfinished_zero _ Hz) as Hall.
  assert (Hout : output (objects s) = []).
  { destruct (Hlast Hz) as [? | [l Hl]]; [done |].
    rewrite Hl, sum_list_with_app in Hsig. simpl in Hsig. lia. }
  assert (Hq : tests (pending (objects s)) = []).
  { destruct (tests (pending (objects s))) as [|t ts] eqn:Ht; [done |].
    specialize (Hqueue ltac:(done)).
    destruct (workers s) as [|[th p] ws]; [simpl in Hlen; lia |].
    apply Forall_cons in Hall as [Hp1 _], Hqueue as [Hq1 _].
    simpl in Hp1. subst p. done. }
  split; [done | split; [done | split; [done |]]].
  exists new. split; [done |].
  rewrite Hperm, Hout, Hq, (in_flight_finished _ Hall). simpl.
  by rewrite !app_nil_r.
Qed.

(** While the function has not returned, some thread can take a step
    other than a timeout. *)
Lemma inv_progress s :
  inv n acc0 tests0 s -> at_phase s <> Returned ->
  exists l s', step spawn s l s' /\ moves [l] = 1%nat.
Proof.
  intros Hinv Hp.
  destruct (at_phase s) eqn:Hph; [| | | | done |].
  - (* in the loop *)
    destruct (decide (finished (main s) < use_mp (ns (regrtest (main s)))))
      as [Hlt | Hge].
    + destruct (output (objects s)) as [|it rest] eqn:Ho.
      * destruct Hinv as [(Hn & Hu & Hlen) Hclear Hws _ _ [Hf0 Hslots] _ _ _].
        rewrite Ho in Hslots. simpl in Hslots. rewrite Hu in Hlt.
        destruct (sum_unfinished_pos (workers s) ltac:(lia))
          as (i & th & p & Hw & Hnf).
        assert (Hg : good_position (th, p) = true).
        { rewrite Forall_lookup in Hws. by apply (Hws i). }
        apply (worker_progress spawn spawn_total s i th p Hw).
        by destruct p.
      * destruct (on_item 0%float (workers s).*1 it (main s)) as [r m] eqn:Hon.
        eexists _, _. split; [by eapply step_recv | done].
    + eexists _, _. split; [by eapply step_loop_exit | done].
  - destruct Hinv as [_ _ _ _ _ _ _ _ Hphase]. by rewrite Hph in Hphase.
  - destruct (on_leave (workers s).*1 (main s)) as [r m] eqn:Hon.
    eexists _, _. split; [by eapply step_waiting | done].
  - destruct (inv_drained s Hinv ltac:(congruence)) as (_ & _ & Hall & _).
    assert (Forall (fun w : MultiprocessThread * position =>
                      terminated w.2 = true) (workers s)) as Hterm.
    { eapply Forall_impl; [exact Hall |]. intros [th p]. simpl. by intros ->. }
    eexists _, _. split; [by apply step_join | done].
  - destruct Hinv as [_ _ _ _ _ _ _ _ Hphase]. by rewrite Hph in Hphase.
Qed.

(** From every state of a benign run the return of the function can be
    reached. *)
Lemma inv_returns s :
  inv n acc0 tests0 s ->
  exists tr s', exec spawn s tr s' /\ at_phase s' = Returned.
Proof.
  remember (weight s) as k eqn:Hk. revert s Hk.
  induction (lt_wf k) as [k _ IH]. intros s -> Hinv.
  assert (at_phase s = Returned \/ at_phase s <> Returned) as [Hp | Hp]
    by (destruct (at_phase s); auto; by right).
  { exists [], s. split; [apply exec_nil | done]. }
  destruct (inv_progress s Hinv Hp) as (l & t & Hs & Hl).
  pose proof (weight_step spawn _ _ _ Hs) as Hw.
  destruct (IH (weight t) ltac:(lia) t eq_refl) as (tr & t' & He & Hr).
  { by apply (inv_step spawn n acc0 tests0 spawn_benign s l t). }
  exists (l :: tr), t'. split; [by eapply exec_cons | done].
Qed.

End benign_end.

Section provenance.
Context `{Builtins} (spawn : string -> subprocess_result -> Prop).
Context (acc0 : list (string * pyval)).

Lemma sourced_init regrtest tests0 :
  accumulated regrtest = acc0 -> sourced spawn acc0 (init regrtest tests0).
Proof.
  intros Ha. split; simpl.
  - exists []. by rewrite app_nil_r.
  - done.
  - by apply Forall_replicate.
Qed.

Lemma made_by_after_child test r :
  spawn test r ->
  if after_child test r is Putting it _ then made_by spawn it else True.
Proof.
  intros Hsp. unfold after_child. destruct r as [e | [[rc so] se]]; [done |].
  destruct (handle_exit test rc so se) as [e | [it stop]] eqn:Hh; [done |].
  destruct it as [|test' so' se' v]; [done |].
  assert (test' = test) as ->.
  { revert Hh. unfold handle_exit.
    destruct (rpartition (strip so)) as [[h sep] t].
    destruct (negb (rc =? 0)); [by intros [= <- _ _ _ _] |].
    destruct (negb (truthy t)); [done |].
    destruct (json_loads t); [| done]. by intros [= <- _ _ _ _]. }
  by exists rc, so, se, stop.
Qed.

Lemma sourced_step s l s' :
  sourced spawn acc0 s -> step spawn s l s' -> sourced spawn acc0 s'.
Proof.
  intros [(new & Hacc & Hnew) Hout Hws] Hs.
  destruct Hs as [s i th Hw Hfree Hflag | s i th Hw Hfree Hflag
                 | s i th now test p Hw Hn | s i th msg p Hw Hn
                 | s i th test r Hw Hsp | s i th it stop Hw | s i th e Hw
                 | s now it rest r m Hl Ho Hm | s now r m Hl Ho Hm
                 | s r m Hp Hm
                 | s Hp Hf | s r m Hp Hm | s Hp Hall];
    try (split; simpl; [by exists new | done | by apply Forall_insert]).
  - (* a child ends *)
    split; simpl; [by exists new | done |].
    apply Forall_insert; [done |]. by apply made_by_after_child.
  - (* a put *)
    split; simpl; [by exists new | |].
    + apply Forall_app. split; [done |]. apply Forall_singleton.
      rewrite Forall_lookup in Hws. apply (Hws i _ Hw).
    + apply Forall_insert; [done |]. by destruct stop.
  - (* a worker raises *)
    split; simpl; [by exists new | | by apply Forall_insert].
    apply Forall_app. split; [done |]. by apply Forall_singleton.
  - (* a get *)
    rewrite Ho in Hout. apply Forall_cons in Hout as [Hit Hrest].
    destruct it as [|test so se v].
    + rewrite on_item_no_result in Hm. injection Hm as <- <-.
      split; simpl; [by exists new | done | done].
    + destruct (on_item_result _ _ _ _ _ _ _ _ _ Hm) as (_ & _ & _ & Ha & _).
      split; simpl; [| done | done].
      exists (new ++ [(test, v)]). rewrite Ha, Hacc, <- app_assoc.
      split; [done |]. apply Forall_app. split; [done |].
      apply Forall_singleton. by exists so, se.
  - (* a timeout *)
    rewrite on_empty_frame in Hm. injection Hm as <- <-.
    split; simpl; [by exists new | done | done].
  - (* the handler marks the queue *)
    rewrite on_interrupt_frame in Hm. injection Hm as <- <-.
    split; simpl; [by exists new | done | done].
  - (* past the loop *)
    split; simpl; [by exists new | done | done].
  - (* the tests still running are listed *)
    destruct (on_leave_frame (workers s).*1 (main s)) as [lines Hon].
    rewrite Hon in Hm. injection Hm as <- <-.
    split; simpl; [by exists new | done | done].
  - (* the joins *)
    split; simpl; [by exists new | done | done].
Qed.

Lemma sourced_exec s tr s' :
  sourced spawn acc0 s -> exec spawn s tr s' -> sourced spawn acc0 s'.
Proof.
  intros Hi He. induction He as [|s tr t l t' _ IH Hs]; [done |].
  apply (sourced_step t l t'); [by apply IH | done].
Qed.

(** What a benign child made is the record of its last line. *)
Lemma made_by_benign test so se v :
  (forall test r, spawn test r -> benign test r) ->
  made_by spawn (Result test so se v) -> reported_by spawn test v.
Proof.
  intros Hb (rc & stdout & stderr & stop & Hsp & Hh).
  destruct (Hb _ _ Hsp) as (stdout' & stderr' & v' & [= -> <- <-] & _ & Hv & _).
  exists stdout, stderr. split; [done |].
  revert Hh. unfold handle_exit.
  destruct (rpartition (strip stdout)) as [[h sep] t]. simpl in *.
  destruct (negb (truthy t)); [done |]. rewrite Hv. by intros [= _ _ <-].
Qed.

End provenance.

(** C1, as amended.  A run in which every child exits with code 0 and
    reports, on its last line, a result of one of the kinds [runtest]
    returns, with a pool of at least one worker (whatever its size
    against the number of tests) and children that end.  At every point
    of every execution the tests handed out so far, each to the one
    worker of its claim, followed by the tests still queued, are the list
    the run started with: no test is handed out twice and none is
    skipped.  An execution makes at most [5 k + 4 n + 3] steps other than
    timeouts, from every point the return of the function can be reached,
    and the function never raises nor marks the queue interrupted.
    When the function has returned, every test has been handed out, the
    queues are empty, and exactly [k] results were accumulated, whose
    tests are the list of tests in some order; each of them is the record
    a child started for its test reported. *)
Theorem every_test_is_run_once `{Builtins} spawn (regrtest : Regrtest)
  (tests0 : list string) (tr : list label) (s : system) :
  1 <= use_mp (ns regrtest) ->
  (forall test r, spawn test r -> benign test r) ->
  (forall test, exists r, spawn test r) ->
  exec spawn (init regrtest tests0) tr s ->
  (claims tr).*2 ++ tests (pending (objects s)) = tests0
  /\ (moves tr <= 5 * length tests0 + 4 * Z.to_nat (use_mp (ns regrtest)) + 3)%nat
  /\ (exists tr' s', exec spawn s tr' s' /\ at_phase s' = Returned)
  /\ (if at_phase s is Raised _ then False else True)
  /\ interrupted (pending (objects s)) = false
  /\ (at_phase s = Returned ->
      (claims tr).*2 = tests0
      /\ output (objects s) = []
      /\ exists new,
           accumulated (runtest_mp.regrtest (main s)) =
             accumulated regrtest ++ new
           /\ length new = length tests0
           /\ new.*1 ≡ₚ tests0
           /\ Forall (fun tv => reported_by spawn tv.1 tv.2) new).
Proof.
  intros Hn Hb Ht He.
  pose proof (inv_init (use_mp (ns regrtest)) (accumulated regrtest) tests0
                regrtest Hn eq_refl eq_refl) as Hi0.
  pose proof (inv_exec spawn _ _ _ Hb _ _ _ Hi0 He) as Hi.
  pose proof (claims_exec spawn _ _ _ He) as Hc. simpl in Hc.
  split; [done |]. split.
  { pose proof (weight_exec spawn _ _ _ He) as Hw. unfold weight in Hw at 2.
    simpl in Hw. rewrite sum_replicate in Hw. unfold position_weight in Hw.
    simpl in Hw. lia. }
  split; [by eapply inv_returns |].
  split. { destruct Hi as [_ _ _ _ _ _ _ _ Hph]. by destruct (at_phase s). }
  split. { by destruct Hi. }
  intros Hr.
  destruct (inv_drained _ _ _ s Hi ltac:(congruence))
    as (Hq & Ho & _ & new & Hacc & Hperm).
  rewrite Hq, app_nil_r in Hc.
  split; [done | split; [done |]].
  exists new. split; [done |]. split.
  { by rewrite <- (Permutation_length Hperm), length_fmap. }
  split; [done |].
  destruct (sourced_exec spawn _ _ _ _
              (sourced_init spawn _ regrtest tests0 eq_refl) He)
    as [(new' & Hacc' & Hnew) _ _].
  rewrite Hacc in Hacc'. apply app_inv_head in Hacc' as <-.
  eapply Forall_impl; [exact Hnew |].
  intros [test v] (so & se & Hm). by eapply made_by_benign.
Qed.

Lemma passing_spawn_benign test r :
  passing_spawn test r -> benign (H := example_builtins) test r.
Proof. intros ->. by eexists _, _, _. Qed.

Lemma passing_allowed schedule s :
  Forall (fun a => match a with
                   | Work _ _ r => r = passed
                   | Main _ => True
                   end) schedule ->
  all_allowed (H := example_builtins) passing_spawn schedule s.
Proof.
  intros Hall. revert s. induction Hall as [|a schedule Ha _ IH]; [done |].
  intros s. split.
  - destruct a as [now i r | now]; [| done]. by subst r.
  - destruct (act a s) as [[l s']|]; [apply IH | done].
Qed.

Lemma full_run :
  exec (H := example_builtins) passing_spawn
    (init (example_regrtest 2) two_tests) full_trace returned.
Proof.
  apply (acts_sound _ full_schedule).
  - vm_compute. reflexivity.
  - apply passing_allowed. unfold full_schedule. by repeat constructor.
Qed.

Lemma every_test_is_run_once_witness :
  exec (H := example_builtins) passing_spawn
    (init (example_regrtest 2) two_tests) full_trace returned
  /\ (claims full_trace).*2 = two_tests
  /\ exists new,
       accumulated (regrtest (main returned)) = [] ++ new
       /\ length new = 2%nat /\ new.*1 ≡ₚ two_tests.
Proof.
  destruct (every_test_is_run_once (H := example_builtins) passing_spawn
              (example_regrtest 2) two_tests full_trace returned ltac:(done)
              passing_spawn_benign
              (fun test => ex_intro _ passed eq_refl) full_run)
    as (_ & _ & _ & _ & _ & Hr).
  destruct (Hr eq_refl) as (Hc & _ & new & Ha & Hl & Hp & _).
  split; [exact full_run | split; [exact Hc |]]. by exists new.
Defined.

(** C1 as stated fails: with one worker and two tests, the child of the
    first test exits with code 0 and no output.  Nothing is interrupted
    and the function returns, yet no result was recorded and the second
    test was never handed out. *)
Lemma silent_child_ends_the_run_early :
  exec (H := example_builtins) example_spawn
    (init (example_regrtest 1) ["test_a"; "test_b"]) silent_trace
    silent_returned
  /\ at_phase silent_returned = Returned
  /\ interrupted (pending (objects silent_returned)) = false
  /\ regrtest_interrupted (regrtest (main silent_returned)) = false
  /\ accumulated (regrtest (main silent_returned)) = []
  /\ (claims silent_trace).*2 = ["test_a"]
  /\ tests (pending (objects silent_returned)) = ["test_b"].
Proof.
  split; [| done]. apply (acts_sound _ silent_schedule).
  - vm_compute. reflexivity.
  - simpl. unfold example_spawn. repeat split; intros th test [=]; by subst.
Qed.

(** ** Runs with any children *)


Section any_children.
Context `{Builtins} (spawn : string -> subprocess_result -> Prop).
Context (n : Z).

Lemma sum_owing_replicate k th :
  sum_list_with owing (replicate k (th, Idle)) = k.
Proof. rewrite sum_replicate. unfold owing. simpl. lia. Qed.

Lemma sound_init regrtest tests0 :
  use_mp (ns regrtest) = n -> sound n (init regrtest tests0).
Proof.
  intros Hu. unfold init. rewrite Hu. split; simpl.
  - by rewrite length_replicate.
  - apply Forall_replicate. split; [done |]. simpl. by intros [? ?].
  - by apply Forall_replicate.
  - split; [done |]. intros _. right. rewrite sum_owing_replicate. lia.
  - done.
  - done.
  - unfold holders. rewrite sum_replicate. simpl. lia.
Qed.

(** Where a worker stands once its child has ended. *)
Lemma after_child_settled test r :
  settled (after_child test r) = true
  /\ awaited (after_child test r) = None
  /\ terminated (after_child test r) = false
  /\ holds_lock (after_child test r) = false.
Proof.
  unfold after_child. destruct r as [e | [[rc so] se]]; [done |].
  unfold handle_exit. destruct (rpartition (strip so)) as [[h sep] t].
  destruct (negb (rc =? 0)); [done |].
  destruct (negb (truthy t)); [done |].
  by destruct (json_loads t).
Qed.

Lemma on_item_fatal now ws m it :
  fatal it = true -> exists e m', on_item now ws it m = (inl e, m').
Proof.
  destruct it as [|test so se v]; [done |]. simpl.
  destruct v as [| | | | | |l|]; try done.
  destruct l as [|[] [|[] []]]; try done.
  intros ->%Z.eqb_eq. eexists _, _.
  apply (on_item_child_error _ _ _ _ _ _ (PyStr s)). by left.
Qed.

Lemma replace_worker {A} (ws : list A) (i : nat) (w w' : A) :
  ws !! i = Some w ->
  length (<[i := w']> ws) = length ws
  /\ (forall P : A -> Prop, Forall P ws -> P w' -> Forall P (<[i := w']> ws))
  /\ (forall f : A -> nat,
        (sum_list_with f (<[i := w']> ws) + f w
         = sum_list_with f ws + f w')%nat).
Proof.
  intros Hw. destruct (split_workers _ _ _ Hw) as (l1 & l2 & -> & Hins).
  rewrite Hins. split; [by rewrite !length_app |]. split.
  - intros P HP Hw'. decompose_Forall; done.
  - intros f. rewrite !sum_list_with_app. simpl. lia.
Qed.

(** The workers inside [__next__] once one worker has moved. *)
Lemma holders_insert (ws : list (MultiprocessThread * position)) i w w' :
  ws !! i = Some w ->
  (holders (<[i := w']> ws) + (if holds_lock w.2 then 1 else 0)
   = holders ws + (if holds_lock w'.2 then 1 else 0))%nat.
Proof.
  intros Hw. destruct (replace_worker _ _ _ w' Hw) as (_ & _ & Hsum).
  apply (Hsum (fun w => if holds_lock w.2 then 1 else 0)%nat).
Qed.

(** A worker that can take a step has not terminated. *)
Lemma not_joined (ws : list (MultiprocessThread * position)) i th p :
  ws !! i = Some (th, p) -> terminated p = false ->
  Forall (fun w => terminated w.2 = true) ws -> False.
Proof.
  intros Hw Hp Hall. rewrite Forall_lookup in Hall.
  specialize (Hall i _ Hw). simpl in Hall. congruence.
Qed.

Lemma Exists_fatal_snoc (l : list item) it :
  Exists (fun it => fatal it = true) l ->
  Exists (fun it => fatal it = true) (l ++ [it]).
Proof. intros Hl. apply Exists_app. by left. Qed.

Lemma sound_step s l s' : sound n s -> step spawn s l s' -> sound n s'.
Proof.
  intros [[Hu Hlen] Htr Hst [Hf0 Hslots] Hmark Hjoin Hlock] Hs.
  destruct Hs as [s i th Hw Hfree Hflag | s i th Hw Hfree Hflag
                 | s i th now test p Hw Hn | s i th msg p Hw Hn
                 | s i th test r Hw Hsp | s i th it stop Hw | s i th e Hw
                 | s now it rest r m Hl Ho Hm | s now r m Hl Ho Hm
                 | s r m Hp Hm
                 | s Hp Hf | s r m Hp Hm | s Hp Hall].
  - (* a worker enters [__next__] *)
    destruct (replace_worker _ _ _ (th, Locked) Hw) as (Hl & Hall & Hsum).
    pose proof (holders_insert _ _ _ (th, Locked) Hw) as Hh.
    apply lock_free_holders in Hfree.
    assert (Ht : tracks (th, Idle)).
    { rewrite Forall_lookup in Htr. by apply (Htr i). }
    split; simpl.
    + by rewrite Hl.
    + by apply Hall.
    + by apply Hall.
    + split; [done |]. intros Hp. destruct (Hslots Hp) as [? | Heq]; [by left |].
      right. specialize (Hsum owing). unfold owing at 2 4 in Hsum.
      simpl in Hsum. lia.
    + done.
    + intros Hp. destruct (not_joined _ _ _ _ Hw eq_refl (Hjoin Hp)).
    + simpl in Hh. lia.
  - (* a worker is refused *)
    destruct (replace_worker _ _ _ (th, Putting NoResult true) Hw)
      as (Hl & Hall & Hsum).
    pose proof (holders_insert _ _ _ (th, Putting NoResult true) Hw) as Hh.
    assert (Ht : tracks (th, Idle)).
    { rewrite Forall_lookup in Htr. by apply (Htr i). }
    split; simpl.
    + by rewrite Hl.
    + by apply Hall.
    + by apply Hall.
    + split; [done |]. intros Hp. destruct (Hslots Hp) as [? | Heq]; [by left |].
      right. specialize (Hsum owing). unfold owing at 2 4 in Hsum.
      simpl in Hsum. lia.
    + done.
    + intros Hp. destruct (not_joined _ _ _ _ Hw eq_refl (Hjoin Hp)).
    + simpl in Hh. lia.
  - (* a claim *)
    destruct (next_tests_claims _ _ _ Hn) as (_ & Hi').
    destruct (replace_worker _ _ _
                ({| current_test := Some test; start_time := Some now |},
                 Awaiting test) Hw) as (Hl & Hall & Hsum).
    pose proof (holders_insert _ _ _
                  ({| current_test := Some test; start_time := Some now |},
                   Awaiting test) Hw) as Hh.
    split; simpl.
    + by rewrite Hl.
    + apply Hall; [done |]. split; [done |]. simpl. by eexists.
    + by apply Hall.
    + split; [done |]. intros Hp. destruct (Hslots Hp) as [? | Heq]; [by left |].
      right. specialize (Hsum owing). unfold owing at 2 4 in Hsum.
      simpl in Hsum. lia.
    + rewrite Hi'. exact Hmark.
    + intros Hp. destruct (not_joined _ _ _ _ Hw eq_refl (Hjoin Hp)).
    + simpl in Hh. lia.
  - (* the queue is exhausted *)
    destruct (next_tests_raises _ _ _ Hn) as (-> & _).
    destruct (replace_worker _ _ _ (th, Putting NoResult true) Hw)
      as (Hl & Hall & Hsum).
    pose proof (holders_insert _ _ _ (th, Putting NoResult true) Hw) as Hh.
    assert (Ht : tracks (th, Locked)).
    { rewrite Forall_lookup in Htr. by apply (Htr i). }
    split; simpl.
    + by rewrite Hl.
    + by apply Hall.
    + by apply Hall.
    + split; [done |]. intros Hp. destruct (Hslots Hp) as [? | Heq]; [by left |].
      right. specialize (Hsum owing). unfold owing at 2 4 in Hsum.
      simpl in Hsum. lia.
    + done.
    + intros Hp. destruct (not_joined _ _ _ _ Hw eq_refl (Hjoin Hp)).
    + simpl in Hh. lia.
  - (* a child ends *)
    destruct (after_child_settled test r) as (Hset & Haw & Hterm & Hfree).
    destruct (replace_worker _ _ _
                ({| current_test := None; start_time := start_time th |},
                 after_child test r) Hw) as (Hl & Hall & Hsum).
    pose proof (holders_insert _ _ _
                  ({| current_test := None; start_time := start_time th |},
                   after_child test r) Hw) as Hh.
    split; simpl.
    + by rewrite Hl.
    + apply Hall; [done |]. split; simpl; [done |]. by intros [? ?].
    + by apply Hall.
    + split; [done |]. intros Hp. destruct (Hslots Hp) as [? | Heq]; [by left |].
      right. specialize (Hsum owing). unfold owing at 2 4 in Hsum.
      simpl in Hsum. rewrite Hterm in Hsum. lia.
    + done.
    + intros Hp. destruct (not_joined _ _ _ _ Hw eq_refl (Hjoin Hp)).
    + simpl in Hh. rewrite Hfree in Hh. lia.
  - (* a put *)
    destruct (replace_worker _ _ _ (th, if stop then Finished else Idle) Hw)
      as (Hl & Hall & Hsum).
    pose proof (holders_insert _ _ _ (th, if stop then Finished else Idle) Hw)
      as Hh.
    assert (Ht : tracks (th, Putting it stop)).
    { rewrite Forall_lookup in Htr. by apply (Htr i). }
    assert (Hset : settled (Putting it stop) = true).
    { rewrite Forall_lookup in Hst. by apply (Hst i _ Hw). }
    split; simpl.
    + by rewrite Hl.
    + apply Hall; [done |]. by destruct stop.
    + apply Hall; [done |]. by destruct stop.
    + split; [done |]. intros Hp. specialize (Hsum owing).
      unfold owing at 2 4 in Hsum. simpl in Hsum.
      rewrite sum_list_with_app. simpl.
      destruct (Hslots Hp) as [? | Heq]; [left; by apply Exists_fatal_snoc |].
      destruct it as [|test so se v]; simpl in Hset.
      * subst stop. right. simpl in *. lia.
      * destruct stop; simpl in *.
        -- left. apply Exists_app. right. by apply Exists_cons_hd.
        -- right. lia.
    + done.
    + intros Hp. destruct (not_joined _ _ _ _ Hw eq_refl (Hjoin Hp)).
    + simpl in Hh. destruct stop; simpl in Hh; lia.
  - (* a worker raises *)
    destruct (replace_worker _ _ _ (th, Crashed e) Hw) as (Hl & Hall & Hsum).
    pose proof (holders_insert _ _ _ (th, Crashed e) Hw) as Hh.
    assert (Ht : tracks (th, Raising e)).
    { rewrite Forall_lookup in Htr. by apply (Htr i). }
    split; simpl.
    + by rewrite Hl.
    + by apply Hall.
    + by apply Hall.
    + split; [done |]. intros Hp. specialize (Hsum owing).
      unfold owing at 2 4 in Hsum. simpl in Hsum.
      rewrite sum_list_with_app. simpl.
      destruct (Hslots Hp) as [? | Heq]; [left; by apply Exists_fatal_snoc |].
      right. lia.
    + done.
    + intros Hp. destruct (not_joined _ _ _ _ Hw eq_refl (Hjoin Hp)).
    + simpl in Hh. lia.
  - (* a get *)
    destruct Hl as [Hp Hlt]. rewrite Ho in *.
    assert (Hclear : interrupted (pending (objects s)) = false).
    { destruct (interrupted (pending (objects s))); [| done].
      destruct (Hmark eq_refl) as [_ Hph]. by rewrite Hp in Hph. }
    destruct it as [|test so se v].
    + rewrite on_item_no_result in Hm. injection Hm as <- <-.
      split; simpl; try done.
      * split; [lia |]. intros _. destruct (Hslots Hp) as [Hex | Heq].
        -- left. by apply Exists_cons in Hex as [? | ?].
        -- right. simpl in Heq. lia.
      * congruence.
    + destruct (on_item_result _ _ _ _ _ _ _ _ _ Hm)
        as (Hfin & Hns & Hri & _).
      destruct r as [e | []]; [destruct e |]; simpl;
        (split; simpl; rewrite ?Hns, ?Hfin; try done; try congruence).
      split; [done |]. intros _. destruct (Hslots Hp) as [Hex | Heq].
      * left. apply Exists_cons in Hex as [Hfatal | ?]; [| done].
        destruct (on_item_fatal now (workers s).*1 (main s) _ Hfatal)
          as (e & m' & Hon). congruence.
      * right. simpl in Heq. lia.
  - (* a timeout *)
    destruct Hl as [Hp Hlt]. rewrite on_empty_frame in Hm.
    injection Hm as <- <-. split; simpl; try done.
    + split; [done |]. intros _. by apply Hslots.
    + intros Hi. destruct (Hmark Hi) as [_ Hph]. by rewrite Hp in Hph.
  - (* the handler marks the queue *)
    rewrite on_interrupt_frame in Hm. injection Hm as <- <-.
    split; simpl; done.
  - (* past the loop *)
    split; simpl; try done.
    intros Hi. destruct (Hmark Hi) as [_ Hph]. by rewrite Hp in Hph.
  - (* the tests still running are listed *)
    destruct (on_leave_frame (workers s).*1 (main s)) as [lines Hon].
    rewrite Hon in Hm. injection Hm as <- <-.
    split; simpl; try done.
    intros Hi. by destruct (Hmark Hi) as [? _].
  - (* the joins *)
    split; simpl; try done.
    intros Hi. by destruct (Hmark Hi) as [? _].
Qed.

Lemma sound_exec s tr s' : sound n s -> exec spawn s tr s' -> sound n s'.
Proof.
  intros Hi He. induction He as [|s tr t l t' _ IH Hs]; [done |].
  apply (sound_step t l t'); [by apply IH | done].
Qed.

End any_children.

Section any_children_end.
Context `{Builtins} (spawn : string -> subprocess_result -> Prop).
Context (n : Z).
Hypothesis spawn_total : forall test, exists r, spawn test r.

Lemma sum_owing_joined (ws : list (MultiprocessThread * position)) :
  Forall (fun w => terminated w.2 = true) ws -> sum_list_with owing ws = 0%nat.
Proof.
  induction 1 as [|[th p] ws Hp _ IH]; [done |]. simpl in *.
  unfold owing at 1. simpl. by rewrite Hp.
Qed.

(** Until the function has returned or raised, some thread can take a
    step other than a timeout. *)
Lemma sound_progress s :
  sound n s -> ended (at_phase s) = false ->
  exists l s', step spawn s l s' /\ moves [l] = 1%nat.
Proof.
  intros [[Hu Hlen] Htr Hst [Hf0 Hslots] Hmark Hjoin _] Hp.
  destruct (decide (Forall (fun w : MultiprocessThread * position =>
                              terminated w.2 = true) (workers s)))
    as [Hall | Hsome].
  2:{ apply not_Forall_Exists in Hsome; [| apply _].
      apply Exists_exists in Hsome as ([th p] & Hin & Hnt). simpl in Hnt.
      apply list_elem_of_lookup in Hin as [i Hw].
      apply (worker_progress spawn spawn_total s i th p Hw).
      by destruct (terminated p). }
  destruct (at_phase s) eqn:Hph; try done.
  - destruct (decide (finished (main s) < use_mp (ns (regrtest (main s)))))
      as [Hlt | Hge].
    + destruct (output (objects s)) as [|it rest] eqn:Ho.
      * destruct (Hslots eq_refl) as [Hex | Heq].
        -- by apply Exists_nil in Hex.
        -- rewrite (sum_owing_joined _ Hall) in Heq. simpl in Heq. lia.
      * destruct (on_item 0%float (workers s).*1 it (main s)) as [r m] eqn:Hon.
        eexists _, _. split; [by eapply step_recv | done].
    + eexists _, _. split; [by eapply step_loop_exit | done].
  - destruct (on_interrupt (main s)) as [r m] eqn:Hon.
    eexists _, _. split; [by eapply step_mark | done].
  - destruct (on_leave (workers s).*1 (main s)) as [r m] eqn:Hon.
    eexists _, _. split; [by eapply step_waiting | done].
  - eexists _, _. split; [by apply step_join | done].
Qed.

(** From every state of a run the return of the function, or the
    exception it raises, can be reached. *)
Lemma sound_ends s :
  sound n s ->
  exists tr s', exec spawn s tr s' /\ ended (at_phase s') = true.
Proof.
  remember (weight s) as k eqn:Hk. revert s Hk.
  induction (lt_wf k) as [k _ IH]. intros s -> Hinv.
  destruct (ended (at_phase s)) eqn:Hp.
  { exists [], s. split; [apply exec_nil | done]. }
  destruct (sound_progress s Hinv Hp) as (l & t & Hs & Hl).
  pose proof (weight_step spawn _ _ _ Hs) as Hw.
  destruct (IH (weight t) ltac:(lia) t eq_refl) as (tr & t' & He & Hr).
  { by apply (sound_step spawn n s l t). }
  exists (l :: tr), t'. split; [by eapply exec_cons | done].
Qed.

End any_children_end.

(** ** Interruption *)

Section interruption.
Context `{Builtins} (spawn : string -> subprocess_result -> Prop).

Lemma mark_interrupted_id (p : MultiprocessIterator) :
  interrupted p = true -> mark_interrupted p = p.
Proof. destruct p as [i t]. simpl. by intros ->. Qed.

Lemma exec_snoc_inv s tr l s'' :
  exec spawn s (tr ++ [l]) s'' ->
  exists s', exec spawn s tr s' /\ step spawn s' l s''.
Proof.
  intros He. remember (tr ++ [l]) as tr0 eqn:Heq.
  destruct He as [|s tr' s' l' s'' He' Hs].
  - by destruct tr.
  - apply app_inj_tail in Heq as [-> ->]. by exists s'.
Qed.

Lemma exec_app_inv s tr1 tr2 s'' :
  exec spawn s (tr1 ++ tr2) s'' ->
  exists s', exec spawn s tr1 s' /\ exec spawn s' tr2 s''.
Proof.
  revert s''. induction tr2 as [|l tr2 IH] using rev_ind; intros s''.
  - rewrite app_nil_r. intros He. exists s''. split; [done | apply exec_nil].
  - rewrite app_assoc. intros (s1 & He & Hs)%exec_snoc_inv.
    destruct (IH _ He) as (s' & H1 & H2). exists s'. split; [done |].
    by eapply exec_snoc.
Qed.

Lemma claims_app tr tr' : claims (tr ++ tr') = claims tr ++ claims tr'.
Proof. unfold claims. apply bind_app. Qed.

(** A step taken under the mark: the mark stays, no call of [__next__]
    passes the test of the flag, and a test is handed out only by the
    worker that stood past that test already. *)
Lemma marked_step s l s' :
  interrupted (pending (objects s)) = true -> step spawn s l s' ->
  interrupted (pending (objects s')) = true
  /\ is_enter l = false
  /\ (holders (workers s') + length (claims [l]) <= holders (workers s))%nat
  /\ (forall i th, workers s' !! i = Some (th, Locked) ->
        workers s !! i = Some (th, Locked))
  /\ (forall i test, l = Claim i test ->
        exists th, workers s !! i = Some (th, Locked))
  /\ (is_claim l = false -> pending (objects s') = pending (objects s)).
Proof.
  intros Hi Hs.
  assert (Hkeep : forall i (w w' : MultiprocessThread * position),
            workers s !! i = Some w -> holds_lock w'.2 = false ->
            (holders (<[i := w']> (workers s)) + (if holds_lock w.2 then 1 else 0)
             = holders (workers s))%nat
            /\ forall j th, <[i := w']> (workers s) !! j = Some (th, Locked) ->
                 workers s !! j = Some (th, Locked)).
  { intros i w w' Hw Hw'. split.
    - pose proof (holders_insert _ _ _ w' Hw) as Hh. rewrite Hw' in Hh. lia.
    - intros j th Hj. destruct (decide (i = j)) as [-> | Hne].
      + rewrite list_lookup_insert_eq in Hj by (by eapply lookup_lt_Some).
        injection Hj as ->. done.
      + by rewrite list_lookup_insert_ne in Hj. }
  destruct Hs as [s i th Hw Hfree Hflag | s i th Hw Hfree Hflag
                 | s i th now test p Hw Hn | s i th msg p Hw Hn
                 | s i th test r Hw Hsp | s i th it stop Hw | s i th e Hw
                 | s now it rest r m Hl Ho Hm | s now r m Hl Ho Hm
                 | s r m Hp Hm
                 | s Hp Hf | s r m Hp Hm | s Hp Hall]; simpl.
  - congruence.
  - destruct (Hkeep i _ (th, Putting NoResult true) Hw eq_refl) as [Hh Hl].
    simpl in Hh. split_and!; try done. lia.
  - destruct (next_tests_claims _ _ _ Hn) as [_ Hi'].
    destruct (Hkeep i _ ({| current_test := Some test; start_time := Some now |},
                         Awaiting test) Hw eq_refl) as [Hh Hl].
    simpl in Hh. split_and!; try done.
    + congruence.
    + lia.
    + intros j test' [= <- <-]. by exists th.
  - destruct (next_tests_raises _ _ _ Hn) as (-> & _).
    destruct (Hkeep i _ (th, Putting NoResult true) Hw eq_refl) as [Hh Hl].
    simpl in Hh. split_and!; try done. lia.
  - destruct (after_child_settled test r) as (_ & _ & _ & Hfree).
    destruct (Hkeep i _ ({| current_test := None; start_time := start_time th |},
                         after_child test r) Hw Hfree) as [Hh Hl].
    simpl in Hh. split_and!; try done. lia.
  - destruct (Hkeep i _ (th, if stop then Finished else Idle) Hw
                ltac:(by destruct stop)) as [Hh Hl].
    simpl in Hh. split_and!; try done. lia.
  - destruct (Hkeep i _ (th, Crashed e) Hw eq_refl) as [Hh Hl].
    simpl in Hh. split_and!; try done. lia.
  - split_and!; try done. lia.
  - split_and!; try done. lia.
  - split_and!; try done; [lia |]. intros _. by rewrite mark_interrupted_id.
  - split_and!; try done. lia.
  - split_and!; try done. lia.
  - split_and!; try done. lia.
Qed.

Lemma marked_exec s tr s' :
  interrupted (pending (objects s)) = true -> exec spawn s tr s' ->
  interrupted (pending (objects s')) = true
  /\ Forall (fun l => is_enter l = false) tr
  /\ (holders (workers s') + length (claims tr) <= holders (workers s))%nat
  /\ (forall i th, workers s' !! i = Some (th, Locked) ->
        workers s !! i = Some (th, Locked))
  /\ (forall i test, (i, test) ∈ claims tr ->
        exists th, workers s !! i = Some (th, Locked))
  /\ (claims tr = [] -> pending (objects s') = pending (objects s)).
Proof.
  intros Hi He. induction He as [|s tr t l t' _ IH Hs].
  { split_and!; try done. - simpl. lia. - intros i test []%elem_of_nil. }
  destruct (IH Hi) as (Hi1 & Hen & Hh & Hl & Hc & Hp).
  destruct (marked_step _ _ _ Hi1 Hs) as (Hi2 & Hen2 & Hh2 & Hl2 & Hc2 & Hp2).
  rewrite claims_app, length_app. split_and!.
  - done.
  - apply Forall_app. split; [done |]. by apply Forall_singleton.
  - lia.
  - intros i th Hw. by apply Hl, Hl2.
  - intros i test [Hin | Hin]%elem_of_app; [by eapply Hc |].
    destruct l; simpl in Hin; try (by apply elem_of_nil in Hin).
    apply list_elem_of_singleton in Hin as [= <- <-].
    destruct (Hc2 _ _ eq_refl) as [th Hw]. exists th. by apply Hl.
  - intros [Hn1 Hn2]%app_eq_nil. rewrite <- (Hp Hn1). apply Hp2.
    by destruct l.
Qed.

(** While the main thread stands in its handler before the writes, the
    other threads move and the queue is as the workers leave it. *)
Lemma handling_exec s tr s' :
  at_phase s = Handling -> exec spawn s tr s' -> Mark ∉ tr ->
  at_phase s' = Handling
  /\ interrupted (pending (objects s')) = interrupted (pending (objects s))
  /\ main s' = main s.
Proof.
  intros Hp He. induction He as [|s tr t l t' _ IH Hs]; [done |].
  intros Hm. destruct (IH Hp) as (Hp1 & Hi1 & Hm1).
  { intros Hin. apply Hm, elem_of_app. by left. }
  rewrite <- Hi1, <- Hm1. clear IH Hi1 Hm1.
  destruct Hs as [u i th Hw Hfree Hflag | u i th Hw Hfree Hflag
                 | u i th now test p Hw Hn | u i th msg p Hw Hn
                 | u i th test r Hw Hsp | u i th it stop Hw | u i th e Hw
                 | u now it rest r m [Hl _] Ho Hm' | u now r m [Hl _] Ho Hm'
                 | u r m Hp' Hm'
                 | u Hp' Hf | u r m Hp' Hm' | u Hp' Hall]; simpl;
    try done; try congruence.
  - by destruct (next_tests_claims _ _ _ Hn) as [_ ->].
  - by destruct (next_tests_raises _ _ _ Hn) as (-> & _).
  - destruct Hm. apply elem_of_app. right. apply list_elem_of_here.
Qed.

(** A worker that publishes a result for a child that exited with code 0
    returns [False]. *)
Lemma handle_exit_zero_result test stdout stderr test' stdout' stderr' result stop :
  handle_exit test 0 stdout stderr =
    inr (Result test' stdout' stderr' result, stop) ->
  stop = false.
Proof.
  unfold handle_exit. destruct (rpartition (strip stdout)) as [[h sep] t]. simpl.
  destruct (negb (truthy t)); [discriminate |].
  destruct (json_loads t); [| discriminate]. by intros [= _ _ _ _ <-].
Qed.

(** The main thread on a result of kind [INTERRUPTED]: it records the
    result and catches the [KeyboardInterrupt] it raises; the queue is
    not marked yet. *)
Lemma recv_interrupted s s' test stdout stderr second result :
  record INTERRUPTED second result ->
  step spawn s (Recv (Result test stdout stderr result)) s' ->
  pending (objects s') = pending (objects s)
  /\ accumulated (regrtest (main s')) =
       accumulated (regrtest (main s)) ++ [(test, result)]
  /\ at_phase s' = Handling.
Proof.
  intros Hr Hs.
  inversion Hs as [| | | | | | | s0 now it rest r m Hl Ho Hm | | | | |]; subst.
  rewrite (on_item_interrupted _ _ _ _ _ _ second) in Hm by done.
  by injection Hm as <- <-.
Qed.

(** The handler: both flags are set, and the main thread is past its
    loop. *)
Lemma mark_sets_flags s s' :
  step spawn s Mark s' ->
  interrupted (pending (objects s')) = true
  /\ regrtest_interrupted (regrtest (main s')) = true
  /\ tests (pending (objects s')) = tests (pending (objects s))
  /\ workers s' = workers s
  /\ at_phase s' = Leaving.
Proof.
  intros Hs. inversion Hs as [| | | | | | | | | s0 r m Hp Hm | | |]; subst.
  rewrite on_interrupt_frame in Hm. by injection Hm as <- <-.
Qed.

End interruption.

(** C7, as amended.  Once the iterator is marked interrupted it stays so,
    and no call of [__next__] passes the test of the flag any more: a
    call that tests it raises [StopIteration], whatever tests the
    iterator holds.  The mark is written without the lock, so a call
    that had passed the test before still hands out a test: after the
    mark at most one test is handed out, to a worker that stood inside
    [__next__] when the mark was written, and none when no worker stood
    there. *)
Theorem marked_queue_hands_out_at_most_one `{Builtins} spawn
  (regrtest : Regrtest) (tests0 : list string) (tr0 : list label)
  (s : system) (tr : list label) (s' : system) :
  exec spawn (init regrtest tests0) tr0 s ->
  interrupted (pending (objects s)) = true ->
  exec spawn s tr s' ->
  interrupted (pending (objects s')) = true
  /\ __next__ (pending (objects s')) =
       (inl (StopIteration "tests interrupted"), pending (objects s'))
  /\ Forall (fun l => is_enter l = false) tr
  /\ (claims tr).*2 ++ tests (pending (objects s')) = tests (pending (objects s))
  /\ (length (claims tr) <= 1)%nat
  /\ (forall i test, (i, test) ∈ claims tr ->
        exists th, workers s !! i = Some (th, Locked))
  /\ (lock_free (workers s) = true ->
      claims tr = [] /\ pending (objects s') = pending (objects s)).
Proof.
  intros He0 Hi He.
  pose proof (sound_init (use_mp (ns regrtest)) regrtest tests0 eq_refl) as Hs0.
  destruct (sound_exec spawn _ _ _ _ Hs0 He0) as [_ _ _ _ _ _ Hlock].
  destruct (marked_exec spawn _ _ _ Hi He) as (Hi' & Hen & Hh & _ & Hc & Hp).
  split_and!; try done.
  - by apply next_interrupted.
  - apply (claims_exec spawn _ _ _ He).
  - lia.
  - intros Hfree%lock_free_holders.
    assert (claims tr = []) as Hnil; [| by split; [| apply Hp]].
    destruct (claims tr); [done | simpl in Hh; lia].
Qed.

Lemma interrupt_published_reached :
  exec (H := example_builtins) example_spawn
    (init (example_regrtest 1) interrupt_tests) publish_trace
    interrupt_published.
Proof.
  apply (acts_sound _ publish_schedule); [reflexivity |].
  simpl. unfold example_spawn. repeat split; intros th test [=]; by subst.
Qed.

Lemma interrupt_caught_reached :
  step (H := example_builtins) example_spawn interrupt_published
    (Recv (Result "test_int" "" "" interrupted_record)) interrupt_caught.
Proof. by apply (main_move_sound (H := example_builtins) _ 1%float). Qed.

Lemma interrupt_marked_run :
  exec (H := example_builtins) example_spawn interrupt_caught
    (Mark :: marked_trace)
    {| objects := {| pending := {| interrupted := true; tests := ["test_b"] |};
                     output := [NoResult] |};
       workers := [({| current_test := None; start_time := Some 0%float |},
                    Finished)];
       main := main interrupt_received;
       at_phase := Returned |}.
Proof.
  apply (acts_sound _ (Main 1%float :: marked_schedule)); [reflexivity |].
  simpl. repeat split; intros th test [=].
Qed.

Lemma interrupt_received_reached :
  exec (H := example_builtins) example_spawn
    (init (example_regrtest 1) interrupt_tests)
    (publish_trace
     ++ [Recv (Result "test_int" "" "" interrupted_record); Mark])
    interrupt_received.
Proof.
  apply (acts_sound _ (publish_schedule ++ [Main 1%float; Main 1%float]));
    [reflexivity |].
  simpl. unfold example_spawn. repeat split; intros th test [=]; by subst.
Qed.

Lemma marked_queue_hands_out_at_most_one_witness :
  exists s',
    exec (H := example_builtins) example_spawn
      (init (example_regrtest 1) interrupt_tests)
      (publish_trace
       ++ [Recv (Result "test_int" "" "" interrupted_record); Mark])
      interrupt_received
    /\ interrupted (pending (objects interrupt_received)) = true
    /\ exec (H := example_builtins) example_spawn interrupt_received
         marked_trace s'
    /\ tests (pending (objects s')) = ["test_b"]
    /\ at_phase s' = Returned.
Proof.
  pose proof (acts_sound (H := example_builtins) example_spawn marked_schedule
                interrupt_received _ _ eq_refl
                ltac:(simpl; repeat split; intros th test [=])) as He.
  eexists. split; [exact interrupt_received_reached |].
  split; [done |]. split; [exact He |].
  destruct (marked_queue_hands_out_at_most_one (H := example_builtins)
              example_spawn _ _ _ _ _ _ interrupt_received_reached eq_refl He)
    as (_ & _ & _ & _ & _ & _ & Hp).
  destruct (Hp eq_refl) as [_ ->]. done.
Defined.

Lemma overtaken_reached :
  exec (H := example_builtins) example_spawn
    (init (example_regrtest 2) three_tests) overtaken_trace overtaken.
Proof.
  apply (acts_sound _ overtaken_schedule).
  - vm_compute. reflexivity.
  - simpl. unfold example_spawn. repeat split; intros th test [=]; by subst.
Qed.

(** C7 as stated fails: the second worker had passed the test of the
    flag when the main thread marked the queue, and its call, the current
    one, hands out the next test after the mark. *)
Lemma marked_queue_hands_out_a_test :
  exists s',
    exec (H := example_builtins) example_spawn
      (init (example_regrtest 2) three_tests) overtaken_trace overtaken
    /\ interrupted (pending (objects overtaken)) = true
    /\ step (H := example_builtins) example_spawn overtaken
         (Claim 1 "test_b") s'
    /\ tests (pending (objects s')) = ["test_c"]
    /\ workers s' !! 1%nat =
         Some ({| current_test := Some "test_b"; start_time := Some 0%float |},
               Awaiting "test_b").
Proof.
  eexists. split; [exact overtaken_reached |]. split; [done |]. split.
  - by apply (work_sound (H := example_builtins) example_spawn 0%float 1
                (inl KeyboardInterrupt)).
  - done.
Qed.

(** C5, as amended.  A worker that publishes a result of kind
    [INTERRUPTED] (its child exited with code 0) returns [False] from
    [_runtest]: its loop goes on with another call of [next].  It is the
    main thread that ends the claims.  When it receives that result it
    records it and catches the [KeyboardInterrupt] it raises; until its
    handler has written the mark, the queue is unmarked and the workers
    go on.  Once the mark is written both flags are set and the main
    thread is past its loop; from then on no call of [__next__] passes
    the test of the flag, and at most one more test is handed out, to a
    worker that had passed that test before the mark. *)
Theorem interrupted_result_ends_claims `{Builtins} spawn
  (regrtest : Regrtest) (tests0 : list string) (tr0 : list label)
  (s s' : system) (tr : list label) (s'' : system)
  (test stdout stderr : string) (second result : pyval) :
  record INTERRUPTED second result ->
  exec spawn (init regrtest tests0) tr0 s ->
  step spawn s (Recv (Result test stdout stderr result)) s' ->
  exec spawn s' tr s'' ->
  (forall stdout0 stderr0 stop,
     handle_exit test 0 stdout0 stderr0 =
       inr (Result test stdout stderr result, stop) -> stop = false)
  /\ accumulated (runtest_mp.regrtest (main s')) =
       accumulated (runtest_mp.regrtest (main s)) ++ [(test, result)]
  /\ at_phase s' = Handling
  /\ (Mark ∉ tr ->
      at_phase s'' = Handling
      /\ interrupted (pending (objects s'')) = false)
  /\ forall tr1 tr2,
       tr = tr1 ++ Mark :: tr2 ->
       interrupted (pending (objects s'')) = true
       /\ regrtest_interrupted (runtest_mp.regrtest (main s'')) = true
       /\ match at_phase s'' with
          | Leaving | Joining | Returned => True
          | Draining | Handling | Raised _ => False
          end
       /\ Forall (fun l => is_enter l = false) tr2
       /\ (length (claims tr2) <= 1)%nat.
Proof.
  intros Hr He0 Hs He.
  pose proof (sound_init (use_mp (ns regrtest)) regrtest tests0 eq_refl) as Hs0.
  pose proof (sound_exec spawn _ _ _ _ Hs0 He0) as Hsound.
  destruct (recv_interrupted spawn _ _ _ _ _ _ _ Hr Hs) as (Hpend & Hacc & Hp).
  assert (Hclear : interrupted (pending (objects s)) = false).
  { destruct (interrupted (pending (objects s))) eqn:Hi; [| done].
    destruct (sound_marked _ _ Hsound Hi) as [_ Hph].
    inversion Hs as [| | | | | | | s0 now it rest r m [Hl _] Ho Hm | | | | |];
      subst.
    by rewrite Hl in Hph. }
  split; [intros ????; by eapply handle_exit_zero_result |].
  split; [done |]. split; [done |]. split.
  { intros Hm. destruct (handling_exec spawn _ _ _ Hp He Hm) as (? & Hi & _).
    split; [done |]. by rewrite Hi, Hpend. }
  intros tr1 tr2 ->.
  apply exec_app_inv in He as (s1 & He1 & He2).
  change (Mark :: tr2) with ([Mark] ++ tr2) in He2.
  apply exec_app_inv in He2 as (s2 & Hmark & He2).
  apply (exec_snoc_inv spawn s1 []) in Hmark as (s1' & Hnil & Hmark).
  assert (s1' = s1) as ->.
  { remember [] as nil eqn:Heq. destruct Hnil as [| ? tr' ? ? ? _ _]; [done |].
    by destruct tr'. }
  destruct (mark_sets_flags spawn _ _ Hmark) as (Hi2 & _).
  destruct (marked_exec spawn _ _ _ Hi2 He2) as (Hi'' & Hen & Hh & _).
  assert (Hreach : exec spawn (init regrtest tests0)
                     (((tr0 ++ [Recv (Result test stdout stderr result)])
                       ++ tr1) ++ [Mark]) s2).
  { eapply exec_snoc; [| exact Hmark].
    eapply exec_trans; [| exact He1]. by eapply exec_snoc. }
  pose proof (sound_exec spawn _ _ _ _ Hs0 Hreach) as Hsound2.
  pose proof (sound_exec spawn _ _ _ _ Hsound2 He2) as Hsound''.
  destruct (sound_marked _ _ Hsound'' Hi'') as [Hri Hph].
  split_and!; try done.
  pose proof (sound_lock _ _ Hsound2). lia.
Qed.

Lemma interrupted_result_ends_claims_witness :
  exists s'',
    exec (H := example_builtins) example_spawn
      (init (example_regrtest 1) interrupt_tests) publish_trace
      interrupt_published
    /\ step (H := example_builtins) example_spawn interrupt_published
         (Recv (Result "test_int" "" "" interrupted_record)) interrupt_caught
    /\ exec (H := example_builtins) example_spawn interrupt_caught
         (Mark :: marked_trace) s''
    /\ interrupted (pending (objects s'')) = true
    /\ tests (pending (objects s'')) = ["test_b"]
    /\ at_phase s'' = Returned.
Proof.
  eexists. split; [exact interrupt_published_reached |].
  split; [exact interrupt_caught_reached |].
  split; [exact interrupt_marked_run |].
  destruct (interrupted_result_ends_claims (H := example_builtins)
              example_spawn _ _ _ _ _ _ _ "test_int" "" "" (PyStr "")
              interrupted_record (or_intror eq_refl)
              interrupt_published_reached interrupt_caught_reached
              interrupt_marked_run)
    as (_ & _ & _ & _ & Hm).
  destruct (Hm [] marked_trace eq_refl) as (Hi & _).
  split; [exact Hi | done].
Defined.

(** C5 as stated fails: the worker that has published the interrupted
    result claims the next test when it runs before the main thread has
    read the result. *)
Lemma worker_claims_after_interrupted_result :
  exists s,
    exec (H := example_builtins) example_spawn
      (init (example_regrtest 1) interrupt_tests)
      (publish_trace ++ [Enter 0; Claim 0 "test_b"]) s
    /\ workers s !! 0%nat =
         Some ({| current_test := Some "test_b"; start_time := Some 0%float |},
               Awaiting "test_b").
Proof.
  eexists. split.
  - apply (acts_sound _ (publish_schedule
                         ++ [Work 0%float 0 (inl KeyboardInterrupt);
                             Work 0%float 0 (inl KeyboardInterrupt)]));
      [reflexivity |].
    simpl. unfold example_spawn. repeat split; intros th test [=]; by subst.
  - done.
Qed.

(** * More of the code *)

(** X1.  Whatever the children do (exit codes, missing results,
    exceptions, interrupts), at every point of every execution the tests
    handed out so far, followed by the tests still queued, are the list
    the run started with: the iterator hands out the tests in order, each
    at most once.  The queue is marked interrupted only by the handler of
    the main thread, which has then set [regrtest.interrupted] and left
    its loop for good. *)
Theorem tests_are_handed_out_in_order `{Builtins} spawn (regrtest : Regrtest)
  (tests0 : list string) (tr : list label) (s : system) :
  exec spawn (init regrtest tests0) tr s ->
  (claims tr).*2 ++ tests (pending (objects s)) = tests0
  /\ (interrupted (pending (objects s)) = true ->
      regrtest_interrupted (runtest_mp.regrtest (main s)) = true
      /\ match at_phase s with
         | Leaving | Joining | Returned => True
         | Draining | Handling | Raised _ => False
         end).
Proof.
  intros He. split; [apply (claims_exec spawn _ _ _ He) |].
  pose proof (sound_init (use_mp (ns regrtest)) regrtest tests0 eq_refl) as Hi.
  by destruct (sound_exec spawn _ _ _ _ Hi He).
Qed.

Lemma tests_are_handed_out_in_order_witness :
  exec (H := example_builtins) passing_spawn
    (init (example_regrtest 2) two_tests) full_trace returned
  /\ (claims full_trace).*2 ++ tests (pending (objects returned)) = two_tests.
Proof.
  split; [exact full_run |].
  by destruct (tests_are_handed_out_in_order (H := example_builtins)
                 passing_spawn (example_regrtest 2) two_tests full_trace
                 returned full_run) as [Hc _].
Defined.

(** X2.  A run never hangs, whatever the children do, as long as each of
    them ends: an execution makes at most [5 k + 4 n + 3] steps other
    than timeouts, and from every point the function can still return or
    raise; a worker whose [_runtest] raises puts the no-result signal
    the loop waits for.  When the function has returned, every worker has
    ended. *)
Theorem run_never_hangs `{Builtins} spawn (regrtest : Regrtest)
  (tests0 : list string) (tr : list label) (s : system) :
  (forall test, exists r, spawn test r) ->
  exec spawn (init regrtest tests0) tr s ->
  (moves tr <= 5 * length tests0 + 4 * Z.to_nat (use_mp (ns regrtest)) + 3)%nat
  /\ (exists tr' s', exec spawn s tr' s' /\ ended (at_phase s') = true)
  /\ (at_phase s = Returned ->
      Forall (fun w => terminated w.2 = true) (workers s)).
Proof.
  intros Ht He.
  pose proof (sound_init (use_mp (ns regrtest)) regrtest tests0 eq_refl) as Hi0.
  pose proof (sound_exec spawn _ _ _ _ Hi0 He) as Hi.
  split.
  { pose proof (weight_exec spawn _ _ _ He) as Hw. unfold weight in Hw at 2.
    simpl in Hw. rewrite sum_replicate in Hw. unfold position_weight in Hw.
    simpl in Hw. lia. }
  split; [by eapply sound_ends | by destruct Hi].
Qed.

Lemma run_never_hangs_witness :
  exists tr' s',
    exec (H := example_builtins) example_spawn interrupt_published tr' s'
    /\ ended (at_phase s') = true.
Proof.
  by destruct (run_never_hangs (H := example_builtins) example_spawn
                 (example_regrtest 1) interrupt_tests _ interrupt_published
                 (fun test => ex_intro _ (example_child test) eq_refl)
                 interrupt_published_reached) as (_ & Hend & _).
Defined.

(** X3.  In every state of a run a worker's [current_test] is set exactly
    while its child process runs (the [finally] of [_runtest] clears it),
    and a worker with a current test has a start time.  So the tests
    [get_running] lists are tests whose child has not ended yet, and when
    the function has returned no worker has a current test. *)
Theorem current_test_tracks_child `{Builtins} spawn (regrtest : Regrtest)
  (tests0 : list string) (tr : list label) (s : system) :
  exec spawn (init regrtest tests0) tr s ->
  Forall tracks (workers s)
  /\ (forall now entry,
        entry ∈ get_running now (fst <$> workers s) ->
        exists i th test,
          workers s !! i = Some (th, Awaiting test)
          /\ current_test th = Some test /\ slow_entry now th entry)
  /\ (at_phase s = Returned ->
      Forall (fun w => current_test w.1 = None) (workers s)).
Proof.
  intros He.
  pose proof (sound_init (use_mp (ns regrtest)) regrtest tests0 eq_refl) as Hi0.
  destruct (sound_exec spawn _ _ _ _ Hi0 He) as [_ Htr _ _ _ Hjoin].
  split; [done |]. split.
  - intros now entry (th & Hin & Hslow)%get_running_slow.
    apply list_elem_of_fmap in Hin as ([th' p] & -> & Hin).
    apply list_elem_of_lookup in Hin as [i Hw].
    destruct Hslow as (test & start & Hc & Hrest). simpl in *.
    rewrite Forall_lookup in Htr. destruct (Htr i _ Hw) as [Ha _].
    simpl in Ha. rewrite Hc in Ha.
    destruct p; try done. injection Ha as <-.
    exists i, th', test. split; [done | split; [done |]].
    by exists test, start.
  - intros Hr. specialize (Hjoin Hr).
    rewrite Forall_lookup in Htr, Hjoin. apply Forall_lookup.
    intros i [th p] Hw. destruct (Htr i _ Hw) as [Ha _].
    specialize (Hjoin i _ Hw). simpl in *. rewrite Ha. by destruct p.
Qed.

Lemma current_test_tracks_child_witness :
  Forall tracks (workers returned)
  /\ Forall (fun w => current_test w.1 = None) (workers returned).
Proof.
  destruct (current_test_tracks_child (H := example_builtins) passing_spawn
              (example_regrtest 2) two_tests full_trace returned full_run)
    as (Ht & _ & Hr).
  split; [exact Ht | exact (Hr eq_refl)].
Defined.

Lemma on_leave_held (ws : list (MultiprocessThread * position)) m :
  Forall tracks ws ->
  on_leave ws.*1 m =
  (inr tt,
   {| regrtest := regrtest m; finished := finished m;
      test_index := test_index m;
      console := console m
                 ++ if nonempty (held ws)
                    then [(Stdout, ("Waiting for " +:+ join ", " (held ws))
                                   +:+ nl)]
                    else [] |}).
Proof.
  intros Htr. unfold on_leave.
  assert ((ws.*1 ≫= fun worker =>
             match current_test worker with
             | Some t => if truthy t then [t] else []
             | None => []
             end) = held ws) as ->.
  { unfold held. induction Htr as [|[th p] ws [Hc _] _ IH]; [done |].
    rewrite fmap_cons, !bind_cons, IH. simpl in *. by rewrite Hc. }
  destruct (nonempty (held ws)); simpl; [done |].
  rewrite app_nil_r. by destruct m.
Qed.

(** X4.  Past its loop the main thread prints one line, "Waiting for"
    followed by the tests whose children have not ended, in the order of
    the workers, and no line when there is none; it changes nothing else
    and goes on to join the workers. *)
Theorem waiting_line_lists_running_children `{Builtins} spawn
  (regrtest : Regrtest) (tests0 : list string) (tr : list label)
  (s s' : system) :
  exec spawn (init regrtest tests0) tr s ->
  step spawn s Waiting s' ->
  console (main s') =
    console (main s)
    ++ (if nonempty (held (workers s))
        then [(Stdout, ("Waiting for " +:+ join ", " (held (workers s)))
                       +:+ nl)]
        else [])
  /\ runtest_mp.regrtest (main s') = runtest_mp.regrtest (main s)
  /\ objects s' = objects s /\ workers s' = workers s
  /\ at_phase s' = Joining.
Proof.
  intros He Hs.
  pose proof (sound_init (use_mp (ns regrtest)) regrtest tests0 eq_refl) as Hi.
  destruct (sound_exec spawn _ _ _ _ Hi He) as [_ Htr _ _ _ _].
  inversion Hs as [| | | | | | | | | | | s0 r m Hp Hm |]; subst.
  rewrite (on_leave_held _ _ Htr) in Hm. by injection Hm as <- <-.
Qed.

Lemma leaving_run :
  exec (H := example_builtins) example_spawn
    (init (example_regrtest 2) interrupt_tests) leaving_trace leaving.
Proof.
  apply (acts_sound _ leaving_schedule).
  - vm_compute. reflexivity.
  - simpl. unfold example_spawn. repeat split; intros th test [=]; by subst.
Qed.

Lemma waiting_line_lists_running_children_witness :
  exec (H := example_builtins) example_spawn
    (init (example_regrtest 2) interrupt_tests) leaving_trace leaving
  /\ step (H := example_builtins) example_spawn leaving Waiting joining
  /\ console (main joining) =
       console (main leaving) ++ [(Stdout, "Waiting for test_b" +:+ nl)].
Proof.
  assert (Hs : step (H := example_builtins) example_spawn leaving Waiting
                 joining).
  { by apply (main_move_sound (H := example_builtins) example_spawn 0%float). }
  split; [exact leaving_run | split; [exact Hs |]].
  by destruct (waiting_line_lists_running_children (H := example_builtins)
                 example_spawn _ _ _ _ _ leaving_run Hs) as [-> _].
Defined.

(** ** The progress lines *)

Section progress_lines.
Context `{Builtins} (spawn : string -> subprocess_result -> Prop).
Context (ns0 : Namespace) (acc0 : list (string * pyval))
  (disp0 : list (Z * string)).

Lemma logged_init regrtest tests0 :
  ns regrtest = ns0 -> accumulated regrtest = acc0 ->
  displayed regrtest = disp0 -> logged ns0 acc0 disp0 (init regrtest tests0).
Proof.
  intros Hn Ha Hd. split; simpl; [done | | done].
  exists [], []. rewrite !app_nil_r. split_and!; try done; simpl; lia.
Qed.

Lemma numbered_more pgo acc disp x :
  (length disp <= length acc)%nat ->
  numbered pgo acc disp -> numbered pgo (acc ++ [x]) disp.
Proof.
  intros Hl Hn i index text Hd. destruct (Hn i index text Hd) as [Hi Hrest].
  split; [done |]. destruct Hrest as (test & result & suffix & Ha & Hrest).
  exists test, result, suffix. split; [| done].
  rewrite lookup_app_l; [done |]. by eapply lookup_lt_Some.
Qed.

Lemma numbered_next pgo acc disp test result suffix :
  length acc = length disp -> (pgo = true -> suffix = "") ->
  numbered pgo acc disp ->
  numbered pgo (acc ++ [(test, result)])
    (disp ++ [(Z.of_nat (length disp) + 1, test +:+ suffix)]).
Proof.
  intros Hl Hs Hn i index text Hd.
  destruct (decide (i < length disp)%nat) as [Hlt | Hge].
  - rewrite lookup_app_l in Hd by done.
    apply (numbered_more pgo acc disp); [lia | done | done].
  - rewrite lookup_app_r in Hd by lia.
    destruct (i - length disp)%nat as [|k] eqn:Hk; [| done].
    injection Hd as <- <-. assert (i = length disp) as -> by lia.
    split; [done |]. exists test, result, suffix.
    rewrite lookup_app_r by lia. rewrite Hl, Nat.sub_diag. done.
Qed.

(** What [on_leave] prints goes to the standard output. *)
Lemma on_leave_stdout ws m :
  exists lines,
    on_leave ws m =
    (inr tt, {| regrtest := regrtest m; finished := finished m;
                test_index := test_index m; console := console m ++ lines |})
    /\ Forall (fun e => e.1 = Stdout) lines.
Proof.
  unfold on_leave. destruct (nonempty _).
  - eexists [_]. split; [done |]. by repeat constructor.
  - exists []. rewrite app_nil_r. by destruct m.
Qed.

Lemma logged_step s l s' :
  logged ns0 acc0 disp0 s -> step spawn s l s' -> logged ns0 acc0 disp0 s'.
Proof.
  intros [Hns (acc & disp & Hacc & Hdisp & Hnum & Hlen & Hph & Hidx) Hcon] Hs.
  assert (Hcalm : if at_phase s is Raised _ then True
                  else length acc = length disp).
  { destruct Hph as [Heq | (e & -> & _)]; [by destruct (at_phase s) | done]. }
  destruct Hs as [s i th Hw Hfree Hflag | s i th Hw Hfree Hflag
                 | s i th now test p Hw Hn | s i th msg p Hw Hn
                 | s i th test r Hw Hsp | s i th it stop Hw | s i th e Hw
                 | s now it rest r m Hl Ho Hm | s now r m Hl Ho Hm
                 | s r m Hp Hm
                 | s Hp Hf | s r m Hp Hm | s Hp Hall];
    try (split; simpl; [done | by exists acc, disp | done]).
  - (* a get *)
    destruct Hl as [Hp Hlt]. rewrite Hp in Hcalm.
    destruct it as [|test so se v].
    { rewrite on_item_no_result in Hm. injection Hm as <- <-.
      split; simpl; [done | | done]. exists acc, disp.
      split_and!; try done; try lia;
      try (intros _; by apply Hidx); by left. }
    destruct (on_item_result _ _ _ _ _ _ _ _ _ Hm)
      as (Hfin & Hns' & Hri & Hacc' & Hrest).
    rewrite Hns in Hrest.
    destruct Hrest as [(Hd & Hc & Hi & e & -> & Herr)
                      | (suffix & Hd & Hsfx & Hc & Hi)].
    + destruct e; try done.
      split; simpl; [congruence | | by rewrite Hc].
      exists (acc ++ [(test, v)]), disp.
      rewrite Hacc', Hacc, Hd, Hdisp, <- app_assoc, length_app. simpl.
      split_and!; try done; try lia.
      * apply numbered_more; [lia | done].
      * right. by eexists.
    + assert (Hlog :
        exists acc disp,
          accumulated (regrtest m) = acc0 ++ acc
          /\ displayed (regrtest m) = disp0 ++ disp
          /\ numbered (pgo ns0) acc disp
          /\ length acc = length disp
          /\ Z.of_nat (length disp) + 1 =
             (if r is inr _ then test_index m else test_index m + 1)).
      { exists (acc ++ [(test, v)]),
          (disp ++ [(Z.of_nat (length disp) + 1, test +:+ suffix)]).
        rewrite Hacc', Hacc, Hd, Hdisp, <- !app_assoc, !length_app, Hi.
        rewrite (Hidx Hp). simpl. split_and!; try done; try lia.
        - by apply numbered_next.
        - destruct r; lia. }
      clear Hacc Hdisp Hnum Hlen Hidx Hph Hcalm.
      destruct Hlog as (acc' & disp' & Ha & Hdd & Hnum & Hlen & Hidx).
      assert (Hcon' : pgo ns0 = true -> Forall (fun e => e.1 = Stdout) (console m)).
      { intros Hpgo. rewrite Hc, Hpgo, andb_false_r, app_nil_r.
        apply Forall_app. split; [by apply Hcon |].
        destruct (truthy so); by repeat constructor. }
      destruct r as [e | []]; [destruct e |]; simpl;
        (split; simpl; [congruence | | done]);
        exists acc', disp'; split_and!; try done; try lia; by left.
  - (* a timeout *)
    destruct Hl as [Hp Hlt]. rewrite Hp in Hcalm. rewrite on_empty_frame in Hm.
    injection Hm as <- <-. split; simpl; [done | | ].
    + exists acc, disp. split_and!; try done; try lia;
      try (intros _; by apply Hidx); by left.
    + intros Hpgo. unfold probe_lines. rewrite Hns, Hpgo, andb_false_r.
      rewrite app_nil_r. by apply Hcon.
  - (* the handler marks the queue *)
    rewrite Hp in Hcalm. rewrite on_interrupt_frame in Hm.
    injection Hm as <- <-. split; simpl; [done | | ].
    + exists acc, disp. split_and!; try done; try lia;
      try (intros _; by apply Hidx); by left.
    + intros Hpgo. apply Forall_app. split; [by apply Hcon |].
      by repeat constructor.
  - (* past the loop *)
    rewrite Hp in Hcalm. split; simpl; [done | | done].
    exists acc, disp. split_and!; try done; try lia;
      try (intros _; by apply Hidx); by left.
  - (* the tests still running are listed *)
    rewrite Hp in Hcalm.
    destruct (on_leave_stdout (workers s).*1 (main s)) as (lines & Hon & Hout).
    rewrite Hon in Hm. injection Hm as <- <-.
    split; simpl; [done | |].
    + exists acc, disp. split_and!; try done; try lia;
      try (intros _; by apply Hidx); by left.
    + intros Hpgo. apply Forall_app. split; [by apply Hcon | done].
  - (* the joins *)
    rewrite Hp in Hcalm. split; simpl; [done | | done].
    exists acc, disp. split_and!; try done; try lia;
      try (intros _; by apply Hidx); by left.
Qed.

Lemma logged_exec s tr s' :
  logged ns0 acc0 disp0 s -> exec spawn s tr s' -> logged ns0 acc0 disp0 s'.
Proof.
  intros Hi He. induction He as [|s tr t l t' _ IH Hs]; [done |].
  apply (logged_step t l t'); [by apply IH | done].
Qed.

End progress_lines.

Lemma noisy_run :
  exec (H := example_builtins) noisy_spawn (init pgo_regrtest ["test_a"])
    noisy_trace noisy_read.
Proof.
  apply (acts_sound _ noisy_schedule).
  - vm_compute. reflexivity.
  - simpl. unfold noisy_spawn. repeat split; intros th test [=]; by subst.
Qed.

(** X5.  The results recorded and the progress lines displayed during a
    run keep step: line [i] carries the index [i + 1] and starts with the
    test of result [i], and every result is recorded before its line is
    displayed.  A result is without a line only when the function has
    raised on it before displaying it: [TypeError] or [ValueError] from
    the unpacking of the result, [TypeError] from the comparison of its
    duration, [OverflowError] from the formatting of its duration.  (An
    interrupt reaches the main thread as a result; one raised in it by a
    signal is outside the model.)  In the loop, [test_index] is one more
    than the number of lines displayed. *)
Theorem progress_lines_are_numbered `{Builtins} spawn (regrtest : Regrtest)
  (tests0 : list string) (tr : list label) (s : system) :
  exec spawn (init regrtest tests0) tr s ->
  exists acc disp,
    accumulated (runtest_mp.regrtest (main s)) = accumulated regrtest ++ acc
    /\ displayed (runtest_mp.regrtest (main s)) = displayed regrtest ++ disp
    /\ numbered (pgo (ns regrtest)) acc disp
    /\ (length disp <= length acc <= S (length disp))%nat
    /\ (length acc = length disp
        \/ exists e, at_phase s = Raised e /\ display_error e = true)
    /\ (at_phase s = Draining ->
        test_index (main s) = Z.of_nat (length disp) + 1).
Proof.
  intros He.
  pose proof (logged_init (ns regrtest) (accumulated regrtest)
                (displayed regrtest) regrtest tests0 eq_refl eq_refl eq_refl)
    as Hi.
  by destruct (logged_exec spawn _ _ _ _ _ _ Hi He).
Qed.

Lemma progress_lines_are_numbered_witness :
  exists acc disp,
    accumulated (regrtest (main returned)) = [] ++ acc
    /\ displayed (regrtest (main returned)) = [] ++ disp
    /\ numbered false acc disp
    /\ length acc = length disp.
Proof.
  destruct (progress_lines_are_numbered (H := example_builtins) passing_spawn
              (example_regrtest 2) two_tests full_trace returned full_run)
    as (acc & disp & Ha & Hd & Hn & _ & Hl & _).
  exists acc, disp. split; [done |]. split; [done |]. split; [done |].
  by destruct Hl as [Hl | (e & He & _)].
Defined.

(** X6.  Under [pgo] the main thread writes nothing to its standard
    error, every progress line is the bare name of the test of its
    result (no duration, no list of running tests), and a timeout of the
    output queue prints nothing. *)
Theorem pgo_mutes_the_parent `{Builtins} spawn (regrtest : Regrtest)
  (tests0 : list string) (tr : list label) (s : system) :
  pgo (ns regrtest) = true ->
  exec spawn (init regrtest tests0) tr s ->
  Forall (fun e => e.1 = Stdout) (console (main s))
  /\ (exists acc disp,
        accumulated (runtest_mp.regrtest (main s)) = accumulated regrtest ++ acc
        /\ displayed (runtest_mp.regrtest (main s)) = displayed regrtest ++ disp
        /\ forall (i : nat) index text,
             disp !! i = Some (index, text) ->
             exists result, acc !! i = Some (text, result))
  /\ (forall s', step spawn s Timeout s' -> main s' = main s).
Proof.
  intros Hpgo He.
  pose proof (logged_init (ns regrtest) (accumulated regrtest)
                (displayed regrtest) regrtest tests0 eq_refl eq_refl eq_refl)
    as Hi.
  destruct (logged_exec spawn _ _ _ _ _ _ Hi He)
    as [Hns (acc & disp & Ha & Hd & Hnum & _) Hcon].
  split; [by apply Hcon |]. split.
  - exists acc, disp. split; [done | split; [done |]].
    intros i index text Hl.
    destruct (Hnum i index text Hl) as (_ & test & result & suffix & Hr & -> & Hs).
    rewrite (Hs Hpgo), append_nil_r. by exists result.
  - intros s' Hs.
    inversion Hs as [| | | | | | | | s0 now r m [Hp Hf] Ho Hm | | | |]; subst.
    rewrite on_empty_frame in Hm. injection Hm as <- <-. simpl.
    unfold probe_lines. rewrite Hns, Hpgo, andb_false_r, app_nil_r.
    by destruct (main s).
Qed.

Lemma pgo_mutes_the_parent_witness :
  exec (H := example_builtins) noisy_spawn (init pgo_regrtest ["test_a"])
    noisy_trace noisy_read
  /\ Forall (fun e => e.1 = Stdout) (console (main noisy_read))
  /\ displayed (regrtest (main noisy_read)) = [(1, "test_a")].
Proof.
  split; [exact noisy_run |]. split; [| done].
  by destruct (pgo_mutes_the_parent (H := example_builtins) noisy_spawn
                 pgo_regrtest ["test_a"] noisy_trace noisy_read eq_refl
                 noisy_run) as [Hc _].
Defined.

(** ** The running tests, the worker's loop and the child *)

Section running_tests.
Context `{Builtins}.

Lemma get_running_app now ws ws' :
  get_running now (ws ++ ws') = get_running now ws ++ get_running now ws'.
Proof. unfold get_running. apply bind_app. Qed.

Lemma get_running_length now ws :
  (length (get_running now ws) <= length ws)%nat.
Proof.
  induction ws as [|w ws IH]; [done |].
  change (w :: ws) with ([w] ++ ws). rewrite get_running_app, !length_app.
  assert (length (get_running now [w]) <= 1)%nat; [| simpl in *; lia].
  unfold get_running. simpl.
  destruct (current_test w), (start_time w); simpl; try lia.
  destruct (negb _); simpl; [lia |]. destruct (PrimFloat.leb _ _); simpl; lia.
Qed.

Lemma get_running_elem now ws entry :
  entry ∈ get_running now ws <->
  exists worker,
    worker ∈ ws /\ slow_entry now worker entry
    /\ current_test worker <> Some "".
Proof.
  unfold get_running. rewrite list_elem_of_bind. split.
  - intros (worker & Hin & Hw). exists worker. split; [done |].
    unfold slow_entry.
    destruct (current_test worker) as [test|]; [| by apply elem_of_nil in Hin].
    destruct (start_time worker) as [start|]; [| by apply elem_of_nil in Hin].
    destruct (truthy test) eqn:Ht; simpl in Hin; [| by apply elem_of_nil in Hin].
    destruct (PrimFloat.leb _ _) eqn:Hle; [| by apply elem_of_nil in Hin].
    apply list_elem_of_singleton in Hin as ->. split.
    + by exists test, start.
    + intros [= ->]. done.
  - intros (worker & Hin & (test & start & Hc & Hs & Hle & ->) & Hne).
    exists worker. split; [| done]. rewrite Hc, Hs.
    assert (truthy test = true) as ->.
    { destruct test; [by destruct Hne | done]. }
    simpl. rewrite Hle. apply list_elem_of_here.
Qed.

End running_tests.

(** X7.  [get_running] lists, in the order of the workers and at most
    one entry each, exactly the workers that have a current test (other
    than the empty name, which [not current_test] skips) whose child has
    been running for [PROGRESS_MIN_TIME] or longer; the entry is the
    test's name followed by the time in seconds. *)
Theorem get_running_lists_the_slow_tests `{Builtins} (now : float)
  (ws ws' : list MultiprocessThread) (entry : string) :
  (entry ∈ get_running now ws <->
   exists worker,
     worker ∈ ws /\ slow_entry now worker entry
     /\ current_test worker <> Some "")
  /\ get_running now (ws ++ ws') = get_running now ws ++ get_running now ws'
  /\ (length (get_running now ws) <= length ws)%nat.
Proof.
  split; [apply get_running_elem |].
  split; [apply get_running_app | apply get_running_length].
Qed.

Section worker_loop.
Context `{Builtins}.

(** What [handle_exit] gives for the child of [test]. *)
Lemma handle_exit_cases test rc so se it stop :
  handle_exit test rc so se = inr (it, stop) ->
  (stop = false /\ exists so' se' v, it = Result test so' se' v)
  \/ (stop = true /\ it = NoResult)
  \/ (stop = true /\ fatal it = true /\ item_tests it = [test]).
Proof.
  unfold handle_exit. destruct (rpartition (strip so)) as [[h sep] t].
  destruct (negb (rc =? 0)).
  { intros [= <- <-]. right. right. done. }
  destruct (negb (truthy t)).
  { intros [= <- <-]. right. by left. }
  destruct (json_loads t); [| done].
  intros [= <- <-]. left. split; [done |]. by eexists _, _, _.
Qed.

(** One iteration of the worker's loop: the queue gave nothing and the
    worker signals that; or it gave a test, and the worker puts that
    test's result and goes on, or puts a last item and stops, or
    raises. *)
Lemma _runtest_cases child now self sh r self' sh' :
  _runtest child now self sh = (r, self', sh') ->
  interrupted (pending sh') = interrupted (pending sh)
  /\ ((r = inr true /\ pending sh' = pending sh
       /\ output sh' = output sh ++ [NoResult])
      \/ exists test,
           tests (pending sh) = test :: tests (pending sh')
           /\ current_test self' = None
           /\ ((r = inr false
                /\ exists so se v,
                     output sh' = output sh ++ [Result test so se v])
               \/ (r = inr true /\ output sh' = output sh ++ [NoResult])
               \/ (r = inr true
                   /\ exists it, output sh' = output sh ++ [it]
                                 /\ fatal it = true /\ item_tests it = [test])
               \/ (exists e, r = inl e /\ output sh' = output sh))).
Proof.
  unfold _runtest.
  destruct (__next__ (pending sh)) as [[e | test] p] eqn:Hn.
  - destruct (next_raises _ _ _ Hn) as [-> _].
    destruct (next_stops _ _ _ Hn) as [msg ->].
    intros [= <- <- <-]. split; [done |]. left. done.
  - destruct (next_claims _ _ _ Hn) as (Hi & Ht & Hi').
    assert (Hint : interrupted p = interrupted (pending sh)) by congruence.
    destruct (child test) as [e | [[rc so] se]].
    { intros [= <- <- <-]. split; [done |]. right. exists test.
      split; [done | split; [done |]]. right. right. right. by exists e. }
    destruct (handle_exit test rc so se) as [e | [it stop]] eqn:Hh.
    { intros [= <- <- <-]. split; [done |]. right. exists test.
      split; [done | split; [done |]]. right. right. right. by exists e. }
    intros [= <- <- <-]. split; [done |]. right. exists test.
    split; [done | split; [done |]].
    destruct (handle_exit_cases _ _ _ _ _ _ Hh)
      as [(-> & so' & se' & v & ->) | [(-> & ->) | (-> & Hf & Hit)]].
    + left. split; [done |]. by exists so', se', v.
    + right. by left.
    + right. right. left. split; [done |]. by exists it.
Qed.

End worker_loop.

(** X8.  The loop of a worker, run on its own, ends within one iteration
    more than there are tests queued, whatever the children do.  It takes
    tests from the front of the queue and puts one result for each, in
    that order; only the last test taken may be without a result.  The
    last item it puts is the no-result signal or the record of a child
    that exited with a code other than zero; when [_runtest] raises, [run]
    puts the signal and raises in turn. *)
Theorem worker_loop_ends `{Builtins} (child : string -> subprocess_result)
  (now : float) (self : MultiprocessThread) (sh : shared) (fuel : nat) :
  (length (tests (pending sh)) < fuel)%nat ->
  exists r self' sh' taken items final,
    run fuel child now self sh = Some (r, self', sh')
    /\ tests (pending sh) = taken ++ tests (pending sh')
    /\ interrupted (pending sh') = interrupted (pending sh)
    /\ output sh' = output sh ++ items ++ [final]
    /\ ((items ++ [final]) ≫= item_tests) `prefix_of` taken
    /\ (length taken <= S (length items))%nat
    /\ Forall (fun it => signal it = 0%nat) items
    /\ (final = NoResult \/ fatal final = true)
    /\ (if r is inl _ then final = NoResult else True).
Proof.
  revert self sh. induction fuel as [|fuel IH]; intros self sh Hlen; [lia |].
  simpl.
  destruct (_runtest child now self sh) as [[r self1] sh1] eqn:Hr.
  destruct (_runtest_cases _ _ _ _ _ _ _ Hr) as [Hint Hcases].
  destruct Hcases as [(-> & Hp & Ho)
                     | (test & Ht & _ & [(-> & so & se & v & Ho)
                                        | [(-> & Ho)
                                          | [(-> & it & Ho & Hf & Hit)
                                            | (e & -> & Ho)]]])].
  - exists (inr tt), self1, sh1, [], [], NoResult. rewrite Hp.
    split_and!; try done; try (simpl; lia). by left.
  - destruct (IH self1 sh1) as (r & self' & sh' & taken & items & final & Hrun
                                & Htk & Hi & Hout & Hpre & Hl & Hsig & Hfin & Hr').
    { rewrite Ht in Hlen. simpl in Hlen. lia. }
    exists r, self', sh', (test :: taken), (Result test so se v :: items), final.
    rewrite Hrun, Ht, Htk, Hout, Ho, Hi, Hint, <- !app_assoc. simpl.
    split_and!; try done; try (simpl; lia).
    + apply prefix_cons. exact Hpre.
    + by apply Forall_cons.
  - exists (inr tt), self1, sh1, [test], [], NoResult.
    split_and!; try done; try (simpl; lia).
    + simpl. apply prefix_nil.
    + by left.
  - exists (inr tt), self1, sh1, [test], [], it.
    split_and!; try done; try (simpl; lia).
    + simpl. by rewrite app_nil_r, Hit.
    + by right.
  - exists (inl e), self1, (put NoResult sh1), [test], [], NoResult.
    simpl. rewrite Ho. split_and!; try done; try (simpl; lia).
    + apply prefix_nil.
    + by left.
Qed.

Lemma worker_loop_ends_witness :
  exists r self' sh',
    run (H := example_builtins) 4 example_child 0%float
      {| current_test := None; start_time := None |}
      {| pending := __init__ ["test_b"; "test_crash"; "test_c"];
         output := [] |} = Some (r, self', sh')
    /\ tests (pending sh') = ["test_c"]
    /\ output sh' = [Result "test_b" "" "" pass_record;
                     Result "test_crash" "" "" crash_record].
Proof.
  destruct (worker_loop_ends (H := example_builtins) example_child 0%float
              {| current_test := None; start_time := None |}
              {| pending := __init__ ["test_b"; "test_crash"; "test_c"];
                 output := [] |} 4 ltac:(simpl; lia))
    as (r & self' & sh' & taken & items & final & Hrun & _).
  exists r, self', sh'. split; [exact Hrun |].
  vm_compute in Hrun. by injection Hrun as <- <- <-.
Defined.

(** X9.  When [setup_tests] raises in the child, the child reports no
    result: it writes nothing to its standard output and ends with the
    status of that exception, a number from 0 to 255 (for [SystemExit]
    the low eight bits of its code, 1 for any other exception).  Unless
    that status is zero, the worker publishes the record
    [(CHILD_ERROR, "Exit code N")] with the child's standard error and
    stops, and on that record the main thread raises the child error.
    When it is zero, as for [SystemExit(0)] and [SystemExit(256)], the
    worker puts the no-result signal. *)
Theorem setup_failure_is_a_child_error `{Builtins} (env : child_env)
  (ns : Namespace) (testname : string) (e : exn)
  (now : float) (ws : list MultiprocessThread) (m : main_state) :
  setup_raises env = Some e ->
  let code := exit_status (inl e) in
  let err := if e is SystemExit _ then "" else traceback env e in
  let result :=
    PyTuple [PyInt CHILD_ERROR; PyStr ("Exit code " +:+ str_int code)] in
  child_process env ns testname = (code, "", err)
  /\ 0 <= code < 256
  /\ (code <> 0 ->
      after_child testname (inr (code, "", err)) =
        Putting (Result testname "" (rstrip err) result) true
      /\ (on_item now ws (Result testname "" (rstrip err) result) m).1 =
           inl (Exception ("Child error on " +:+ testname +:+ ": Exit code "
                           +:+ str_int code)))
  /\ (code = 0 -> after_child testname (inr (code, "", err)) =
                    Putting NoResult true).
Proof.
  intros Hs code err result. split; [| split; [| split]].
  - unfold child_process, run_tests_slave, setup_tests. rewrite Hs.
    unfold mbind, SE_bind, raise. simpl. subst code err. by destruct e.
  - subst code. unfold exit_status. destruct e; try done.
    apply Z.mod_pos_bound. done.
  - intros Hc. split.
    + unfold after_child. by rewrite (handle_exit_nonzero _ _ _ _ Hc).
    + by rewrite (on_item_child_error _ _ _ _ _ _
                    (PyStr ("Exit code " +:+ str_int code))) by (by left).
  - intros ->. unfold after_child. by rewrite handle_exit_blank.
Qed.

Lemma setup_failure_is_a_child_error_witness :
  child_process (H := example_builtins) exiting_setup
    (ns (example_regrtest 1)) "test_os" = (0, "", "")
  /\ after_child (H := example_builtins) "test_os" (inr (0, "", "")) =
       Putting NoResult true.
Proof.
  destruct (setup_failure_is_a_child_error (H := example_builtins)
              exiting_setup (ns (example_regrtest 1)) "test_os"
              (SystemExit 256) 0%float []
              {| regrtest := example_regrtest 1; finished := 0;
                 test_index := 1; console := [] |} eq_refl)
    as (Hc & _ & _ & Hz).
  split; [exact Hc | exact (Hz eq_refl)].
Defined.

Section child_writes.
Context `{Builtins} (env : child_env).

(** What [runtest_inner] writes: what the test wrote, then at most one
    line of its own, none when the test raised nothing, none under
    [pgo], and none for a skipped test under [quiet]. *)
Lemma runtest_inner_writes test verbose quiet huntrleaks display_failure pgo w :
  exists message,
    (runtest_inner env test verbose quiet huntrleaks display_failure pgo w).2 =
      w ++ unit_writes env ++ message
    /\ (pgo = true -> message = [])
    /\ (quiet = true -> skipped env = true -> message = [])
    /\ (unit_raises env = None -> message = [])
    /\ (failed (inner_outcome env huntrleaks) = true ->
        Forall (fun e => e.1 = Stderr) message)
    /\ (runtest_inner env test verbose quiet huntrleaks display_failure pgo []).2
       = unit_writes env ++ message.
Proof.
  unfold runtest_inner, inner_outcome, skipped, failed.
  unfold mbind, SE_bind, emit, modify, when, print, write, modify, ret, mret,
    SE_ret, raise.
  destruct (unit_raises env) as [[]|], pgo, quiet, display_failure; simpl;
    repeat (match goal with
            | |- context [if ?b then _ else _] => destruct b
            end; simpl);
    rewrite <- ?app_assoc;
    first [ by exists []; rewrite ?app_nil_r
          | eexists [_]; split_and!; try done; by repeat constructor ].
Qed.

Lemma all_text_app (w1 w2 : writes) :
  all_text (w1 ++ w2) = all_text w1 +:+ all_text w2.
Proof. unfold all_text. by rewrite fmap_app, concat_app. Qed.

(** The writes of [runtest]: those of its body, then those of the
    clean-up, whatever the body did. *)
Lemma runtest_writes ns test w :
  (runtest env ns test w).2 =
  (if verbose3 ns
   then (ro ← capture (runtest_inner env test (verbose ns) (quiet ns)
                         (huntrleaks ns) false (pgo ns));
         failed ← kind_is ro.1 FAILED;
         when failed (write Stderr ro.2);;
         ret ro.1) w
   else runtest_inner env test (verbose ns) (quiet ns) (huntrleaks ns)
          (negb (verbose ns)) (pgo ns) w).2
  ++ cleanup_writes env.
Proof.
  unfold runtest, try_finally, cleanup_test_droppings.
  destruct (verbose3 ns);
    match goal with |- context [let (_, _) := ?b in _] => destruct b end;
    unfold mbind, SE_bind, emit, modify; simpl;
    by destruct (cleanup_raises env).
Qed.

End child_writes.

Section child_output.
Context `{Builtins} (env : child_env).

(** What [runtest_inner] has written, in all, when the test failed and
    [display_failure] is off. *)
Lemma runtest_inner_captured test verbose quiet huntrleaks pgo :
  failed (inner_outcome env huntrleaks) = true ->
  all_text (runtest_inner env test verbose quiet huntrleaks false pgo []).2 =
  all_text (unit_writes env) +:+ failure_line env test pgo.
Proof.
  unfold runtest_inner, inner_outcome, failed, failure_line.
  unfold mbind, SE_bind, emit, modify, when, print, write, modify, ret, mret,
    SE_ret, raise.
  destruct (unit_raises env) as [[]|], pgo; simpl; try done;
    repeat (match goal with
            | |- context [if ?b then _ else _] => destruct b
            end; simpl);
    try done; rewrite ?all_text_app, ?append_nil_r; try done;
    unfold all_text; simpl; by rewrite ?append_assoc, ?append_nil_r.
Qed.

(** What [runtest] writes with [verbose3] set: the captured output of a
    failed test, on the standard error, and nothing of any other test. *)
Lemma runtest_captured ns test w :
  verbose3 ns = true ->
  exists shown,
    (runtest env ns test w).2 = w ++ shown ++ cleanup_writes env
    /\ (failed (inner_outcome env (huntrleaks ns)) = false -> shown = [])
    /\ (failed (inner_outcome env (huntrleaks ns)) = true ->
        shown = [(Stderr, all_text (unit_writes env)
                          +:+ failure_line env test (pgo ns))]).
Proof.
  intros Hv. rewrite runtest_writes, Hv.
  unfold mbind at 1, SE_bind at 1, capture.
  pose proof (runtest_inner_outcome env test (verbose ns) (quiet ns)
                (huntrleaks ns) false (pgo ns) []) as Ho.
  pose proof (runtest_inner_captured test (verbose ns) (quiet ns)
                (huntrleaks ns) (pgo ns)) as Hw.
  destruct (runtest_inner env test (verbose ns) (quiet ns) (huntrleaks ns)
              false (pgo ns) []) as [[e | r] captured]; simpl in Ho, Hw.
  - exists []. rewrite <- Ho. simpl. done.
  - symmetry in Ho. destruct (inner_outcome_shape _ _ _ Ho) as (k & d & -> & _).
    rewrite Ho in *. unfold kind_is. simpl.
    unfold mbind, SE_bind, when, ret, mret, SE_ret. simpl. simpl in Hw.
    destruct (k =? FAILED); simpl.
    + eexists [_]. split; [by rewrite <- app_assoc | split; [done |]].
      intros _. by rewrite Hw.
    + by exists [].
Qed.

End child_output.

(** X10.  With [verbose3] set (the output of a test is shown on failure
    only), [runtest] lets nothing of what a test wrote through unless the
    test failed.  Then everything the test wrote to either stream, in
    the order written, goes to the standard error in one piece, followed
    in that piece by the line [runtest_inner] itself writes about the
    failure: "test T failed" for [TestFailed], "test T crashed --" and
    the traceback for any other exception, nothing under [pgo] or for a
    test that only leaked references.  The output of the clean-up
    follows in both cases. *)
Theorem output_is_shown_on_failure_only `{Builtins} (env : child_env)
  (ns : Namespace) (test : string) (w : writes) :
  verbose3 ns = true ->
  exists shown,
    (runtest env ns test w).2 = w ++ shown ++ cleanup_writes env
    /\ (failed (runtest_inner env test (verbose ns) (quiet ns) (huntrleaks ns)
                  false (pgo ns) w).1 = false -> shown = [])
    /\ (failed (runtest_inner env test (verbose ns) (quiet ns) (huntrleaks ns)
                  false (pgo ns) w).1 = true ->
        shown = [(Stderr, all_text (unit_writes env)
                          +:+ failure_line env test (pgo ns))]).
Proof. intros Hv. rewrite runtest_inner_outcome. by apply runtest_captured. Qed.

Lemma output_is_shown_on_failure_only_witness :
  (runtest (example_env (Some (TestFailed "boom")) None) capturing
     "test_os" []).2 =
  [(Stderr, "ok" +:+ nl +:+ "test test_os failed" +:+ nl)].
Proof.
  destruct (output_is_shown_on_failure_only (H := example_builtins)
              (example_env (Some (TestFailed "boom")) None) capturing
              "test_os" [] eq_refl) as (shown & Hw & _ & Hs).
  rewrite Hw, (Hs eq_refl). done.
Defined.

(** X11.  [runtest] runs the clean-up whatever the test did: what the
    clean-up writes comes last, after what was written before.  An
    exception of the clean-up replaces the result of the test; apart from
    that, [runtest] raises only the [KeyboardInterrupt] of the test, and
    turns every other exception of the test into a result. *)
Theorem cleanup_always_runs `{Builtins} (env : child_env) (ns : Namespace)
  (test : string) (w : writes) :
  (exists shown, (runtest env ns test w).2 = w ++ shown ++ cleanup_writes env)
  /\ (runtest env ns test w).1 =
       match cleanup_raises env with
       | Some e => inl e
       | None =>
           (runtest_inner env test (verbose ns) (quiet ns) (huntrleaks ns)
              (negb (verbose ns)) (pgo ns) w).1
       end
  /\ forall e,
       (runtest env ns test w).1 = inl e ->
       cleanup_raises env = Some e
       \/ e = KeyboardInterrupt /\ unit_raises env = Some KeyboardInterrupt.
Proof.
  split; [| split].
  - destruct (verbose3 ns) eqn:Hv.
    + destruct (runtest_captured env ns test w Hv) as (shown & Hw & _).
      by exists shown.
    + rewrite runtest_writes, Hv.
      destruct (runtest_inner_writes env test (verbose ns) (quiet ns)
                  (huntrleaks ns) (negb (verbose ns)) (pgo ns) w)
        as (message & -> & _).
      exists (unit_writes env ++ message). by rewrite <- !app_assoc.
  - by rewrite runtest_run, runtest_inner_outcome.
  - intros e. rewrite runtest_run. unfold runtest_outcome, inner_outcome.
    destruct (cleanup_raises env); [intros [= ->]; by left |].
    destruct (unit_raises env) as [[]|]; try done.
    intros [= <-]. by right.
Qed.

(** X12.  With [verbose3] off, [runtest] adds nothing of its own to what
    the test and the clean-up write when [pgo] is set, when the test was
    skipped and [quiet] is set, and when the test raised nothing. *)
Theorem runtest_adds_no_message `{Builtins} (env : child_env) (ns : Namespace)
  (test : string) (w : writes) :
  verbose3 ns = false ->
  pgo ns = true \/ quiet ns = true /\ skipped env = true
  \/ unit_raises env = None ->
  (runtest env ns test w).2 = w ++ unit_writes env ++ cleanup_writes env.
Proof.
  intros Hv Hq. rewrite runtest_writes, Hv.
  destruct (runtest_inner_writes env test (verbose ns) (quiet ns)
              (huntrleaks ns) (negb (verbose ns)) (pgo ns) w)
    as (message & -> & Hp & Hs & Hn & _).
  assert (message = []) as ->.
  { destruct Hq as [? | [[? ?] | ?]]; auto. }
  by rewrite app_nil_r, <- app_assoc.
Qed.

Lemma runtest_adds_no_message_witness :
  (runtest (example_env (Some (SkipTest "no network")) None) quietly
     "test_os" []).2 = [(Stdout, "ok" +:+ nl)].
Proof.
  by rewrite (runtest_adds_no_message (H := example_builtins)
                (example_env (Some (SkipTest "no network")) None) quietly
                "test_os" []
                eq_refl (or_intror (or_introl (conj eq_refl eq_refl)))).
Defined.

(** ** Finding the tests *)

Section string_order.

Lemma ascii_compare_refl (c : ascii) : Ascii.compare c c = Eq.
Proof. apply N.compare_refl. Qed.

Lemma ascii_compare_trans (a b c : ascii) (o : comparison) :
  Ascii.compare a b = o -> Ascii.compare b c = o -> Ascii.compare a c = o.
Proof.
  unfold Ascii.compare. destruct o.
  - intros ->%N.compare_eq_iff ->%N.compare_eq_iff. apply N.compare_refl.
  - rewrite !N.compare_lt_iff. lia.
  - rewrite !N.compare_gt_iff. lia.
Qed.

Lemma string_compare_refl (s : string) : String.compare s s = Eq.
Proof.
  induction s as [|c s IH]; [done |]. simpl. by rewrite ascii_compare_refl.
Qed.

Lemma string_compare_trans (a b c : string) :
  String.compare a b <> Gt -> String.compare b c <> Gt ->
  String.compare a c <> Gt.
Proof.
  revert b c. induction a as [|x a IH]; intros [|y b] [|z c]; simpl; try done.
  destruct (Ascii.compare x y) eqn:Hxy; [| | done].
  - apply Ascii.compare_eq_iff in Hxy as ->.
    destruct (Ascii.compare y z); [apply IH | done | done].
  - destruct (Ascii.compare y z) eqn:Hyz; [| | done].
    + apply Ascii.compare_eq_iff in Hyz as ->. by rewrite Hxy.
    + by rewrite (ascii_compare_trans x y z Lt).
Qed.

Lemma str_le_compare (a b : string) : str_le a b <-> String.compare a b <> Gt.
Proof. unfold str_le, String.leb. by destruct (String.compare a b). Qed.

#[global] Instance str_le_trans : Transitive str_le.
Proof.
  intros a b c. rewrite !str_le_compare. apply string_compare_trans.
Qed.

#[global] Instance str_le_total : Total str_le.
Proof. intros a b. apply String.leb_total. Qed.

#[global] Instance str_le_antisym : AntiSymm eq str_le.
Proof. intros a b. apply String.leb_antisym. Qed.

(** [sorted] gives the one ascending arrangement of its argument. *)
Lemma sorted_sorted (l : list string) : StronglySorted str_le (sorted l).
Proof. apply StronglySorted_merge_sort; apply _. Qed.

Lemma sorted_perm (l : list string) : sorted l ≡ₚ l.
Proof. apply merge_sort_Permutation. Qed.

Lemma sorted_unique (l l' : list string) : l ≡ₚ l' -> sorted l = sorted l'.
Proof.
  intros Hp. apply (Sorted_unique str_le).
  - apply Sorted_merge_sort, _.
  - apply Sorted_merge_sort, _.
  - by rewrite !sorted_perm.
Qed.

End string_order.

Section discovery_facts.
Context (listdir : string -> exn + list string).
Context (splitext : string -> string * string).
Context (here : string).

Lemma startswith_slice_to (p s : string) :
  startswith s p = String.eqb (slice_to (String.length p) s) p.
Proof.
  revert s. induction p as [|c p IH]; intros [|d s]; simpl; try done.
  rewrite IH, (Ascii.eqb_sym d c). by destruct (Ascii.eqb c d).
Qed.

Lemma findtestdir_truthy (path : option string) :
  truthy (findtestdir here path) = true.
Proof.
  unfold findtestdir, str_or. simpl.
  destruct (truthy_opt path) eqn:Hp.
  - destruct path as [p|]; [| done]. simpl in *. by rewrite Hp.
  - by destruct (truthy here) eqn:Hh.
Qed.

#[local] Arguments slice_to : simpl never.

(** The module names [findtests] collects from a listing. *)
Lemma found_elem (others : gset string) (names : list string) (m : string) :
  m ∈ (names ≫= fun name =>
         let '(modname, ext) := splitext name in
         if String.eqb (slice_to 5 modname) "test_"
            && (String.eqb ext ".py" || String.eqb ext "")
            && negb (bool_decide (modname ∈ others))
         then [modname] else []) <->
  exists name ext,
    name ∈ names /\ splitext name = (m, ext)
    /\ startswith m "test_" = true /\ (ext = ".py" \/ ext = "")
    /\ m ∉ others.
Proof.
  rewrite list_elem_of_bind.
  rewrite (startswith_slice_to "test_" m).
  change (String.length "test_") with 5%nat. split.
  - intros (name & Hm & Hin). exists name.
    destruct (splitext name) as [modname ext]. exists ext.
    destruct (String.eqb (slice_to 5 modname) "test_") eqn:Hp; simpl in Hm;
      [| by apply elem_of_nil in Hm].
    destruct (String.eqb ext ".py" || String.eqb ext "") eqn:He; simpl in Hm;
      [| by apply elem_of_nil in Hm].
    destruct (bool_decide (modname ∈ others)) eqn:Ho; simpl in Hm;
      [by apply elem_of_nil in Hm |].
    apply list_elem_of_singleton in Hm as ->.
    apply bool_decide_eq_false in Ho.
    apply orb_true_iff in He. rewrite !String.eqb_eq in He. done.
  - intros (name & ext & Hin & Hs & Hp & He & Ho). exists name.
    split; [| done]. rewrite Hs, Hp. simpl.
    assert (String.eqb ext ".py" || String.eqb ext "" = true) as ->.
    { apply orb_true_iff. by rewrite !String.eqb_eq. }
    rewrite bool_decide_eq_false_2 by done. simpl. apply list_elem_of_here.
Qed.

End discovery_facts.

(** X13.  [findtests] lists the directory [findtestdir] gives, which is
    never the empty path.  Its result is [stdtests] as given, followed in
    ascending order by the module names found: the roots of the
    directory's names that start with [test_], have the extension [.py]
    or none, and are neither in [stdtests] nor in [nottests].  So no
    standard test is listed twice on account of the directory, and
    [nottests] does not remove a standard test. *)
Theorem findtests_lists_std_then_sorted
  (listdir : string -> exn + list string) (splitext : string -> string * string)
  (here : string) (testdir : option string) (stdtests : list string)
  (nottests : gset string) (names : list string) :
  listdir (findtestdir here testdir) = inr names ->
  truthy (findtestdir here testdir) = true
  /\ exists found,
       findtests listdir splitext here testdir stdtests nottests =
         inr (stdtests ++ found)
       /\ StronglySorted str_le found
       /\ forall m,
            m ∈ found <->
            exists name ext,
              name ∈ names /\ splitext name = (m, ext)
              /\ startswith m "test_" = true /\ (ext = ".py" \/ ext = "")
              /\ (m ∉ stdtests) /\ (m ∉ nottests).
Proof.
  intros Hl. split; [apply findtestdir_truthy |].
  unfold findtests. rewrite Hl. eexists. split; [done |].
  split; [apply sorted_sorted |]. intros m.
  rewrite sorted_perm, found_elem.
  split; intros (name & ext & Hin & Hs & Hp & He & Ho); exists name, ext;
    (split; [done | split; [done | split; [done | split; [done |]]]]).
  - apply not_elem_of_union in Ho as [Ho1 Ho2].
    by rewrite elem_of_list_to_set in Ho1.
  - destruct Ho as [Ho1 Ho2]. apply not_elem_of_union.
    by rewrite elem_of_list_to_set.
Qed.

Lemma findtests_lists_std_then_sorted_witness :
  exists found,
    findtests example_listdir example_splitext "/lib/test" None STDTESTS
      NOTTESTS = inr (STDTESTS ++ found)
    /\ StronglySorted str_le found
    /\ "test_os" ∈ found.
Proof.
  destruct (findtests_lists_std_then_sorted example_listdir example_splitext
              "/lib/test" None STDTESTS NOTTESTS _ eq_refl)
    as (_ & found & Hf & Hs & Hin).
  exists found. split; [exact Hf | split; [exact Hs |]].
  apply Hin. exists "test_os.py", ".py". split_and!; try done.
  - repeat first [apply list_elem_of_here | apply list_elem_of_further].
  - by left.
  - refine (bool_decide_unpack _ _). by vm_compute.
Defined.

(** X14.  The result of [findtests] does not depend on the order in
    which [os.listdir] gives the names of the directory. *)
Theorem findtests_ignores_listing_order
  (listdir listdir' : string -> exn + list string)
  (splitext : string -> string * string)
  (here : string) (testdir : option string) (stdtests : list string)
  (nottests : gset string) (names names' : list string) :
  listdir (findtestdir here testdir) = inr names ->
  listdir' (findtestdir here testdir) = inr names' ->
  names ≡ₚ names' ->
  findtests listdir splitext here testdir stdtests nottests =
  findtests listdir' splitext here testdir stdtests nottests.
Proof.
  intros Hl Hl' Hp. unfold findtests. rewrite Hl, Hl'. do 2 f_equal.
  apply sorted_unique. by rewrite Hp.
Qed.

Lemma findtests_ignores_listing_order_witness :
  findtests example_listdir example_splitext "/lib/test" None STDTESTS
    NOTTESTS =
  findtests shuffled_listdir example_splitext "/lib/test" None STDTESTS
    NOTTESTS.
Proof.
  apply (findtests_ignores_listing_order example_listdir shuffled_listdir
           example_splitext "/lib/test" None STDTESTS NOTTESTS _ _
           eq_refl eq_refl).
  apply perm_swap.
Defined.

(** ** importlib *)

Import importlib.

Section import_facts.
Context `{Builtins}.

Lemma leading_dots_split (name : string) :
  name = dots (leading_dots name) +:+ slice_from (leading_dots name) name
  /\ startswith (slice_from (leading_dots name) name) "." = false.
Proof.
  induction name as [|c name [IH1 IH2]]; [done |].
  destruct (ascii_dec c ".") as [-> | Hne].
  - split; [| done]. simpl. rewrite IH1 at 1. reflexivity.
  - assert (leading_dots (String c name) = O) as ->.
    { simpl. destruct c as [[] [] [] [] [] [] [] []]; done. }
    split; [reflexivity |]. change (Ascii.eqb "." c && true = false).
    rewrite andb_true_r. apply Ascii.eqb_neq. congruence.
Qed.

Lemma startswith_abstest (test : string) :
  startswith (abstest test) "test." = true.
Proof. unfold abstest. by destruct (startswith test "test.") eqn:Ht. Qed.

End import_facts.

(** X15.  What [import_module] passes on to [_gcd_import], and when it
    raises instead.  A name without a leading dot is passed on unchanged
    at level 0, whatever [package] is.  A name with leading dots is
    passed on without them, the level being their number, provided
    [package] is given and not empty; otherwise [import_module] raises
    [TypeError] and [_gcd_import] is not called. *)
Theorem import_module_strips_leading_dots `{Builtins}
  (_gcd_import : string -> option string -> nat -> V (option ref))
  (name : string) (package : option string) (st : interpreter) :
  match import_module_call name package with
  | inr (rest, package', level) =>
      name = dots level +:+ rest /\ startswith rest "." = false
      /\ package' = package
      /\ (level <> O -> truthy_opt package = true)
      /\ import_module _gcd_import name package st =
           _gcd_import rest package level st
  | inl e =>
      startswith name "." = true /\ truthy_opt package = false
      /\ (exists msg, e = TypeError msg)
      /\ import_module _gcd_import name package st = (inl e, st)
  end.
Proof.
  unfold import_module. unfold import_module_call.
  destruct (leading_dots_split name) as [Hn Hs].
  destruct (startswith name ".") eqn:Hr.
  - destruct (truthy_opt package) eqn:Hp; simpl.
    + by split_and!.
    + split_and!; try done. by eexists.
  - simpl. split_and!; try done.
Qed.

(** X16.  [runtest_inner] imports a test under a name that starts with
    [test.], the given name when it already does: so [import_module]
    takes it for an absolute name, never raises [TypeError] on it and
    calls [_gcd_import] with that name at level 0. *)
Theorem tests_are_imported_from_the_test_package `{Builtins}
  (_gcd_import : string -> option string -> nat -> V (option ref))
  (test : string) (package : option string) (st : interpreter) :
  startswith (abstest test) "test." = true
  /\ abstest (abstest test) = abstest test
  /\ (startswith test "test." = false -> abstest test = "test." +:+ test)
  /\ import_module _gcd_import (abstest test) package st =
       _gcd_import (abstest test) package O st.
Proof.
  pose proof (startswith_abstest test) as Ha.
  split; [done |]. split; [| split].
  - unfold abstest at 1. by rewrite Ha.
  - intros Ht. unfold abstest. by rewrite Ht.
  - unfold import_module, import_module_call.
    assert (startswith (abstest test) "." = false) as ->; [| done].
    destruct (abstest test) as [|c rest]; [done |].
    change (Ascii.eqb "t" c && startswith rest "est." = true) in Ha.
    by apply andb_prop in Ha as [<-%Ascii.eqb_eq _].
Qed.

(** X17.  A name that [sys.modules] already holds is never searched for:
    [find_spec] and [find_loader] then do not call [_find_spec], ignore
    [path] and leave the interpreter as it is.  For a name bound to
    [None], [find_spec] returns [None] while [find_loader] raises
    [ValueError]; for a name bound to a module, [find_spec] returns the
    module's spec and raises [ValueError] when [__spec__] is not set or
    is [None], so it never returns [None]. *)
Theorem imported_modules_are_not_searched
  (f f' : string -> option (list string) -> option ref -> V (option ModuleSpec))
  (name : string) (path path' : option (list string)) (st : interpreter)
  (value : option ref) :
  sys_modules st !! name = Some value ->
  find_spec f name path st = find_spec f' name path' st
  /\ find_loader f name path st = find_loader f' name path' st
  /\ (find_spec f name path st).2 = st
  /\ (find_loader f name path st).2 = st
  /\ match value with
     | None =>
         (find_spec f name path st).1 = inr None
         /\ exists msg, (find_loader f name path st).1 = inl (ValueError msg)
     | Some module =>
         match (find_spec f name path st).1 with
         | inr (Some spec) => __spec__ (heap st module) = Is spec
         | inr None => False
         | inl e => exists msg, e = ValueError msg
         end
     end.
Proof.
  intros Hv. unfold find_spec, find_loader. rewrite Hv.
  destruct value as [module|].
  - destruct (__spec__ (heap st module)), (__loader__ (heap st module));
      simpl; split_and!; try done; by eexists.
  - simpl. split_and!; try done. by eexists.
Qed.

Lemma imported_modules_are_not_searched_witness :
  sys_modules example_interpreter !! "blocked" = Some None
  /\ (find_spec example_find_spec "blocked" None example_interpreter).1 =
       inr None
  /\ exists msg,
       (find_loader example_find_spec "blocked" None example_interpreter).1 =
       inl (ValueError msg).
Proof.
  split; [reflexivity |].
  by destruct (imported_modules_are_not_searched example_find_spec
                 example_find_spec "blocked" None None example_interpreter
                 None eq_refl) as (_ & _ & _ & _ & Hv).
Defined.

(** X18.  For a name that [sys.modules] does not hold, [find_spec] is
    [_find_spec], and [find_loader] makes the same search and gives the
    loader of the spec found: [None] when no spec is found, [ImportError]
    when the spec has no loader; both leave the interpreter as the search
    left it. *)
Theorem find_loader_follows_find_spec
  (f : string -> option (list string) -> option ref -> V (option ModuleSpec))
  (name : string) (path : option (list string)) (st : interpreter) :
  sys_modules st !! name = None ->
  find_spec f name path st = f name path None st
  /\ (find_loader f name path st).2 = (find_spec f name path st).2
  /\ match (find_spec f name path st).1 with
     | inl e => (find_loader f name path st).1 = inl e
     | inr None => (find_loader f name path st).1 = inr None
     | inr (Some spec) =>
         match loader spec with
         | Some l => (find_loader f name path st).1 = inr (Some l)
         | None =>
             exists msg, (find_loader f name path st).1 = inl (ImportError msg)
         end
     end.
Proof.
  intros Hv. unfold find_spec, find_loader. rewrite Hv.
  unfold mbind, SE_bind.
  destruct (f name path None st) as [[e | [spec|]] st']; simpl; try done.
  destruct (loader spec); simpl; [done |].
  split; [done | split; [by destruct (submodule_search_locations spec) |]].
  destruct (submodule_search_locations spec); by eexists.
Qed.

Lemma find_loader_follows_find_spec_witness :
  sys_modules example_interpreter !! "json" = None
  /\ (find_spec example_find_spec "json" None example_interpreter).1 =
       inr (Some json_spec)
  /\ (find_loader example_find_spec "json" None example_interpreter).1 =
       inr (Some 8%nat).
Proof.
  split; [reflexivity |]. split; [reflexivity |].
  by destruct (find_loader_follows_find_spec example_find_spec "json" None
                 example_interpreter eq_refl) as (_ & _ & Hl).
Defined.

Section reload_facts.
Context `{Builtins}.
Context (f : string -> option (list string) -> option ref ->
             V (option ModuleSpec)).
Context (exec : option ModuleSpec -> ref -> V unit).

(** [reload] from the point where [_RELOADING[name]] has been set, for a
    name that was not marked: the mark is gone at the end, and a value
    returned is what [sys.modules] then holds for the name. *)
Lemma reload_marked name module st r st' :
  (mark name module;;
   try_finally
     (let parent_name := rpartition_head "." name in
      st ← get;
      if truthy parent_name
         && negb (bool_decide (is_Some (sys_modules st !! parent_name)))
      then raise (ImportError ("parent " +:+ repr (PyStr parent_name)
                               +:+ " not in sys.modules"))
      else
        spec ← f name None (Some module);
        set_spec module spec;;
        exec spec module;;
        st ← get;
        match sys_modules st !! name with
        | Some value => ret value
        | None => raise (KeyError (repr (PyStr name)))
        end)
     (unmark name)) st = (r, st') ->
  _RELOADING st' !! name = None
  /\ (forall value, r = inr value -> sys_modules st' !! name = Some value).
Proof.
  unfold mbind, SE_bind, mark, unmark, modify, try_finally, get. simpl.
  match goal with
  | |- context [if ?b then _ else _] => destruct b
  end; simpl.
  { intros [= <- <-]. simpl. by rewrite lookup_delete_eq. }
  destruct (f name None (Some module) _) as [[e | spec] st1]; simpl.
  { intros [= <- <-]. simpl. by rewrite lookup_delete_eq. }
  destruct (exec spec module _) as [[e | []] st2]; simpl.
  { intros [= <- <-]. simpl. by rewrite lookup_delete_eq. }
  destruct (sys_modules st2 !! name) as [value|] eqn:Hv; simpl;
    intros [= <- <-]; simpl; rewrite lookup_delete_eq; split; try done.
  by intros ? [= <-].
Qed.

End reload_facts.

(** X19.  [reload] leaves no mark of its own in [_RELOADING], whatever
    [_find_spec] and the execution of the module do (return, raise,
    reload other modules): when the name of the module is not marked
    before the call it is not marked after it, and a value returned is
    what [sys.modules] holds for the name at the end (the module may
    have replaced itself).  When the name is marked (the module is being
    reloaded) and [reload] does not reject the argument, it returns the
    module marked and changes nothing. *)
Theorem reload_restores_the_mark `{Builtins}
  (f : string -> option (list string) -> option ref -> V (option ModuleSpec))
  (exec : option ModuleSpec -> ref -> V unit)
  (module : ref) (name : string) (st : interpreter) :
  module_name (heap st module) = inr name ->
  let r := (reload f exec (Some module) st).1 in
  let st' := (reload f exec (Some module) st).2 in
  match _RELOADING st !! name with
  | None =>
      _RELOADING st' !! name = None
      /\ forall value, r = inr value -> sys_modules st' !! name = Some value
  | Some reloading =>
      st' = st
      /\ (r = inr (Some reloading)
          \/ exists msg, r = inl (TypeError msg) \/ r = inl (ImportError msg))
  end.
Proof.
  intros Hn r st'. subst r st'.
  destruct (reload f exec (Some module) st) as [r st'] eqn:Hr. simpl.
  revert Hr. unfold reload.
  unfold mbind at 1, SE_bind at 1, get at 1.
  destruct (negb (truth (heap st module)) || negb (is_module (heap st module))).
  { intros [= <- <-]. destruct (_RELOADING st !! name) eqn:Hm.
    - split; [done |]. right. eexists. by left.
    - by split. }
  rewrite Hn. unfold mbind at 1, SE_bind at 1. simpl.
  destruct (negb (bool_decide (sys_modules st !! name = Some (Some module)))).
  { intros [= <- <-]. destruct (_RELOADING st !! name) eqn:Hm.
    - split; [done |]. right. eexists. by right.
    - by split. }
  destruct (_RELOADING st !! name) as [reloading|] eqn:Hm.
  - intros [= <- <-]. split; [done |]. by left.
  - apply reload_marked.
Qed.

Lemma reload_restores_the_mark_witness :
  module_name (heap example_interpreter 0%nat) = inr "os"
  /\ (reload (H := example_builtins) example_find_spec example_exec
        (Some 0%nat) example_interpreter).1 = inr (Some 0%nat)
  /\ _RELOADING (reload (H := example_builtins) example_find_spec example_exec
                   (Some 0%nat) example_interpreter).2 !! "os" = None.
Proof.
  split; [reflexivity |]. split; [reflexivity |].
  by destruct (reload_restores_the_mark (H := example_builtins)
                 example_find_spec example_exec 0%nat "os"
                 example_interpreter eq_refl) as [Hm _].
Defined.

Section partition_facts.

Lemma rsplit_at_free sep (s : string) :
  free_of sep s = true -> rsplit_at sep s = None.
Proof.
  unfold free_of. induction s as [|c s IH]; simpl; [done |].
  intros [Hc Hs]%andb_prop. rewrite (IH Hs).
  by apply negb_true_iff in Hc as ->.
Qed.

Lemma rsplit_at_append sep (a h t b : string) :
  rsplit_at sep b = Some (h, t) -> rsplit_at sep (a +:+ b) = Some (a +:+ h, t).
Proof.
  intros Hb. induction a as [|c a IH]; [done |].
  change (String c a +:+ b) with (String c (a +:+ b)). simpl. by rewrite IH.
Qed.

(** The parent of a dotted name. *)
Lemma rpartition_head_dotted sep (parent leaf : string) :
  free_of sep leaf = true ->
  rpartition_head sep (parent +:+ String sep "" +:+ leaf) = parent.
Proof.
  intros Hl. unfold rpartition_head.
  change (String sep "" +:+ leaf) with (String sep leaf).
  rewrite (rsplit_at_append sep parent "" leaf).
  - by rewrite append_nil_r.
  - simpl. by rewrite (rsplit_at_free sep leaf Hl), Ascii.eqb_refl.
Qed.

Lemma rpartition_head_free sep (s : string) :
  free_of sep s = true -> rpartition_head sep s = "".
Proof. intros Hs. unfold rpartition_head. by rewrite rsplit_at_free. Qed.

End partition_facts.

(** X20.  What [reload] rejects, it rejects before any effect: the
    interpreter is left as it was, and neither [_find_spec] nor the
    module is run.  It raises [TypeError] for [None], for an object that
    is false and for one that is not a module, whatever else the object
    is.  For a module, it raises the [AttributeError] of a missing
    [__name__] when the module has no spec either; [ImportError] when
    [sys.modules] does not hold the module under its name; and, for a
    module [parent.leaf] that is not being reloaded and whose parent is
    not in [sys.modules], [ImportError] again, the mark it had set in
    [_RELOADING] removed. *)
Theorem reload_rejects_before_any_effect `{Builtins}
  (f : string -> option (list string) -> option ref -> V (option ModuleSpec))
  (exec : option ModuleSpec -> ref -> V unit)
  (module : ref) (st : interpreter) :
  let m := heap st module in
  reload f exec None st =
    (inl (TypeError "reload() argument must be module"), st)
  /\ (truth m = false \/ is_module m = false ->
      reload f exec (Some module) st =
        (inl (TypeError "reload() argument must be module"), st))
  /\ (truth m = true -> is_module m = true ->
      match module_name m with
      | inl e => reload f exec (Some module) st = (inl e, st)
      | inr name =>
          (sys_modules st !! name <> Some (Some module) ->
           reload f exec (Some module) st =
             (inl (ImportError ("module " +:+ name
                                +:+ " not in sys.modules")), st))
          /\ (sys_modules st !! name = Some (Some module) ->
              _RELOADING st !! name = None ->
              forall parent leaf,
                name = parent +:+ "." +:+ leaf -> free_of "." leaf = true ->
                parent <> "" -> sys_modules st !! parent = None ->
                reload f exec (Some module) st =
                  (inl (ImportError ("parent " +:+ repr (PyStr parent)
                                     +:+ " not in sys.modules")), st))
      end).
Proof.
  intros m. subst m. split; [done |]. split.
  - intros Hf. unfold reload. unfold mbind at 1, SE_bind at 1, get at 1.
    by destruct Hf as [-> | ->]; rewrite ?orb_true_r.
  - intros Ht Hi.
    destruct (module_name (heap st module)) as [e | name] eqn:Hn.
    { unfold reload. unfold mbind at 1, SE_bind at 1, get at 1.
      by rewrite Ht, Hi, Hn. }
    split.
    + intros Hs. unfold reload.
      unfold mbind at 1, SE_bind at 1, get at 1. rewrite Ht, Hi, Hn.
      unfold mbind, SE_bind. simpl. by rewrite bool_decide_eq_false_2.
    + intros Hs Hm parent leaf Hname Hleaf Hp Hnone. unfold reload.
      unfold mbind at 1, SE_bind at 1, get at 1. rewrite Ht, Hi, Hn.
      unfold mbind at 1, SE_bind at 1. simpl.
      rewrite bool_decide_eq_true_2, Hm by done. simpl.
      unfold mbind, SE_bind, mark, unmark, modify, try_finally, get. simpl.
      rewrite Hname, (rpartition_head_dotted "." parent leaf Hleaf), Hnone.
      assert (truthy parent = true) as -> by (by destruct parent).
      rewrite bool_decide_eq_false_2 by (by intros [? ?]). simpl.
      rewrite delete_insert_id by (by rewrite <- Hname). by destruct st.
Qed.

Lemma reload_rejects_before_any_effect_witness :
  reload (H := example_builtins) example_find_spec example_exec
    (Some 2%nat) example_interpreter =
    (inl (TypeError "reload() argument must be module"), example_interpreter)
  /\ reload (H := example_builtins) example_find_spec example_exec
       (Some 1%nat) example_interpreter =
     (inl (ImportError "parent ? not in sys.modules"), example_interpreter).
Proof.
  split.
  - destruct (reload_rejects_before_any_effect (H := example_builtins)
                example_find_spec example_exec 2%nat example_interpreter)
      as (_ & Ht & _).
    apply Ht. by right.
  - destruct (reload_rejects_before_any_effect (H := example_builtins)
                example_find_spec example_exec 1%nat example_interpreter)
      as (_ & _ & Hm).
    destruct (Hm eq_refl eq_refl) as [_ Hp].
    by apply (Hp eq_refl eq_refl "email" "mime").
Defined.

(** ** The droppings of a test *)

Import droppings.

Section droppings_facts.
Context `{Builtins}.
Context (TESTFN : string) (nuke : string -> kind -> option string).

(** One round of the loop of [cleanup_test_droppings]: a name that does
    not exist is skipped; a name that is neither a directory nor a file
    raises [SystemError]; any other name is removed, or, when that fails,
    reported on the standard error. *)
Lemma cleanup_name_run testname verbose name fs w :
  exists said,
    cleanup_name nuke testname verbose name (fs, w) =
    match fs !! name with
    | None => (inr tt, (fs, w))
    | Some Neither =>
        (inl (Other "SystemError"
                ("os.path says " +:+ repr (PyStr name)
                 +:+ " exists but is neither directory nor file")), (fs, w))
    | Some k =>
        (inr tt, (if nuke name k is None then delete name fs else fs,
                  w ++ said))
    end
    /\ (verbose = false -> Forall (fun e => e.1 = Stderr) said)
    /\ (forall k, fs !! name = Some k -> nuke name k = None ->
        Forall (fun e => e.1 = Stdout) said).
Proof.
  unfold cleanup_name, mbind, SE_bind, get, when, say, remove, modify. simpl.
  destruct (fs !! name) as [[]|] eqn:Hf; simpl.
  1: destruct (nuke name Directory) eqn:Hk.
  3: destruct (nuke name File) eqn:Hk.
  1-4: destruct verbose; simpl; rewrite <- ?app_assoc; simpl;
         first [ exists []; split; [by rewrite app_nil_r |]
               | eexists; split; [reflexivity |] ];
         (split; [try done; intros _; by repeat constructor |]);
         intros k [= <-] Hk'; try congruence; by repeat constructor.
  all: exists []; by split.
Qed.

End droppings_facts.

Section droppings_rounds.
Context `{Builtins}.
Context (TESTFN : string) (nuke : string -> kind -> option string).

(** A round that returns leaves every other name alone; its own name is
    gone, or could not be removed and is as it was. *)
Lemma cleanup_name_returns testname verbose name fs w fs1 w1 :
  cleanup_name nuke testname verbose name (fs, w) = (inr tt, (fs1, w1)) ->
  (forall x, x <> name -> fs1 !! x = fs !! x)
  /\ (fs1 !! name = None
      \/ exists k msg,
           fs !! name = Some k /\ nuke name k = Some msg /\ fs1 = fs)
  /\ fs !! name <> Some Neither
  /\ exists said,
       w1 = w ++ said
       /\ (verbose = false -> Forall (fun e => e.1 = Stderr) said)
       /\ ((forall k, fs !! name = Some k -> nuke name k = None) ->
           Forall (fun e => e.1 = Stdout) said).
Proof.
  destruct (cleanup_name_run nuke testname verbose name fs w)
    as (said & -> & Hv & Hk).
  destruct (fs !! name) as [k|] eqn:Hf.
  2:{ intros [= <- <-]. split; [done |]. split; [by left |]. split; [done |].
      exists []. by rewrite app_nil_r. }
  assert (Hgo : forall k',
            k = k' ->
            (forall x, x <> name ->
               (if nuke name k' is None then delete name fs else fs) !! x
               = fs !! x)
            /\ ((if nuke name k' is None then delete name fs else fs) !! name
                = None
                \/ exists k0 msg,
                     Some k = Some k0 /\ nuke name k0 = Some msg
                     /\ (if nuke name k' is None then delete name fs else fs)
                        = fs)).
  { intros k' <-. destruct (nuke name k) as [msg|] eqn:Hn.
    - split; [done |]. right. by exists k, msg.
    - split; [| left; apply lookup_delete_eq].
      intros x Hx. apply lookup_delete_ne. congruence. }
  assert (Hsaid : exists said0,
            w ++ said = w ++ said0
            /\ (verbose = false -> Forall (fun e => e.1 = Stderr) said0)
            /\ ((forall k0, Some k = Some k0 -> nuke name k0 = None) ->
                Forall (fun e => e.1 = Stdout) said0)).
  { exists said. split; [done | split; [done |]].
    intros Hall. apply (Hk k); [done | by apply Hall]. }
  destruct k; [| | done]; intros [= <- <-];
    (split; [by apply Hgo | split; [by apply Hgo | split; [done | done]]]).
Qed.

(** A round raises only on a name that is neither a directory nor a
    file, and then changes nothing. *)
Lemma cleanup_name_raises testname verbose name fs w e d :
  cleanup_name nuke testname verbose name (fs, w) = (inl e, d) ->
  fs !! name = Some Neither /\ d = (fs, w)
  /\ exists msg, e = Other "SystemError" msg.
Proof.
  destruct (cleanup_name_run nuke testname verbose name fs w)
    as (said & -> & _).
  destruct (fs !! name) as [[]|]; try done.
  intros [= <- <-]. split; [done | split; [done |]]. by eexists.
Qed.

End droppings_rounds.

(** X21.  When [cleanup_test_droppings] returns, each of the two names it
    looks after, [support.TESTFN] and [db_home], is gone, unless its
    removal failed, which leaves it as it was; every other name is
    untouched.  It writes to the standard output only when [verbose] is
    set, and to the standard error only when a removal failed. *)
Theorem droppings_are_removed `{Builtins} (TESTFN : string)
  (nuke : string -> kind -> option string) (testname : string)
  (verbose : bool) (fs fs' : gmap string kind) (w w' : writes) :
  cleanup_test_droppings TESTFN nuke testname verbose (fs, w) =
    (inr tt, (fs', w')) ->
  (forall name, name <> TESTFN -> name <> "db_home" -> fs' !! name = fs !! name)
  /\ (forall name,
        name = TESTFN \/ name = "db_home" ->
        fs' !! name = None
        \/ exists k msg,
             fs !! name = Some k /\ nuke name k = Some msg
             /\ fs' !! name = Some k)
  /\ exists said,
       w' = w ++ said
       /\ (verbose = false -> Forall (fun e => e.1 = Stderr) said)
       /\ ((forall name k, fs !! name = Some k -> nuke name k = None) ->
           Forall (fun e => e.1 = Stdout) said).
Proof.
  unfold cleanup_test_droppings. simpl. unfold mbind, SE_bind.
  destruct (cleanup_name nuke testname verbose TESTFN (fs, w))
    as [[e | []] [fs1 w1]] eqn:H1; [done |].
  destruct (cleanup_name nuke testname verbose "db_home" (fs1, w1))
    as [[e | []] [fs2 w2]] eqn:H2; [done |].
  intros [= <- <-].
  destruct (cleanup_name_returns nuke _ _ _ _ _ _ _ H1)
    as (Ho1 & Hn1 & _ & said1 & -> & Hv1 & Hk1).
  destruct (cleanup_name_returns nuke _ _ _ _ _ _ _ H2)
    as (Ho2 & Hn2 & _ & said2 & -> & Hv2 & Hk2).
  split; [| split].
  - intros name Ht Hd. by rewrite Ho2, Ho1.
  - intros name [-> | ->].
    + destruct (decide (TESTFN = "db_home")) as [Heq | Hne].
      * rewrite Heq in *. destruct Hn2 as [? | (k & msg & Hf & Hn & ->)];
          [by left |].
        destruct Hn1 as [Hnone | (k1 & msg1 & Hf1 & Hk & ->)];
          [congruence |].
        right. by exists k1, msg1.
      * rewrite (Ho2 TESTFN Hne).
        destruct Hn1 as [? | (k & msg & Hf & Hn & ->)]; [by left |].
        right. by exists k, msg.
    + destruct Hn2 as [? | (k & msg & Hf & Hn & ->)]; [by left |].
      destruct (decide (TESTFN = "db_home")) as [Heq | Hne].
      * rewrite Heq in *.
        destruct Hn1 as [Hnone | (k1 & msg1 & Hf1 & Hk & ->)];
          [congruence |].
        right. by exists k1, msg1.
      * right. exists k, msg. rewrite <- (Ho1 "db_home") by done. done.
  - exists (said1 ++ said2). rewrite app_assoc. split; [done |]. split.
    + intros Hv. apply Forall_app. by split; [apply Hv1 | apply Hv2].
    + intros Hall. apply Forall_app. split; [apply Hk1; by apply Hall |].
      apply Hk2. intros k Hf.
      destruct (decide (TESTFN = "db_home")) as [Heq | Hne].
      * rewrite Heq in *.
        destruct Hn1 as [Hnone | (k1 & msg1 & Hf1 & Hk & ->)];
          [congruence |].
        by apply Hall.
      * apply Hall. by rewrite <- (Ho1 "db_home").
Qed.

Lemma droppings_are_removed_witness :
  cleanup_test_droppings (H := example_builtins) "@test_1_tmp" example_nuke
    "test_os" false (example_disk, []) =
    (inr tt, (cleaned_disk,
              [(Stderr, "? left behind directory ? and it couldn't be "
                        +:+ "removed: Permission denied" +:+ nl)]))
  /\ cleaned_disk !! "@test_1_tmp" = None
  /\ cleaned_disk !! "Makefile" = example_disk !! "Makefile".
Proof.
  assert (Hrun :
    cleanup_test_droppings (H := example_builtins) "@test_1_tmp" example_nuke
      "test_os" false (example_disk, []) =
    (inr tt, (cleaned_disk,
              [(Stderr, "? left behind directory ? and it couldn't be "
                        +:+ "removed: Permission denied" +:+ nl)]))).
  { vm_compute. reflexivity. }
  split; [exact Hrun |].
  destruct (droppings_are_removed (H := example_builtins) "@test_1_tmp"
              example_nuke "test_os" false example_disk cleaned_disk [] _ Hrun)
    as (Hother & Hnames & _).
  split; [| by apply Hother].
  destruct (Hnames "@test_1_tmp" (or_introl eq_refl))
    as [Hgone | (k & msg & _ & Hn & _)]; [exact Hgone | done].
Defined.

(** X22.  [cleanup_test_droppings] raises nothing but [SystemError], and
    that only when one of its two names exists and is neither a directory
    nor a file; a removal that fails does not make it raise.  When that
    name is [support.TESTFN], nothing is changed and nothing written, and
    [db_home] is not looked at. *)
Theorem droppings_raise_only_SystemError `{Builtins} (TESTFN : string)
  (nuke : string -> kind -> option string) (testname : string)
  (verbose : bool) (fs : gmap string kind) (w : writes) :
  match cleanup_test_droppings TESTFN nuke testname verbose (fs, w) with
  | (inr _, _) =>
      fs !! TESTFN <> Some Neither /\ fs !! "db_home" <> Some Neither
  | (inl e, d) =>
      (exists msg, e = Other "SystemError" msg)
      /\ (fs !! TESTFN = Some Neither \/ fs !! "db_home" = Some Neither)
      /\ (fs !! TESTFN = Some Neither -> d = (fs, w))
  end.
Proof.
  unfold cleanup_test_droppings. simpl. unfold mbind, SE_bind.
  destruct (cleanup_name nuke testname verbose TESTFN (fs, w))
    as [[e | []] [fs1 w1]] eqn:H1.
  { destruct (cleanup_name_raises nuke _ _ _ _ _ _ _ H1) as (Hf & Hd & He).
    split; [done | split; [by left | done]]. }
  destruct (cleanup_name_returns nuke _ _ _ _ _ _ _ H1)
    as (Ho1 & Hn1 & Hne1 & _).
  assert (Hsame : fs1 !! "db_home" = Some Neither ->
                  fs !! "db_home" = Some Neither).
  { destruct (decide (TESTFN = "db_home")) as [Heq | Hne].
    - rewrite Heq in *.
      destruct Hn1 as [Hnone | (k1 & msg1 & Hf1 & Hk & ->)]; congruence.
    - by rewrite (Ho1 "db_home"). }
  destruct (cleanup_name nuke testname verbose "db_home" (fs1, w1))
    as [[e | []] [fs2 w2]] eqn:H2.
  - destruct (cleanup_name_raises nuke _ _ _ _ _ _ _ H2) as (Hf & Hd & He).
    split; [done | split; [right; by apply Hsame | done]].
  - destruct (cleanup_name_returns nuke _ _ _ _ _ _ _ H2)
      as (_ & _ & Hne2 & _).
    split; [done |]. intros Hd. apply Hne2.
    destruct (decide (TESTFN = "db_home")) as [Heq | Hne].
    + rewrite Heq in *. congruence.
    + by rewrite (Ho1 "db_home").
Qed.
